(** * PersonaForge: the narrative core of the chat client

    A shallow embedding of the TypeScript sources
    [types.ts], [services/geminiService.ts], [services/audioUtils.ts],
    [components/ChatArea.tsx], [components/CharacterSetup.tsx],
    [components/UserSetup.tsx], [components/MediaLab.tsx] and [App.tsx],
    and the properties the specification states about them.

    Conventions of the embedding.
    - A JavaScript string is the list of its UTF-16 code units.
    - An optional property ([height?: string]) is an [option]; [None] is
      [undefined].
    - [Date.now()] is an input of the handler that calls it, one reading per
      call site.
    - A promise of an external collaborator is an input too: [Rejected] or
      [Resolved v].  An [async] handler is cut at its [await]s: the part
      before the [await] runs when the user interface event arrives and
      leaves a job in flight that remembers the variables the closure
      captured; the part after it runs when the job is resolved.
    - React state is a record, a [setX] call is a record update, and
      [setMessages(prev => ...)] applies its function to the current log.
      The updates of one block between two [await]s are rendered together,
      and an effect runs once after them. *)

From Stdlib Require Import ZArith NArith String Ascii DecimalString QArith.
From stdpp Require Import base option list gmap.

Local Open Scope Z_scope.

(** ** JavaScript strings *)

Module JS.

Definition jsstring : Type := list N.

(** Decoding of a UTF-8 source literal into UTF-16 code units. *)
Fixpoint utf16_of_utf8 (bs : list N) : jsstring :=
  match bs with
  | [] => []
  | b :: rest =>
      if (b <? 128)%N then b :: utf16_of_utf8 rest
      else if (b <? 224)%N then
        match rest with
        | c1 :: rest1 =>
            ((b mod 32) * 64 + c1 mod 64)%N :: utf16_of_utf8 rest1
        | _ => []
        end
      else if (b <? 240)%N then
        match rest with
        | c1 :: c2 :: rest2 =>
            ((b mod 16) * 4096 + (c1 mod 64) * 64 + c2 mod 64)%N
              :: utf16_of_utf8 rest2
        | _ => []
        end
      else
        match rest with
        | c1 :: c2 :: c3 :: rest3 =>
            let cp := ((b mod 8) * 262144 + (c1 mod 64) * 4096
                       + (c2 mod 64) * 64 + c3 mod 64 - 65536)%N in
            (55296 + cp / 1024)%N :: (56320 + cp mod 1024)%N
              :: utf16_of_utf8 rest3
        | _ => []
        end
  end.

Definition js (s : string) : jsstring :=
  utf16_of_utf8 (List.map N_of_ascii (list_ascii_of_string s)).

(** [!s] and [s] used as a condition: only the empty string is falsy. *)
Definition truthy (s : jsstring) : bool :=
  match s with [] => false | _ => true end.

(** [x || d] on an optional string. *)
Definition or_else (x : option jsstring) (d : jsstring) : jsstring :=
  match x with
  | Some s => if truthy s then s else d
  | None => d
  end.

(** A condition on an optional string: [undefined] and [""] are falsy. *)
Definition truthy_opt (x : option jsstring) : bool :=
  match x with Some s => truthy s | None => false end.

(** An optional string spliced into a template literal. *)
Definition interpolate (x : option jsstring) : jsstring :=
  match x with Some s => s | None => js "undefined" end.

(** [s.startsWith(p)], on code units. *)
Fixpoint starts_with (p s : jsstring) : bool :=
  match p, s with
  | [], _ => true
  | _ :: _, [] => false
  | a :: p', b :: s' => if decide (a = b) then starts_with p' s' else false
  end.

(** [s.includes(p)]. *)
Fixpoint includes (s p : jsstring) : bool :=
  starts_with p s ||
  match s with
  | [] => false
  | _ :: s' => includes s' p
  end.

(** [s.replace(p, r)] with a string pattern: only the first occurrence of
    [p] is replaced ([r] holds no [$], so it is taken literally). *)
Fixpoint replace (s p r : jsstring) : jsstring :=
  if starts_with p s then r ++ drop (length p) s
  else match s with
       | [] => []
       | c :: s' => c :: replace s' p r
       end.

(** White space and line terminators of ECMAScript, as [trim] sees them. *)
Definition is_space (c : N) : bool :=
  bool_decide (c ∈ [9; 10; 11; 12; 13; 32; 160; 5760; 8232; 8233; 8239;
                    8287; 12288; 65279]%N)
  || ((8192 <=? c)%N && (c <=? 8202)%N).

Fixpoint trim_start (s : jsstring) : jsstring :=
  match s with
  | c :: s' => if is_space c then trim_start s' else s
  | [] => []
  end.

Definition trim_end (s : jsstring) : jsstring :=
  reverse (trim_start (reverse s)).

Definition trim (s : jsstring) : jsstring := trim_end (trim_start s).

(** [s.substring(0, n)]. *)
Definition substring0 (n : nat) (s : jsstring) : jsstring := take n s.

(** [n.toString()] for an integer [n]. *)
Definition toString (n : Z) : jsstring :=
  List.map N_of_ascii (list_ascii_of_string (NilZero.string_of_int (Z.to_int n))).

End JS.

Export JS.


(** ** The data model ([types.ts])

    Every interface is a record in a module of its own, so that the fields
    keep the names they have in the source. *)

Module HumanPreferences.
Record t := mk { ageGroup : jsstring; bodyType : jsstring;
                 tastePreference : jsstring }.
End HumanPreferences.
Abbreviation HumanPreferences := HumanPreferences.t.

Inductive DietType := HERBIVORE | CARNIVORE.

Module DietConfig.
Record t := mk { type : DietType; details : jsstring; eatsHumans : bool;
                 humanPreferences : option HumanPreferences }.
End DietConfig.
Abbreviation DietConfig := DietConfig.t.

Inductive WhoSawFirst := USER | CHARACTER | BOTH.

Module EncounterConfig.
Record t := mk { environment : jsstring; whoSawFirst : WhoSawFirst }.
End EncounterConfig.
Abbreviation EncounterConfig := EncounterConfig.t.

Module Character.
Record t := mk {
  id : jsstring;
  name : jsstring;
  description : jsstring;
  baseImage : jsstring;
  systemInstruction : jsstring;
  height : option jsstring;
  weight : option jsstring;
  powers : option jsstring;
  age : option jsstring;
  lifeExpectancy : option jsstring;
  diet : option DietConfig;
  encounter : option EncounterConfig;
  questionAnswers : option (gmap jsstring jsstring)
}.
End Character.
Abbreviation Character := Character.t.

Module UserPersona.
Record t := mk {
  name : jsstring;
  appearance : jsstring;
  baseImage : option jsstring;
  height : jsstring;
  weight : jsstring;
  age : jsstring
}.
End UserPersona.
Abbreviation UserPersona := UserPersona.t.

Module Role.
Inductive t := user | model.
End Role.
Abbreviation Role := Role.t.

Module Message.
Record t := mk {
  id : jsstring;
  role : Role;
  text : jsstring;
  timestamp : Z;
  isDeath : option bool;
  generatedImage : option jsstring
}.

(** [m.isDeath] used as a condition. *)
Definition died (m : t) : bool :=
  match isDeath m with Some b => b | None => false end.
End Message.
Abbreviation Message := Message.t.

Module ChatSession.
Record t := mk {
  id : jsstring;
  character : Character;
  userPersona : option UserPersona;
  messages : list Message;
  lastUpdated : Z;
  previewText : option jsstring
}.
End ChatSession.
Abbreviation ChatSession := ChatSession.t.

#[global] Instance Role_eq_dec : EqDecision Role.
Proof. solve_decision. Defined.
#[global] Instance DietType_eq_dec : EqDecision DietType.
Proof. solve_decision. Defined.

(** ** Settled promises and JSON texts *)

(** The outcome of an awaited promise. *)
Inductive Settled (A : Type) : Type :=
| Rejected (reason : jsstring)
| Resolved (value : A).
Arguments Rejected {A} reason.
Arguments Resolved {A} value.

(** A text handed to [JSON.parse], read at the type [A] the caller declares
    for the result: the JSON text of a value, or a text on which
    [JSON.parse] throws a [SyntaxError]. *)
Inductive JsonText (A : Type) : Type :=
| Json (value : A)
| NotJson (raw : jsstring).
Arguments Json {A} value.
Arguments NotJson {A} raw.

(** A text used as a condition: a JSON text is never empty. *)
Definition nonempty_text {A} (t : JsonText A) : bool :=
  match t with Json _ => true | NotJson raw => truthy raw end.

(** [JSON.parse(text || "{}")]: [empty] is the value of ["{}"];
    [None] is the [SyntaxError]. *)
Definition parse_or_empty {A} (text : option (JsonText A)) (empty : A)
  : option A :=
  match text with
  | Some (Json v) => Some v
  | Some (NotJson raw) => if truthy raw then None else Some empty
  | None => Some empty
  end.

(** ** The calls to the generative service ([services/geminiService.ts])

    Each function takes, besides its own arguments, the settled promise of
    the request it sends; the prompt it builds is read by the service only
    and is left out, but for the system instruction of the chat.  A function
    that writes to the console gives what it writes, oldest first, together
    with the promise it returns. *)

Module GeminiService.

(** A call of [console.warn] or [console.error], with its first argument. *)
Module console.
Inductive t := warn (label : jsstring) | error (label : jsstring).
End console.

(** The parts of a [GenerateContentResponse] that the functions read. *)
Record Blob := { data : jsstring }.
Record Part := { inlineData : option Blob }.
Record Content := { parts : option (list Part) }.
Record Candidate := { content : option Content }.
Record GenerateContentResponse := { candidates : option (list Candidate) }.

(** [candidate?.content?.parts || []]. *)
Definition parts_of (candidate : Candidate) : list Part :=
  match content candidate with
  | Some ct => default [] (parts ct)
  | None => []
  end.

(** [response.candidates?.[0]?.content?.parts || []]. *)
Definition first_parts (response : GenerateContentResponse) : list Part :=
  match candidates response with
  | Some (candidate :: _) => parts_of candidate
  | _ => []
  end.

(** The parts of all the candidates of a response. *)
Definition all_parts (response : GenerateContentResponse) : list Part :=
  default [] (candidates response) ≫= parts_of.

(** [for (const part of ps) if (part.inlineData) return part.inlineData.data]:
    the data of the first part that carries some, if any. *)
Fixpoint first_inline_data (ps : list Part) : option jsstring :=
  match ps with
  | [] => None
  | part :: rest =>
      match inlineData part with
      | Some blob => Some (data blob)
      | None => first_inline_data rest
      end
  end.

(** 3. [chatWithCharacter]: [response.text || ""]. *)
Definition chatWithCharacter (response : Settled (option jsstring))
  : Settled jsstring :=
  match response with
  | Rejected e => Rejected e
  | Resolved text => Resolved (or_else text [])
  end.

(** 2. [autoFillCharacterProfile].  The answers of a profile are keyed by
    the number of the question, as the response schema asks. *)
Record Profile := {
  name : option jsstring;
  backstory : option jsstring;
  height : option jsstring;
  weight : option jsstring;
  age : option jsstring;
  lifeExpectancy : option jsstring;
  powers : option jsstring;
  environment : option jsstring;
  diet : option DietConfig;
  answers : option (gmap nat jsstring)
}.

Definition empty_profile : Profile :=
  {| name := None; backstory := None; height := None; weight := None;
     age := None; lifeExpectancy := None; powers := None;
     environment := None; diet := None; answers := None |}.

Definition autoFillCharacterProfile
    (response : Settled (option (JsonText Profile)))
  : list console.t * Settled Profile :=
  match response with
  | Rejected e => ([], Rejected e)
  | Resolved text =>
      match parse_or_empty text empty_profile with
      | Some raw =>
          let sanitizedAnswers := default ∅ (answers raw) in
          ([],
           Resolved {| name := name raw; backstory := backstory raw;
                       height := height raw; weight := weight raw;
                       age := age raw; lifeExpectancy := lifeExpectancy raw;
                       powers := powers raw; environment := environment raw;
                       diet := diet raw; answers := Some sanitizedAnswers |})
      | None =>
          ([console.error (js "Failed to parse profile JSON")],
           Rejected (js "Falha ao gerar perfil automático."))
      end
  end.

(** 4. [processTimeSkip]. *)
Record TimeSkipUpdates := {
  newWeight : option jsstring;
  newHeight : option jsstring;
  newAge : option jsstring;
  stats : option jsstring;
  summary : option jsstring;
  visualEvolutionPrompt : option jsstring
}.

Definition empty_updates : TimeSkipUpdates :=
  {| newWeight := None; newHeight := None; newAge := None; stats := None;
     summary := None; visualEvolutionPrompt := None |}.

Definition processTimeSkip (character : Character) (duration : jsstring)
    (response : Settled (option (JsonText TimeSkipUpdates)))
  : Settled TimeSkipUpdates :=
  match response with
  | Rejected e => Rejected e
  | Resolved text =>
      match parse_or_empty text empty_updates with
      | Some updates => Resolved updates
      | None =>
          Resolved
            {| newWeight := Some (or_else (Character.weight character) (js "?"));
               newHeight := Some (or_else (Character.height character) (js "?"));
               newAge := Some (or_else (Character.age character) (js "?"));
               stats := Some (js "Sobreviveu.");
               summary := Some (js "Passaram-se " ++ duration
                                ++ js ". O personagem continuou sua existência.");
               visualEvolutionPrompt := Some (js "older, different appearance") |}
      end
  end.

(** 5. [evolveCharacterVisuals]. *)
Definition evolveCharacterVisuals (base64Image evolutionDescription : jsstring)
    (response : Settled GenerateContentResponse)
  : list console.t * Settled jsstring :=
  match response with
  | Rejected e => ([], Rejected e)
  | Resolved r =>
      match first_inline_data (first_parts r) with
      | Some d => ([], Resolved d)
      | None =>
          ([console.warn (js "Image evolution returned no image data.")],
           Resolved base64Image)
      end
  end.

(** 6. [editCharacterImage]. *)
Definition editCharacterImage (base64Image prompt : jsstring)
    (response : Settled GenerateContentResponse) : Settled jsstring :=
  match response with
  | Rejected e => Rejected e
  | Resolved r =>
      match first_inline_data (first_parts r) with
      | Some d => Resolved d
      | None => Rejected (js "Nenhuma imagem gerada.")
      end
  end.

(** 7. [generateActionScene]; [ensureApiKeySelected] never rejects. *)
Definition generateActionScene (response : Settled GenerateContentResponse)
  : Settled jsstring :=
  match response with
  | Rejected e => Rejected e
  | Resolved r =>
      match first_inline_data (first_parts r) with
      | Some d => Resolved d
      | None => Rejected (js "Falha ao gerar imagem da cena.")
      end
  end.

(** 8. [speakText]:
    [response.candidates?.[0]?.content?.parts?.[0]?.inlineData?.data || null]. *)
Definition speakText (response : Settled GenerateContentResponse)
  : Settled (option jsstring) :=
  match response with
  | Rejected e => Rejected e
  | Resolved r =>
      Resolved
        match first_parts r with
        | part :: _ =>
            match inlineData part with
            | Some blob => if truthy (data blob) then Some (data blob) else None
            | None => None
            end
        | [] => None
        end
  end.

(** 9. [transcribeAudio]: [response.text || ""]. *)
Definition transcribeAudio (response : Settled (option jsstring))
  : Settled jsstring :=
  match response with
  | Rejected e => Rejected e
  | Resolved text => Resolved (or_else text [])
  end.

(** A line feed and a double quote, as they stand in a template literal. *)
Definition lf : jsstring := [10%N].
Definition quote : jsstring := [34%N].

(** The system instruction that [chatWithCharacter] builds for the chat
    ([systemContext]), from the character and the persona. *)
Definition systemContext (character : Character)
    (userPersona : option UserPersona) : jsstring :=
  Character.systemInstruction character
  ++ match Character.powers character with
     | Some powers =>
         if truthy powers then
           lf
           ++ lf
           ++ js "[PODERES E HABILIDADES]"
           ++ lf
           ++ js "      Você possui: "
           ++ powers
           ++ js "."
           ++ lf
           ++ js "      Use esses poderes na narrativa. Se for "
           ++ quote
           ++ js "Controle Mental"
           ++ quote
           ++ js ", tente manipular. Se for "
           ++ quote
           ++ js "Super Força"
           ++ quote
           ++ js ", descreva o impacto exagerado."
         else []
     | None => []
     end
  ++ match Character.encounter character with
     | Some encounter =>
         lf
         ++ lf
         ++ js "[CENÁRIO DO ENCONTRO]"
         ++ lf
         ++ js "    Local: "
         ++ EncounterConfig.environment encounter
         ++ js "."
         ++ lf
         ++ js "    Dinâmica do Encontro: "
         ++ match EncounterConfig.whoSawFirst encounter with
            | CHARACTER =>
                js "VOCÊ viu o usuário primeiro. Você está no controle, talvez espreitando, caçando ou observando antes de se revelar."
            | USER =>
                js "O USUÁRIO te viu primeiro. Você pode ter sido pego de surpresa, estar dormindo, distraído ou encurralado."
            | BOTH =>
                js "Vocês se viram ao mesmo tempo. O encontro foi súbito e frente a frente."
            end
     | None => []
     end
  ++ lf
  ++ lf
  ++ js "[SISTEMA DE FÍSICA E COMPORTAMENTO CORPORAL]"
  ++ lf
  ++ js "  Seus atributos físicos são: Altura "
  ++ or_else (Character.height character) (js "indefinida")
  ++ js ", Peso "
  ++ or_else (Character.weight character) (js "indefinido")
  ++ js "."
  ++ lf
  ++ js "  Idade Atual: "
  ++ or_else (Character.age character) (js "Desconhecida")
  ++ js "."
  ++ lf
  ++ js "  Expectativa de Vida: "
  ++ or_else (Character.lifeExpectancy character) (js "Desconhecida")
  ++ js "."
  ++ lf
  ++ js "  "
  ++ lf
  ++ js "  REGRAS DE IMERSÃO OBRIGATÓRIAS:"
  ++ lf
  ++ js "  1. INÉRCIA E PESO: "
  ++ lf
  ++ js "     - Se você for pesado (>100kg) ou gigante: Seus movimentos são deliberados e lentos. Quando você anda, o chão deve tremer ou fazer barulho pesado. Descreva o impacto dos seus passos."
  ++ lf
  ++ js "     - Se você for leve/pequeno: Mova-se rápido, de forma errática ou furtiva."
  ++ lf
  ++ js "  "
  ++ lf
  ++ js "  2. DINÂMICA CORPORAL:"
  ++ lf
  ++ js "     - Se tiver barriga grande/gordura: Descreva como ela balança, chacoalha ou estremece quando você ri, anda ou se irrita."
  ++ lf
  ++ js "     - Se for musculoso/rígido: Descreva a tensão nos músculos, veias saltando."
  ++ lf
  ++ lf
  ++ js "  3. VOZ E FALA:"
  ++ lf
  ++ js "     - Personagens grandes/pesados tendem a falar mais devagar, com pausas para respirar."
  ++ lf
  ++ js "  "
  ++ match userPersona with
     | Some userPersona =>
         lf
         ++ lf
         ++ js "[CONTEXTO DE INTERAÇÃO FÍSICA COM USUÁRIO]"
         ++ lf
         ++ js "    Você está conversando com: "
         ++ UserPersona.name userPersona
         ++ js "."
         ++ lf
         ++ js "    Idade do usuário: "
         ++ UserPersona.age userPersona
         ++ js "."
         ++ lf
         ++ js "    Aparência do usuário: "
         ++ UserPersona.appearance userPersona
         ++ js "."
         ++ lf
         ++ js "    Física do usuário: "
         ++ UserPersona.height userPersona
         ++ js ", "
         ++ UserPersona.weight userPersona
         ++ js "."
         ++ lf
         ++ js "    "
         ++ lf
         ++ js "    IMPORTANTE: Compare constantemente seu tamanho com o do usuário."
         ++ lf
         ++ js "    "
     | None => []
     end
  ++ match Character.diet character with
     | Some diet =>
         lf
         ++ lf
         ++ js "[ALIMENTAÇÃO & DIETA]"
         ++ lf
         ++ js "    Tipo: "
         ++ (match DietConfig.type diet with
              | HERBIVORE => js "Vegano/Herbívoro"
              | CARNIVORE => js "Carnívoro"
              end)
         ++ js "."
         ++ lf
         ++ js "    Preferência Geral: "
         ++ DietConfig.details diet
         ++ js "."
         ++ lf
         ++ js "    "
         ++ (if DietConfig.eatsHumans diet then
                js "⚠️ VOCÊ COME HUMANOS. Preferências: "
                ++ interpolate (HumanPreferences.ageGroup <$> DietConfig.humanPreferences diet)
                ++ js ", "
                ++ interpolate (HumanPreferences.bodyType <$> DietConfig.humanPreferences diet)
                ++ js ", Gosto por: "
                ++ interpolate (HumanPreferences.tastePreference <$> DietConfig.humanPreferences diet)
                ++ js ". Se o usuário se encaixar nisso, demonstre fome."
              else js "Você NÃO come humanos.")
         ++ lf
         ++ js "    "
     | None => []
     end
  ++ lf
  ++ lf
  ++ js "[REGRAS DE COMBATE E MORTE]"
  ++ lf
  ++ js "  Se a conversa escalar para violência ou se sua natureza predatória exigir:"
  ++ lf
  ++ js "  1. Você PODE ferir ou MATAR o usuário."
  ++ lf
  ++ js "  2. Use seus PODERES ("
  ++ or_else (Character.powers character) (js "Força Bruta")
  ++ js ") para isso."
  ++ lf
  ++ js "  3. Se você decidir matar o usuário, DESCREVA A CENA DA MORTE DETALHADAMENTE (como ele morreu, se foi devorado, esmagado, queimado, etc)."
  ++ lf
  ++ js "  4. ***IMPORTANTE***: Se o usuário morrer, adicione a tag [GAME_OVER] no final da sua resposta.".

(** 10. [generateSceneImage]; [ensureApiKeySelected] never rejects. *)
Definition generateSceneImage (response : Settled GenerateContentResponse)
  : Settled jsstring :=
  match response with
  | Rejected e => Rejected e
  | Resolved r =>
      match first_inline_data (first_parts r) with
      | Some d => Resolved d
      | None => Rejected (js "No image generated")
      end
  end.

(** 12. [factCheck].  What it reads of the response: [response.text] and
    [response.candidates?.[0]?.groundingMetadata?.groundingChunks]. *)
Module Search.
Record Web := { uri : option jsstring }.
Record GroundingChunk := { web : option Web }.
Record Response := {
  text : option jsstring;
  groundingChunks : option (list GroundingChunk)
}.
Record Result := { answer : jsstring; links : list jsstring }.
End Search.

Definition factCheck (response : Settled Search.Response)
  : Settled Search.Result :=
  match response with
  | Rejected e => Rejected e
  | Resolved r =>
      let text := or_else (Search.text r) (js "No information found.") in
      let chunks := default [] (Search.groundingChunks r) in
      let links :=
        omap (λ chunk,
                match Search.web chunk ≫= Search.uri with
                | Some uri => if truthy uri then Some uri else None
                | None => None
                end) chunks in
      Resolved {| Search.answer := text; Search.links := links |}
  end.

End GeminiService.

(** ** Audio and data URLs ([services/audioUtils.ts]) *)

Module AudioUtils.

(** [bytes[i] = binaryString.charCodeAt(i)], stored in a [Uint8Array]. *)
Definition bytes_of (binaryString : jsstring) : list Z :=
  (λ c, Z.of_N c mod 256) <$> binaryString.

(** One element of an [Int16Array] over the buffer of the bytes: two bytes,
    in the byte order of the platform (the low byte first, as on every
    platform a browser runs on), read as a signed integer. *)
Definition int16 (lo hi : Z) : Z :=
  let u := lo + 256 * hi in
  if u <? 32768 then u else u - 65536.

(** [new Int16Array(bytes.buffer)], for an even number of bytes. *)
Fixpoint Int16Array (bytes : list Z) : list Z :=
  match bytes with
  | lo :: hi :: rest => int16 lo hi :: Int16Array rest
  | _ => []
  end.

(** An [AudioBuffer] of one channel.  A sample is a rational: the quotient
    of a 16-bit integer by 32768 is stored exactly in a [Float32Array]. *)
Record AudioBuffer := {
  sampleRate : Z;
  channelData : list Q
}.

(** [decodeAudioData(base64Data, audioContext)], with the default sample
    rate; [binaryString] is the outcome of [atob(base64Data)].  The
    constructor of [Int16Array] throws a [RangeError] on an odd number of
    bytes, and [createBuffer] a [NotSupportedError] on a length of zero. *)
Definition decodeAudioData (binaryString : Settled jsstring)
  : Settled AudioBuffer :=
  match binaryString with
  | Rejected e => Rejected e
  | Resolved binaryString =>
      let bytes := bytes_of binaryString in
      if Nat.odd (length bytes) then Rejected (js "RangeError")
      else
        let dataInt16 := Int16Array bytes in
        let frameCount := length dataInt16 in
        if (frameCount =? 0)%nat then Rejected (js "NotSupportedError")
        else
          Resolved
            {| sampleRate := 24000;
               channelData :=
                 (λ v, (inject_Z v / 32768)%Q) <$> dataInt16 |}
  end.

(** [s.split(',')]. *)
Fixpoint split (s : jsstring) : list jsstring :=
  match s with
  | [] => [[]]
  | c :: s' =>
      if bool_decide (c = 44%N) then [] :: split s'
      else match split s' with
           | field :: fields => (c :: field) :: fields
           | [] => [[c]]
           end
  end.

(** [blobToBase64]; [result] is the outcome of [reader.readAsDataURL(blob)]:
    rejected with the error event, or resolved with [reader.result], then a
    string.  The promise resolves with [undefined] when the result has no
    comma. *)
Definition blobToBase64 (result : Settled jsstring)
  : Settled (option jsstring) :=
  match result with
  | Rejected e => Rejected e
  | Resolved result => Resolved (split result !! 1%nat)
  end.

End AudioUtils.

(** ** The character form ([components/CharacterSetup.tsx]) *)

Module CharacterSetup.
Import GeminiService.

Definition QUESTIONS : list jsstring :=
  [ js "Como essa criatura/personagem surgiu? (Nascimento natural, experimento, maldição, construção...)";
    js "Qual é o seu habitat natural? O ambiente é hostil ou acolhedor?";
    js "Ela é única ou parte de uma espécie? Segue normas do grupo ou é pária?";
    js "O que ela mais deseja neste exato momento? (Comida, segurança, poder...)";
    js "Qual é o seu objetivo de longo prazo?";
    js "O que ela estaria disposta a sacrificar para conseguir o que quer?";
    js "Do que ela tem medo? (Físico ou abstrato)";
    js "Qual é a sua maior fraqueza?";
    js "O que a faria fugir de uma batalha?";
    js "Como ela reage ao desconhecido? (Curiosidade, agressividade, cautela)";
    js "Ela possui algum código moral ou de honra?";
    js "Como ela se comunica? (Linguagem, grunhidos, telepatia)";
    js "O que a faria poupar a vida de um inimigo?";
    js "Ela tem algum hábito ou 'tique' estranho?";
    js "Como ela passa o tempo quando não está caçando ou trabalhando?" ].

Inductive Tab := INFO | PERSONALITY | DIET | LOCATION.

#[global] Instance Tab_eq_dec : EqDecision Tab.
Proof. solve_decision. Defined.

Inductive Effect :=
| onComplete (character : Character)
| alert (message : jsstring)
| console_error (label : jsstring)
| console_warn (label : jsstring).

(** The state of the form: its [useState] cells and the effects so far,
    oldest first.  [name] and [description] are [undefined] after a profile
    that lacks them. *)
Record State := mkState {
  activeTab : Tab;
  image : option jsstring;
  name : option jsstring;
  description : option jsstring;
  storyTone : jsstring;
  height : jsstring;
  weight : jsstring;
  age : jsstring;
  lifeExpectancy : jsstring;
  powers : jsstring;
  environment : jsstring;
  whoSawFirst : WhoSawFirst;
  dietType : DietType;
  dietDetails : jsstring;
  eatsHumans : bool;
  humanPreferences : HumanPreferences;
  answers : gmap nat jsstring;
  isAnalyzing : bool;
  isAutoFilling : bool;
  editPrompt : jsstring;
  isEditingImg : bool;
  isCompressing : bool;
  effects : list Effect
}.

Definition Action : Type := State → State.

Definition seq (body : list Action) : Action :=
  λ s, foldl (λ s f, f s) s body.

Definition skip : Action := λ s, s.

Definition setActiveTab (v : Tab) : Action := λ s,
  let 'mkState x0 x1 x2 x3 x4 x5 x6 x7 x8 x9 x10 x11 x12 x13 x14 x15 x16 x17 x18 x19
    x20 x21 x22 := s in
  mkState v x1 x2 x3 x4 x5 x6 x7 x8 x9 x10 x11 x12 x13 x14 x15 x16 x17 x18 x19
    x20 x21 x22.
Definition setImage (v : option jsstring) : Action := λ s,
  let 'mkState x0 x1 x2 x3 x4 x5 x6 x7 x8 x9 x10 x11 x12 x13 x14 x15 x16 x17 x18 x19
    x20 x21 x22 := s in
  mkState x0 v x2 x3 x4 x5 x6 x7 x8 x9 x10 x11 x12 x13 x14 x15 x16 x17 x18 x19
    x20 x21 x22.
Definition setName (v : option jsstring) : Action := λ s,
  let 'mkState x0 x1 x2 x3 x4 x5 x6 x7 x8 x9 x10 x11 x12 x13 x14 x15 x16 x17 x18 x19
    x20 x21 x22 := s in
  mkState x0 x1 v x3 x4 x5 x6 x7 x8 x9 x10 x11 x12 x13 x14 x15 x16 x17 x18 x19
    x20 x21 x22.
Definition setDescription (f : option jsstring → option jsstring) : Action := λ s,
  let 'mkState x0 x1 x2 x3 x4 x5 x6 x7 x8 x9 x10 x11 x12 x13 x14 x15 x16 x17 x18 x19
    x20 x21 x22 := s in
  mkState x0 x1 x2 (f x3) x4 x5 x6 x7 x8 x9 x10 x11 x12 x13 x14 x15 x16 x17 x18
    x19 x20 x21 x22.
Definition setStoryTone (v : jsstring) : Action := λ s,
  let 'mkState x0 x1 x2 x3 x4 x5 x6 x7 x8 x9 x10 x11 x12 x13 x14 x15 x16 x17 x18 x19
    x20 x21 x22 := s in
  mkState x0 x1 x2 x3 v x5 x6 x7 x8 x9 x10 x11 x12 x13 x14 x15 x16 x17 x18 x19
    x20 x21 x22.
Definition setHeight (f : jsstring → jsstring) : Action := λ s,
  let 'mkState x0 x1 x2 x3 x4 x5 x6 x7 x8 x9 x10 x11 x12 x13 x14 x15 x16 x17 x18 x19
    x20 x21 x22 := s in
  mkState x0 x1 x2 x3 x4 (f x5) x6 x7 x8 x9 x10 x11 x12 x13 x14 x15 x16 x17 x18
    x19 x20 x21 x22.
Definition setWeight (f : jsstring → jsstring) : Action := λ s,
  let 'mkState x0 x1 x2 x3 x4 x5 x6 x7 x8 x9 x10 x11 x12 x13 x14 x15 x16 x17 x18 x19
    x20 x21 x22 := s in
  mkState x0 x1 x2 x3 x4 x5 (f x6) x7 x8 x9 x10 x11 x12 x13 x14 x15 x16 x17 x18
    x19 x20 x21 x22.
Definition setAge (v : jsstring) : Action := λ s,
  let 'mkState x0 x1 x2 x3 x4 x5 x6 x7 x8 x9 x10 x11 x12 x13 x14 x15 x16 x17 x18 x19
    x20 x21 x22 := s in
  mkState x0 x1 x2 x3 x4 x5 x6 v x8 x9 x10 x11 x12 x13 x14 x15 x16 x17 x18 x19
    x20 x21 x22.
Definition setLifeExpectancy (v : jsstring) : Action := λ s,
  let 'mkState x0 x1 x2 x3 x4 x5 x6 x7 x8 x9 x10 x11 x12 x13 x14 x15 x16 x17 x18 x19
    x20 x21 x22 := s in
  mkState x0 x1 x2 x3 x4 x5 x6 x7 v x9 x10 x11 x12 x13 x14 x15 x16 x17 x18 x19
    x20 x21 x22.
Definition setPowers (v : jsstring) : Action := λ s,
  let 'mkState x0 x1 x2 x3 x4 x5 x6 x7 x8 x9 x10 x11 x12 x13 x14 x15 x16 x17 x18 x19
    x20 x21 x22 := s in
  mkState x0 x1 x2 x3 x4 x5 x6 x7 x8 v x10 x11 x12 x13 x14 x15 x16 x17 x18 x19
    x20 x21 x22.
Definition setEnvironment (f : jsstring → jsstring) : Action := λ s,
  let 'mkState x0 x1 x2 x3 x4 x5 x6 x7 x8 x9 x10 x11 x12 x13 x14 x15 x16 x17 x18 x19
    x20 x21 x22 := s in
  mkState x0 x1 x2 x3 x4 x5 x6 x7 x8 x9 (f x10) x11 x12 x13 x14 x15 x16 x17 x18
    x19 x20 x21 x22.
Definition setWhoSawFirst (v : WhoSawFirst) : Action := λ s,
  let 'mkState x0 x1 x2 x3 x4 x5 x6 x7 x8 x9 x10 x11 x12 x13 x14 x15 x16 x17 x18 x19
    x20 x21 x22 := s in
  mkState x0 x1 x2 x3 x4 x5 x6 x7 x8 x9 x10 v x12 x13 x14 x15 x16 x17 x18 x19
    x20 x21 x22.
Definition setDietType (v : DietType) : Action := λ s,
  let 'mkState x0 x1 x2 x3 x4 x5 x6 x7 x8 x9 x10 x11 x12 x13 x14 x15 x16 x17 x18 x19
    x20 x21 x22 := s in
  mkState x0 x1 x2 x3 x4 x5 x6 x7 x8 x9 x10 x11 v x13 x14 x15 x16 x17 x18 x19
    x20 x21 x22.
Definition setDietDetails (v : jsstring) : Action := λ s,
  let 'mkState x0 x1 x2 x3 x4 x5 x6 x7 x8 x9 x10 x11 x12 x13 x14 x15 x16 x17 x18 x19
    x20 x21 x22 := s in
  mkState x0 x1 x2 x3 x4 x5 x6 x7 x8 x9 x10 x11 x12 v x14 x15 x16 x17 x18 x19
    x20 x21 x22.
Definition setEatsHumans (v : bool) : Action := λ s,
  let 'mkState x0 x1 x2 x3 x4 x5 x6 x7 x8 x9 x10 x11 x12 x13 x14 x15 x16 x17 x18 x19
    x20 x21 x22 := s in
  mkState x0 x1 x2 x3 x4 x5 x6 x7 x8 x9 x10 x11 x12 x13 v x15 x16 x17 x18 x19
    x20 x21 x22.
Definition setHumanPreferences (v : HumanPreferences) : Action := λ s,
  let 'mkState x0 x1 x2 x3 x4 x5 x6 x7 x8 x9 x10 x11 x12 x13 x14 x15 x16 x17 x18 x19
    x20 x21 x22 := s in
  mkState x0 x1 x2 x3 x4 x5 x6 x7 x8 x9 x10 x11 x12 x13 x14 v x16 x17 x18 x19
    x20 x21 x22.
Definition setAnswers (v : gmap nat jsstring) : Action := λ s,
  let 'mkState x0 x1 x2 x3 x4 x5 x6 x7 x8 x9 x10 x11 x12 x13 x14 x15 x16 x17 x18 x19
    x20 x21 x22 := s in
  mkState x0 x1 x2 x3 x4 x5 x6 x7 x8 x9 x10 x11 x12 x13 x14 x15 v x17 x18 x19
    x20 x21 x22.
Definition setIsAnalyzing (v : bool) : Action := λ s,
  let 'mkState x0 x1 x2 x3 x4 x5 x6 x7 x8 x9 x10 x11 x12 x13 x14 x15 x16 x17 x18 x19
    x20 x21 x22 := s in
  mkState x0 x1 x2 x3 x4 x5 x6 x7 x8 x9 x10 x11 x12 x13 x14 x15 x16 v x18 x19
    x20 x21 x22.
Definition setIsAutoFilling (v : bool) : Action := λ s,
  let 'mkState x0 x1 x2 x3 x4 x5 x6 x7 x8 x9 x10 x11 x12 x13 x14 x15 x16 x17 x18 x19
    x20 x21 x22 := s in
  mkState x0 x1 x2 x3 x4 x5 x6 x7 x8 x9 x10 x11 x12 x13 x14 x15 x16 x17 v x19
    x20 x21 x22.
Definition setEditPrompt (v : jsstring) : Action := λ s,
  let 'mkState x0 x1 x2 x3 x4 x5 x6 x7 x8 x9 x10 x11 x12 x13 x14 x15 x16 x17 x18 x19
    x20 x21 x22 := s in
  mkState x0 x1 x2 x3 x4 x5 x6 x7 x8 x9 x10 x11 x12 x13 x14 x15 x16 x17 x18 v
    x20 x21 x22.
Definition setIsEditingImg (v : bool) : Action := λ s,
  let 'mkState x0 x1 x2 x3 x4 x5 x6 x7 x8 x9 x10 x11 x12 x13 x14 x15 x16 x17 x18 x19
    x20 x21 x22 := s in
  mkState x0 x1 x2 x3 x4 x5 x6 x7 x8 x9 x10 x11 x12 x13 x14 x15 x16 x17 x18 x19
    v x21 x22.
Definition setIsCompressing (v : bool) : Action := λ s,
  let 'mkState x0 x1 x2 x3 x4 x5 x6 x7 x8 x9 x10 x11 x12 x13 x14 x15 x16 x17 x18 x19
    x20 x21 x22 := s in
  mkState x0 x1 x2 x3 x4 x5 x6 x7 x8 x9 x10 x11 x12 x13 x14 x15 x16 x17 x18 x19
    x20 v x22.
Definition updEffects (f : list Effect → list Effect) : Action := λ s,
  let 'mkState x0 x1 x2 x3 x4 x5 x6 x7 x8 x9 x10 x11 x12 x13 x14 x15 x16 x17 x18 x19
    x20 x21 x22 := s in
  mkState x0 x1 x2 x3 x4 x5 x6 x7 x8 x9 x10 x11 x12 x13 x14 x15 x16 x17 x18 x19
    x20 x21 (f x22).

Definition emit (e : Effect) : Action := updEffects (λ es, es ++ [e]).

(** What a call to the service has written to the console. *)
Definition logged (c : console.t) : Effect :=
  match c with
  | console.warn label => console_warn label
  | console.error label => console_error label
  end.

Definition emit_console (log : list console.t) : Action :=
  updEffects (λ es, es ++ (logged <$> log)).

(** The form as it opens over [existingCharacter]. *)
Definition initial (existingCharacter : option Character) : State :=
  let c := existingCharacter in
  {| activeTab := INFO;
     image := (c ≫= λ c, if truthy (Character.baseImage c)
                          then Some (Character.baseImage c) else None);
     name := Some (or_else (Character.name <$> c) []);
     description := Some (or_else (Character.description <$> c) []);
     storyTone := js "Sombrio e Realista";
     height := or_else (c ≫= Character.height) [];
     weight := or_else (c ≫= Character.weight) [];
     age := or_else (c ≫= Character.age) [];
     lifeExpectancy := or_else (c ≫= Character.lifeExpectancy) [];
     powers := or_else (c ≫= Character.powers) [];
     environment :=
       or_else (EncounterConfig.environment <$> (c ≫= Character.encounter)) [];
     whoSawFirst :=
       default BOTH
         (EncounterConfig.whoSawFirst <$> (c ≫= Character.encounter));
     dietType := HERBIVORE;
     dietDetails := [];
     eatsHumans := false;
     humanPreferences :=
       {| HumanPreferences.ageGroup := js "Qualquer um";
          HumanPreferences.bodyType := js "Qualquer um";
          HumanPreferences.tastePreference := js "Qualquer um" |};
     answers := ∅;
     isAnalyzing := false; isAutoFilling := false; editPrompt := [];
     isEditingImg := false; isCompressing := false;
     effects := [] |}.

(** [handleAutoFill], up to [await autoFillCharacterProfile(...)]. *)
Definition handleAutoFill : Action := λ s,
  if negb (truthy (storyTone s))
  then emit (alert (js "Defina um Tom para a história (ex: Gore, Terror, Aventura).")) s
  else setIsAutoFilling true s.

(** [x || d] on a string. *)
Definition or_default (x d : jsstring) : jsstring :=
  if truthy x then x else d.

(** [handleAutoFill], from the settled [autoFillCharacterProfile]. *)
Definition handleAutoFill_settled
    (response : Settled (option (JsonText Profile))) : Action :=
  seq [ emit_console (autoFillCharacterProfile response).1;
        match (autoFillCharacterProfile response).2 with
        | Resolved result =>
            let when (x : option jsstring) (set : jsstring → Action) : Action :=
              match x with
              | Some v => if truthy v then set v else skip
              | None => skip
              end in
            seq [ setName (GeminiService.name result);
                  setDescription (λ _, backstory result);
                  when (GeminiService.height result) (λ v, setHeight (λ _, v));
                  when (GeminiService.weight result) (λ v, setWeight (λ _, v));
                  when (GeminiService.age result) setAge;
                  when (GeminiService.lifeExpectancy result) setLifeExpectancy;
                  when (GeminiService.powers result) setPowers;
                  when (GeminiService.environment result)
                    (λ v, setEnvironment (λ _, v));
                  match diet result with
                  | Some d =>
                      seq [ setDietType (DietConfig.type d);
                            setDietDetails (DietConfig.details d);
                            setEatsHumans (DietConfig.eatsHumans d);
                            match DietConfig.humanPreferences d with
                            | Some hp =>
                                setHumanPreferences
                                  {| HumanPreferences.ageGroup :=
                                       or_default (HumanPreferences.ageGroup hp)
                                         (js "Qualquer um");
                                     HumanPreferences.bodyType :=
                                       or_default (HumanPreferences.bodyType hp)
                                         (js "Qualquer um");
                                     HumanPreferences.tastePreference :=
                                       or_default
                                         (HumanPreferences.tastePreference hp)
                                         (js "Qualquer um") |}
                            | None => skip
                            end ]
                  | None => skip
                  end;
                  match GeminiService.answers result with
                  | Some newAnswers => setAnswers newAnswers
                  | None => skip
                  end ]
        | Rejected _ =>
            seq [ emit (console_error []);
                  emit (alert (js "Falha ao gerar perfil automático. Verifique sua cota da API ou tente novamente.")) ]
        end;
        setIsAutoFilling false ].

(** [handleImageEdit], up to [await editCharacterImage(...)]. *)
Definition handleImageEdit : Action := λ s,
  if negb (truthy_opt (image s)) || negb (truthy (editPrompt s)) then s
  else setIsEditingImg true s.

(** [handleImageEdit], from the settled [editCharacterImage]. *)
Definition handleImageEdit_settled
    (response : Settled GenerateContentResponse) : Action := λ s,
  seq [ match editCharacterImage (default [] (image s)) (editPrompt s)
                response with
        | Resolved newImage => seq [ setImage (Some newImage); setEditPrompt [] ]
        | Rejected _ =>
            emit (alert (js "Falha ao editar imagem. Verifique cota da API."))
        end;
        setIsEditingImg false ] s.

(** The entries of [answers] in the order of [Object.keys]: by ascending
    question number. *)
Definition entries (answers : gmap nat jsstring) : list (nat * jsstring) :=
  let bound := map_fold (λ k _ m, Nat.max (S k) m) 0%nat answers in
  omap (λ k, (λ v, (k, v)) <$> answers !! k) (List.seq 0%nat bound).

(** [handleComplete]; [now] is the reading of [Date.now()]. *)
Definition handleComplete (now : Z) : Action := λ s,
  match name s, description s with
  | Some name, Some description =>
      if negb (truthy name) || negb (truthy description)
      then emit (alert (js "Preencha pelo menos Nome e Descrição.")) s
      else
        let finalImage :=
          or_else (image s)
            (js "iVBORw0KGgoAAAANSUhEUgAAAAEAAAABCAQAAAC1HAwCAAAAC0lEQVR42mNk+A8AAQUBAScY42YAAAAASUVORK5CYII=") in
        let character :=
          {| Character.id := toString now;
             Character.name := name;
             Character.description := description;
             Character.baseImage := finalImage;
             Character.systemInstruction :=
               js "Você é " ++ name ++ js ". " ++ description
               ++ js ". Tom da história: " ++ storyTone s ++ js ".";
             Character.height := Some (height s);
             Character.weight := Some (weight s);
             Character.age := Some (age s);
             Character.lifeExpectancy := Some (lifeExpectancy s);
             Character.powers := Some (powers s);
             Character.encounter :=
               Some {| EncounterConfig.environment := environment s;
                       EncounterConfig.whoSawFirst := whoSawFirst s |};
             Character.diet :=
               Some {| DietConfig.type := dietType s;
                       DietConfig.details := dietDetails s;
                       DietConfig.eatsHumans := eatsHumans s;
                       DietConfig.humanPreferences :=
                         if eatsHumans s then Some (humanPreferences s)
                         else None |};
             Character.questionAnswers :=
               Some (foldl (λ acc '(key, answer),
                             <[interpolate (QUESTIONS !! key) := answer]> acc)
                       ∅ (entries (answers s))) |} in
        emit (onComplete character) s
  | _, _ => emit (alert (js "Preencha pelo menos Nome e Descrição.")) s
  end.

(** What the user does to the controls of the tab that [render] shows, and
    the settling of the two requests.  Uploading a file, which also has the
    image analysed, is left out. *)
Inductive Event :=
| SelectTab (tab : Tab)
| ChangeStoryTone (value : jsstring)
| ClickAutoFill
| AutoFillSettled (response : Settled (option (JsonText Profile)))
| ChangeEditPrompt (value : jsstring)
| ClickEdit
| EditSettled (response : Settled GenerateContentResponse)
| ChangeName (value : jsstring)
| ChangeHeight (value : jsstring)
| ChangeWeight (value : jsstring)
| ChangeAge (value : jsstring)
| ChangeLifeExpectancy (value : jsstring)
| ChangePowers (value : jsstring)
| ChangeDescription (value : jsstring)
| ChangeAnswer (i : nat) (value : jsstring)
| SelectDietType (type : DietType)
| ChangeDietDetails (value : jsstring)
| CheckEatsHumans (checked : bool)
| ChangeHumanPreferences (value : HumanPreferences)
| ChangeEnvironment (value : jsstring)
| SelectWhoSawFirst (who : WhoSawFirst)
| ClickConfirm (now : Z).

Definition on_tab (tab : Tab) (f : Action) : Action := λ s,
  if bool_decide (activeTab s = tab) then f s else s.

Definition step (e : Event) : Action := λ s,
  match e with
  | SelectTab tab => setActiveTab tab s
  | ChangeStoryTone value => on_tab INFO (setStoryTone value) s
  | ClickAutoFill =>
      if isAutoFilling s || negb (truthy (storyTone s)) then s
      else on_tab INFO handleAutoFill s
  | AutoFillSettled response =>
      if isAutoFilling s then handleAutoFill_settled response s else s
  | ChangeEditPrompt value =>
      if truthy_opt (image s) then on_tab INFO (setEditPrompt value) s else s
  | ClickEdit =>
      if truthy_opt (image s)
         && negb (isEditingImg s || negb (truthy (editPrompt s)))
      then on_tab INFO handleImageEdit s else s
  | EditSettled response =>
      if isEditingImg s then handleImageEdit_settled response s else s
  | ChangeName value => on_tab INFO (setName (Some value)) s
  | ChangeHeight value => on_tab INFO (setHeight (λ _, value)) s
  | ChangeWeight value => on_tab INFO (setWeight (λ _, value)) s
  | ChangeAge value => on_tab INFO (setAge value) s
  | ChangeLifeExpectancy value => on_tab INFO (setLifeExpectancy value) s
  | ChangePowers value => on_tab INFO (setPowers value) s
  | ChangeDescription value =>
      on_tab INFO (setDescription (λ _, Some value)) s
  | ChangeAnswer i value =>
      if bool_decide (i < length QUESTIONS)%nat
      then on_tab PERSONALITY (setAnswers (<[i := value]> (answers s))) s
      else s
  | SelectDietType type => on_tab DIET (setDietType type) s
  | ChangeDietDetails value => on_tab DIET (setDietDetails value) s
  | CheckEatsHumans checked =>
      if bool_decide (dietType s = CARNIVORE)
      then on_tab DIET (setEatsHumans checked) s else s
  | ChangeHumanPreferences value =>
      if bool_decide (dietType s = CARNIVORE) && eatsHumans s
      then on_tab DIET (setHumanPreferences value) s else s
  | ChangeEnvironment value => on_tab LOCATION (setEnvironment (λ _, value)) s
  | SelectWhoSawFirst who => on_tab LOCATION (setWhoSawFirst who) s
  | ClickConfirm now => handleComplete now s
  end.

Definition run (events : list Event) : Action :=
  λ s, foldl (λ s e, step e s) s events.

(** What the user has entered in the form. *)
Definition fields (s : State) :=
  (image s, name s, description s, storyTone s, height s, weight s, age s,
   lifeExpectancy s, powers s, environment s, whoSawFirst s, dietType s,
   dietDetails s, eatsHumans s, humanPreferences s, answers s).

(** The alerts the form has shown. *)
Definition alerts (s : State) : list jsstring :=
  omap (λ e, match e with alert message => Some message | _ => None end)
    (effects s).

(** The characters the form has handed to [onComplete]. *)
Definition completed (s : State) : list Character :=
  omap (λ e, match e with onComplete c => Some c | _ => None end) (effects s).

End CharacterSetup.

(** ** The persona form ([components/UserSetup.tsx]) *)

Module UserSetup.

Record State := {
  name : jsstring;
  appearance : jsstring;
  height : jsstring;
  weight : jsstring;
  age : jsstring;
  image : option jsstring
}.

(** The form as it opens over [existingUser]. *)
Definition initial (existingUser : option UserPersona) : State :=
  match existingUser with
  | Some u =>
      {| name := UserPersona.name u; appearance := UserPersona.appearance u;
         height := UserPersona.height u; weight := UserPersona.weight u;
         age := UserPersona.age u;
         image := if truthy_opt (UserPersona.baseImage u)
                  then UserPersona.baseImage u else None |}
  | None =>
      {| name := []; appearance := []; height := []; weight := []; age := [];
         image := None |}
  end.

(** [handleSubmit]: the persona passed to [onComplete], if any. *)
Definition handleSubmit (s : State) : option UserPersona :=
  if negb (truthy (name s)) || negb (truthy (height s))
     || negb (truthy (weight s)) || negb (truthy (age s))
  then None
  else Some
    {| UserPersona.name := name s;
       UserPersona.appearance :=
         if truthy (appearance s) then appearance s
         else js "Aparência padrão.";
       UserPersona.height := height s;
       UserPersona.weight := weight s;
       UserPersona.age := age s;
       UserPersona.baseImage :=
         if truthy_opt (image s) then image s else None |}.

(** [disabled] of the button ``Salvar Perfil'', which calls
    [handleSubmit]. *)
Definition submit_disabled (s : State) : bool :=
  negb (truthy (name s)) || negb (truthy (age s)).

End UserSetup.

(** ** The chat component ([components/ChatArea.tsx]) *)

Module ChatArea.
Import GeminiService.

Definition nl : jsstring := [10%N].

(** A request in flight, with the variables its continuation captured. *)
Inductive Job :=
| AwaitChat (autoPlayTTS : bool)
| AwaitSpeech
| AwaitTimeSkip (activeCharacter : Character) (timeSkipDuration : jsstring)
| AwaitScene (actionPrompt : jsstring)
| AwaitTranscript.

(** What the component does to the outside: calls to its parent, to the
    browser and to the service. *)
Inductive Effect :=
| onSessionUpdate (messages : list Message) (character : Character)
    (user : option UserPersona)
| alert (message : jsstring)
| console_error (label : jsstring)
| console_warn (label : jsstring)
| call_chatWithCharacter (history : list (Role * jsstring))
    (message : jsstring) (character : Character) (user : option UserPersona)
| call_speakText (text : jsstring)
| call_processTimeSkip (character : Character) (duration : jsstring)
| call_evolveCharacterVisuals (base64Image evolutionDescription : jsstring)
| call_generateActionScene (character : Character)
    (user : option UserPersona) (actionDescription : jsstring)
| call_transcribeAudio
| playAudioBuffer (audio : jsstring).

(** The state of the component: its [useState] cells, the requests in
    flight and the effects so far, oldest first. *)
Record Component := mkComponent {
  activeCharacter : Character;
  activeUserPersona : option UserPersona;
  messages : list Message;
  inputText : jsstring;
  isProcessing : bool;
  isRecording : bool;
  autoPlayTTS : bool;
  isDead : bool;
  showTimeSkipInput : bool;
  timeSkipDuration : jsstring;
  isSkippingTime : bool;
  showNewUserForm : bool;
  showActionInput : bool;
  actionPrompt : jsstring;
  isGeneratingScene : bool;
  inflight : list Job;
  effects : list Effect
}.

Definition Action : Type := Component → Component.

(** A block of statements. *)
Definition seq (body : list Action) : Action :=
  λ w, foldl (λ w a, a w) w body.

Definition skip : Action := λ w, w.

Definition setActiveCharacter (v : Character) : Action := λ w,
  let 'mkComponent x0 x1 x2 x3 x4 x5 x6 x7 x8 x9 x10 x11 x12 x13 x14 x15 x16 := w in
  mkComponent v x1 x2 x3 x4 x5 x6 x7 x8 x9 x10 x11 x12 x13 x14 x15 x16.
Definition setActiveUserPersona (v : option UserPersona) : Action := λ w,
  let 'mkComponent x0 x1 x2 x3 x4 x5 x6 x7 x8 x9 x10 x11 x12 x13 x14 x15 x16 := w in
  mkComponent x0 v x2 x3 x4 x5 x6 x7 x8 x9 x10 x11 x12 x13 x14 x15 x16.
Definition setMessages (f : list Message → list Message) : Action := λ w,
  let 'mkComponent x0 x1 x2 x3 x4 x5 x6 x7 x8 x9 x10 x11 x12 x13 x14 x15 x16 := w in
  mkComponent x0 x1 (f x2) x3 x4 x5 x6 x7 x8 x9 x10 x11 x12 x13 x14 x15 x16.
Definition setInputText (v : jsstring) : Action := λ w,
  let 'mkComponent x0 x1 x2 x3 x4 x5 x6 x7 x8 x9 x10 x11 x12 x13 x14 x15 x16 := w in
  mkComponent x0 x1 x2 v x4 x5 x6 x7 x8 x9 x10 x11 x12 x13 x14 x15 x16.
Definition setIsProcessing (v : bool) : Action := λ w,
  let 'mkComponent x0 x1 x2 x3 x4 x5 x6 x7 x8 x9 x10 x11 x12 x13 x14 x15 x16 := w in
  mkComponent x0 x1 x2 x3 v x5 x6 x7 x8 x9 x10 x11 x12 x13 x14 x15 x16.
Definition setIsRecording (v : bool) : Action := λ w,
  let 'mkComponent x0 x1 x2 x3 x4 x5 x6 x7 x8 x9 x10 x11 x12 x13 x14 x15 x16 := w in
  mkComponent x0 x1 x2 x3 x4 v x6 x7 x8 x9 x10 x11 x12 x13 x14 x15 x16.
Definition setAutoPlayTTS (v : bool) : Action := λ w,
  let 'mkComponent x0 x1 x2 x3 x4 x5 x6 x7 x8 x9 x10 x11 x12 x13 x14 x15 x16 := w in
  mkComponent x0 x1 x2 x3 x4 x5 v x7 x8 x9 x10 x11 x12 x13 x14 x15 x16.
Definition setIsDead (v : bool) : Action := λ w,
  let 'mkComponent x0 x1 x2 x3 x4 x5 x6 x7 x8 x9 x10 x11 x12 x13 x14 x15 x16 := w in
  mkComponent x0 x1 x2 x3 x4 x5 x6 v x8 x9 x10 x11 x12 x13 x14 x15 x16.
Definition setShowTimeSkipInput (v : bool) : Action := λ w,
  let 'mkComponent x0 x1 x2 x3 x4 x5 x6 x7 x8 x9 x10 x11 x12 x13 x14 x15 x16 := w in
  mkComponent x0 x1 x2 x3 x4 x5 x6 x7 v x9 x10 x11 x12 x13 x14 x15 x16.
Definition setTimeSkipDuration (v : jsstring) : Action := λ w,
  let 'mkComponent x0 x1 x2 x3 x4 x5 x6 x7 x8 x9 x10 x11 x12 x13 x14 x15 x16 := w in
  mkComponent x0 x1 x2 x3 x4 x5 x6 x7 x8 v x10 x11 x12 x13 x14 x15 x16.
Definition setIsSkippingTime (v : bool) : Action := λ w,
  let 'mkComponent x0 x1 x2 x3 x4 x5 x6 x7 x8 x9 x10 x11 x12 x13 x14 x15 x16 := w in
  mkComponent x0 x1 x2 x3 x4 x5 x6 x7 x8 x9 v x11 x12 x13 x14 x15 x16.
Definition setShowNewUserForm (v : bool) : Action := λ w,
  let 'mkComponent x0 x1 x2 x3 x4 x5 x6 x7 x8 x9 x10 x11 x12 x13 x14 x15 x16 := w in
  mkComponent x0 x1 x2 x3 x4 x5 x6 x7 x8 x9 x10 v x12 x13 x14 x15 x16.
Definition setShowActionInput (v : bool) : Action := λ w,
  let 'mkComponent x0 x1 x2 x3 x4 x5 x6 x7 x8 x9 x10 x11 x12 x13 x14 x15 x16 := w in
  mkComponent x0 x1 x2 x3 x4 x5 x6 x7 x8 x9 x10 x11 v x13 x14 x15 x16.
Definition setActionPrompt (v : jsstring) : Action := λ w,
  let 'mkComponent x0 x1 x2 x3 x4 x5 x6 x7 x8 x9 x10 x11 x12 x13 x14 x15 x16 := w in
  mkComponent x0 x1 x2 x3 x4 x5 x6 x7 x8 x9 x10 x11 x12 v x14 x15 x16.
Definition setIsGeneratingScene (v : bool) : Action := λ w,
  let 'mkComponent x0 x1 x2 x3 x4 x5 x6 x7 x8 x9 x10 x11 x12 x13 x14 x15 x16 := w in
  mkComponent x0 x1 x2 x3 x4 x5 x6 x7 x8 x9 x10 x11 x12 x13 v x15 x16.
Definition updJobs (f : list Job → list Job) : Action := λ w,
  let 'mkComponent x0 x1 x2 x3 x4 x5 x6 x7 x8 x9 x10 x11 x12 x13 x14 x15 x16 := w in
  mkComponent x0 x1 x2 x3 x4 x5 x6 x7 x8 x9 x10 x11 x12 x13 x14 (f x15) x16.
Definition updEffects (f : list Effect → list Effect) : Action := λ w,
  let 'mkComponent x0 x1 x2 x3 x4 x5 x6 x7 x8 x9 x10 x11 x12 x13 x14 x15 x16 := w in
  mkComponent x0 x1 x2 x3 x4 x5 x6 x7 x8 x9 x10 x11 x12 x13 x14 x15 (f x16).

Definition emit (e : Effect) : Action := updEffects (λ es, es ++ [e]).

(** What a call to the service has written to the console. *)
Definition logged (c : console.t) : Effect :=
  match c with
  | console.warn label => console_warn label
  | console.error label => console_error label
  end.

Definition emit_console (log : list console.t) : Action :=
  updEffects (λ es, es ++ (logged <$> log)).

Definition await (j : Job) : Action := updJobs (λ js, js ++ [j]).
Definition settle (k : nat) : Action := updJobs (delete k).

Definition last_died (ms : list Message) : bool :=
  match last ms with Some m => Message.died m | None => false end.

(** The effect on [messages, activeCharacter, activeUserPersona]; it runs
    after the render that follows a handler which set one of the three. *)
Definition sessionEffect : Action := λ w,
  seq [ emit (onSessionUpdate (messages w) (activeCharacter w)
                (activeUserPersona w));
        if last_died (messages w) then setIsDead true else skip ] w.

Record Props := {
  sessionId : jsstring;
  initialCharacter : Character;
  initialUserPersona : option UserPersona;
  initialMessages : list Message
}.

Definition mount (p : Props) : Component :=
  sessionEffect
    {| activeCharacter := initialCharacter p;
       activeUserPersona := initialUserPersona p;
       messages := initialMessages p;
       inputText := []; isProcessing := false; isRecording := false;
       autoPlayTTS := true;
       isDead := false; showTimeSkipInput := false; timeSkipDuration := [];
       isSkippingTime := false; showNewUserForm := false;
       showActionInput := false; actionPrompt := [];
       isGeneratingScene := false;
       inflight := []; effects := [] |}.

Definition deathTag : jsstring := js "[GAME_OVER]".

(** The entry of the history sent to the service for one message. *)
Definition in_history (m : Message) : bool :=
  bool_decide (Message.id m ≠ js "init")
  && negb (truthy_opt (Message.generatedImage m))
  && negb (Message.died m).

(** [handleSendMessage], up to [await chatWithCharacter(...)]. *)
Definition handleSendMessage (now_id now_ts : Z) : Action := λ w,
  if negb (truthy (trim (inputText w))) then w else
  let userMsg :=
    {| Message.id := toString now_id; Message.role := Role.user;
       Message.text := inputText w; Message.timestamp := now_ts;
       Message.isDeath := None; Message.generatedImage := None |} in
  let history :=
    (λ m, (Message.role m, Message.text m)) <$> filter in_history (messages w) in
  seq [ setMessages (λ prev, prev ++ [userMsg]);
        setInputText [];
        setIsProcessing true;
        emit (call_chatWithCharacter history (Message.text userMsg)
                (activeCharacter w) (activeUserPersona w));
        await (AwaitChat (autoPlayTTS w));
        sessionEffect ] w.

(** [handleSendMessage], from the settled [chatWithCharacter] to the next
    [await] or to the end.  [audioContextRef.current] is the context that
    the effect of the first render created. *)
Definition handleSendMessage_settled (autoPlayTTS : bool)
    (response : Settled (option jsstring)) (now_id now_ts : Z) : Action :=
  match chatWithCharacter response with
  | Resolved responseText =>
      let died := includes responseText deathTag in
      let cleanText := trim (replace responseText deathTag []) in
      let botMsg :=
        {| Message.id := toString (now_id + 1); Message.role := Role.model;
           Message.text := cleanText; Message.timestamp := now_ts;
           Message.isDeath := Some died; Message.generatedImage := None |} in
      seq [ setMessages (λ prev, prev ++ [botMsg]);
            if died then seq [ setIsDead true; setIsProcessing false ]
            else if autoPlayTTS
                 then seq [ emit (call_speakText cleanText); await AwaitSpeech ]
                 else setIsProcessing false;
            sessionEffect ]
  | Rejected _ =>
      seq [ emit (console_error []);
            setMessages (λ prev, prev ++
              [ {| Message.id := js "err"; Message.role := Role.model;
                   Message.text := js "(Conex√£o interrompida...)";
                   Message.timestamp := now_ts;
                   Message.isDeath := None;
                   Message.generatedImage := None |} ]);
            setIsProcessing false;
            sessionEffect ]
  end.

(** [handleSendMessage], from the settled [speakText] to the end;
    [decoded] tells whether [decodeAudioData] succeeded. *)
Definition handleSendMessage_spoken
    (response : Settled GenerateContentResponse) (decoded : bool) : Action :=
  seq [ match speakText response with
        | Resolved (Some audioBase64) =>
            if decoded then emit (playAudioBuffer audioBase64)
            else emit (console_error (js "TTS Error"))
        | Resolved None => skip
        | Rejected _ => emit (console_error (js "TTS Error"))
        end;
        setIsProcessing false ].

(** [handleTimeSkip], up to [await processTimeSkip(...)]. *)
Definition handleTimeSkip (now_ts : Z) : Action := λ w,
  if negb (truthy (timeSkipDuration w)) then w else
  seq [ setIsSkippingTime true;
        setMessages (λ prev, prev ++
          [ {| Message.id := js "skip_calc"; Message.role := Role.model;
               Message.text :=
                 js "‚è≥ O tempo est√° passando... Calculando consequ√™ncias do per√≠odo...";
               Message.timestamp := now_ts;
               Message.isDeath := None; Message.generatedImage := None |} ]);
        emit (call_processTimeSkip (activeCharacter w) (timeSkipDuration w));
        await (AwaitTimeSkip (activeCharacter w) (timeSkipDuration w));
        sessionEffect ] w.

(** [handleTimeSkip], from the settled [processTimeSkip] to the end;
    [image] is the settled request of [evolveCharacterVisuals], awaited only
    when the updates carry a visual evolution prompt. *)

(** The settled [evolveCharacterVisuals], if it is called. *)
Definition evolution (activeCharacter : Character) (updates : TimeSkipUpdates)
    (image : Settled GenerateContentResponse)
  : option (list console.t * Settled jsstring) :=
  if truthy_opt (visualEvolutionPrompt updates)
  then Some (evolveCharacterVisuals (Character.baseImage activeCharacter)
               (default [] (visualEvolutionPrompt updates)) image)
  else None.

Definition newImage (activeCharacter : Character) (updates : TimeSkipUpdates)
    (image : Settled GenerateContentResponse) : jsstring :=
  match evolution activeCharacter updates image with
  | Some (_, Resolved img) => img
  | _ => Character.baseImage activeCharacter
  end.

Definition newCharacter (activeCharacter : Character)
    (updates : TimeSkipUpdates) (image : Settled GenerateContentResponse)
  : Character :=
  {| Character.id := Character.id activeCharacter;
     Character.name := Character.name activeCharacter;
     Character.description := Character.description activeCharacter;
     Character.baseImage := newImage activeCharacter updates image;
     Character.systemInstruction := Character.systemInstruction activeCharacter;
     Character.height := newHeight updates;
     Character.weight := newWeight updates;
     Character.powers := Character.powers activeCharacter;
     Character.age := newAge updates;
     Character.lifeExpectancy := Character.lifeExpectancy activeCharacter;
     Character.diet := Character.diet activeCharacter;
     Character.encounter := Character.encounter activeCharacter;
     Character.questionAnswers := Character.questionAnswers activeCharacter |}.

Definition skipMsg (timeSkipDuration : jsstring) (updates : TimeSkipUpdates)
    (now_id now_ts : Z) : Message :=
  {| Message.id := toString now_id; Message.role := Role.model;
     Message.text :=
       js "‚è∞ SALTO NO TEMPO CONCLU√çDO: " ++ timeSkipDuration
       ++ js "." ++ nl ++ nl
       ++ js "üìú DI√ÅRIO DE ATIVIDADES:" ++ nl
       ++ interpolate (summary updates) ++ nl ++ nl
       ++ js "üìä Estat√≠sticas:" ++ nl
       ++ interpolate (stats updates) ++ nl ++ nl
       ++ js "Status Atual: Peso " ++ interpolate (newWeight updates)
       ++ js " | Altura " ++ interpolate (newHeight updates)
       ++ js " | Idade " ++ interpolate (newAge updates);
     Message.timestamp := now_ts;
     Message.isDeath := None; Message.generatedImage := None |}.

Definition handleTimeSkip_settled
    (activeCharacter : Character) (timeSkipDuration : jsstring)
    (response : Settled (option (JsonText TimeSkipUpdates)))
    (image : Settled GenerateContentResponse) (now_id now_ts : Z) : Action :=
  seq [ match processTimeSkip activeCharacter timeSkipDuration response with
        | Resolved updates =>
            seq [ match evolution activeCharacter updates image with
                  | Some (log, r) =>
                      seq [ emit (call_evolveCharacterVisuals
                                    (Character.baseImage activeCharacter)
                                    (default [] (visualEvolutionPrompt updates)));
                            emit_console log;
                            match r with
                            | Rejected _ =>
                                emit (console_warn (js "Visual evolution failed"))
                            | Resolved _ => skip
                            end ]
                  | None => skip
                  end;
                  setActiveCharacter
                    (newCharacter activeCharacter updates image);
                  setMessages (λ prev,
                    filter (λ m, Message.id m ≠ js "skip_calc") prev
                    ++ [skipMsg timeSkipDuration updates now_id now_ts]);
                  setShowTimeSkipInput false;
                  setShowNewUserForm true ]
        | Rejected _ =>
            seq [ emit (alert (js "Erro ao processar salto no tempo."));
                  setMessages (λ prev,
                    filter (λ m, Message.id m ≠ js "skip_calc") prev) ]
        end;
        setIsSkippingTime false;
        sessionEffect ].

(** [handleNewUserCreated]. *)
Definition handleNewUserCreated (newUser : UserPersona) (now_id now_ts : Z)
  : Action :=
  let entranceMsg :=
    {| Message.id := toString now_id; Message.role := Role.user;
       Message.text :=
         js "*Um novo aventureiro se aproxima...*" ++ nl
         ++ js "Nome: " ++ UserPersona.name newUser ++ nl
         ++ js "Idade: " ++ UserPersona.age newUser ++ nl
         ++ js "Descri√ß√£o: " ++ UserPersona.appearance newUser;
       Message.timestamp := now_ts;
       Message.isDeath := None; Message.generatedImage := None |} in
  seq [ setActiveUserPersona (Some newUser);
        setMessages (λ prev, prev ++ [entranceMsg]);
        setShowNewUserForm false;
        setIsDead false;
        setIsSkippingTime false;
        setTimeSkipDuration [];
        sessionEffect ].

(** [handleGenerateAction], up to [await generateActionScene(...)]. *)
Definition handleGenerateAction (now_id now_ts : Z) : Action := λ w,
  if negb (truthy (trim (actionPrompt w))) then w else
  let userActionMsg :=
    {| Message.id := toString now_id; Message.role := Role.user;
       Message.text := js "(A√ß√£o) " ++ actionPrompt w;
       Message.timestamp := now_ts;
       Message.isDeath := None; Message.generatedImage := None |} in
  seq [ setIsGeneratingScene true;
        setShowActionInput false;
        setMessages (λ prev, prev ++ [userActionMsg]);
        emit (call_generateActionScene (activeCharacter w)
                (activeUserPersona w) (actionPrompt w));
        await (AwaitScene (actionPrompt w));
        sessionEffect ] w.

(** [handleGenerateAction], from the settled [generateActionScene]. *)
Definition handleGenerateAction_settled (actionPrompt : jsstring)
    (response : Settled GenerateContentResponse) (now_id now_ts : Z)
  : Action :=
  seq [ match generateActionScene response with
        | Resolved imageBase64 =>
            let sceneMsg :=
              {| Message.id := toString (now_id + 1); Message.role := Role.model;
                 Message.text := js "*Uma cena se desenrola: " ++ actionPrompt ++ js "*";
                 Message.timestamp := now_ts;
                 Message.isDeath := None;
                 Message.generatedImage := Some imageBase64 |} in
            seq [ setMessages (λ prev, prev ++ [sceneMsg]);
                  setActionPrompt [] ]
        | Rejected _ =>
            seq [ emit (console_error []);
                  setMessages (λ prev, prev ++
                    [ {| Message.id := js "err"; Message.role := Role.model;
                         Message.text := js "(Falha ao visualizar a cena)";
                         Message.timestamp := now_ts;
                         Message.isDeath := None;
                         Message.generatedImage := None |} ]) ]
        end;
        setIsGeneratingScene false;
        sessionEffect ].

(** [startRecording]; [granted] tells whether [getUserMedia] resolved. *)
Definition startRecording (granted : bool) : Action :=
  if granted then setIsRecording true
  else emit (alert (js "Microfone bloqueado")).

(** [stopRecording] and the recorder's [onstop], up to
    [await transcribeAudio(...)]. *)
Definition stopRecording : Action := λ w,
  if isRecording w
  then seq [ setIsRecording false;
             setIsProcessing true;
             emit call_transcribeAudio;
             await AwaitTranscript ] w
  else w.

(** The recorder's [onstop], from the settled [transcribeAudio]. *)
Definition onstop_settled (response : Settled (option jsstring)) : Action :=
  seq [ match transcribeAudio response with
        | Resolved text => setInputText text
        | Rejected _ => emit (console_error (js "Transcription failed"))
        end;
        setIsProcessing false ].

(** *** What [render] shows and enables *)

(** 1. The death overlay, with the button that opens the time skip. *)
Definition death_overlay (w : Component) : bool :=
  isDead w && negb (showTimeSkipInput w) && negb (showNewUserForm w).

(** 2. The time skip input. *)
Definition time_skip_overlay (w : Component) : bool :=
  isDead w && showTimeSkipInput w && negb (showNewUserForm w).

(** [disabled] of the time skip button. *)
Definition time_skip_disabled (w : Component) : bool :=
  negb (truthy (timeSkipDuration w)) || isSkippingTime w.

(** The action input layer. *)
Definition action_layer (w : Component) : bool :=
  negb (isDead w) && showActionInput w.

(** [disabled] of the send button. *)
Definition send_disabled (w : Component) : bool :=
  negb (truthy (trim (inputText w))) || isProcessing w || isDead w.

(** *** Events

    What the user does to the controls that [render] shows, and the
    settling of a request in flight ([job] is its position in [inflight]).
    An event on a control that is hidden or disabled, or for a job of
    another kind, leaves the component as it is. *)
Inductive Event :=
| ChangeInput (value : jsstring)
| KeyDownEnter (now_id now_ts : Z)
| ClickSend (now_id now_ts : Z)
| ToggleAutoPlay (checked : bool)
| ClickCamera
| ChangeActionPrompt (value : jsstring)
| SubmitAction (now_id now_ts : Z)
| CloseAction
| MicDown (granted : bool)
| MicUp
| ClickAdvanceTime
| ChangeDuration (value : jsstring)
| ClickTimeSkip (now_ts : Z)
| SubmitNewUser (form : UserSetup.State) (now_id now_ts : Z)
| ChatSettled (job : nat) (response : Settled (option jsstring))
    (now_id now_ts : Z)
| SpeechSettled (job : nat) (response : Settled GenerateContentResponse)
    (decoded : bool)
| TimeSkipSettled (job : nat)
    (response : Settled (option (JsonText TimeSkipUpdates)))
    (image : Settled GenerateContentResponse) (now_id now_ts : Z)
| SceneSettled (job : nat) (response : Settled GenerateContentResponse)
    (now_id now_ts : Z)
| TranscriptSettled (job : nat) (response : Settled (option jsstring)).

Definition step (e : Event) : Action := λ w,
  match e with
  | ChangeInput value => if isDead w then w else setInputText value w
  | KeyDownEnter now_id now_ts =>
      if isDead w then w else handleSendMessage now_id now_ts w
  | ClickSend now_id now_ts =>
      if send_disabled w then w else handleSendMessage now_id now_ts w
  | ToggleAutoPlay checked => setAutoPlayTTS checked w
  | ClickCamera =>
      if isDead w then w else setShowActionInput (negb (showActionInput w)) w
  | ChangeActionPrompt value =>
      if action_layer w then setActionPrompt value w else w
  | SubmitAction now_id now_ts =>
      if action_layer w then handleGenerateAction now_id now_ts w else w
  | CloseAction => if action_layer w then setShowActionInput false w else w
  | MicDown granted => if isDead w then w else startRecording granted w
  | MicUp => if isDead w then w else stopRecording w
  | ClickAdvanceTime =>
      if death_overlay w then setShowTimeSkipInput true w else w
  | ChangeDuration value =>
      if time_skip_overlay w then setTimeSkipDuration value w else w
  | ClickTimeSkip now_ts =>
      if time_skip_overlay w && negb (time_skip_disabled w)
      then handleTimeSkip now_ts w else w
  | SubmitNewUser form now_id now_ts =>
      if showNewUserForm w then
        match UserSetup.handleSubmit form with
        | Some newUser => handleNewUserCreated newUser now_id now_ts w
        | None => w
        end
      else w
  | ChatSettled job response now_id now_ts =>
      match inflight w !! job with
      | Some (AwaitChat autoPlayTTS) =>
          seq [ settle job;
                handleSendMessage_settled autoPlayTTS response now_id now_ts ] w
      | _ => w
      end
  | SpeechSettled job response decoded =>
      match inflight w !! job with
      | Some AwaitSpeech =>
          seq [ settle job; handleSendMessage_spoken response decoded ] w
      | _ => w
      end
  | TimeSkipSettled job response image now_id now_ts =>
      match inflight w !! job with
      | Some (AwaitTimeSkip activeCharacter timeSkipDuration) =>
          seq [ settle job;
                handleTimeSkip_settled activeCharacter timeSkipDuration
                  response image now_id now_ts ] w
      | _ => w
      end
  | SceneSettled job response now_id now_ts =>
      match inflight w !! job with
      | Some (AwaitScene actionPrompt) =>
          seq [ settle job;
                handleGenerateAction_settled actionPrompt response
                  now_id now_ts ] w
      | _ => w
      end
  | TranscriptSettled job response =>
      match inflight w !! job with
      | Some AwaitTranscript => seq [ settle job; onstop_settled response ] w
      | _ => w
      end
  end.

Definition run (events : list Event) : Action :=
  λ w, foldl (λ w e, step e w) w events.

(** The alerts the component has shown. *)
Definition alerts (w : Component) : list jsstring :=
  omap (λ e, match e with alert message => Some message | _ => None end)
    (effects w).

(** The components that a mounted chat can become. *)
Inductive reachable : Component → Prop :=
| reachable_mount p : reachable (mount p)
| reachable_step e w : reachable w → reachable (step e w).

(** *** The narrative state

    The four states of the narrative, read off the flags that decide which
    overlay [render] shows and whether the chat controls are enabled. *)
Inductive NarrativeState :=
  ALIVE | DEAD | TIME_SKIP_PENDING | AWAITING_NEW_PERSONA.

Definition derivedState (w : Component) : NarrativeState :=
  if showNewUserForm w then AWAITING_NEW_PERSONA
  else if isDead w then
    if isSkippingTime w then TIME_SKIP_PENDING else DEAD
  else ALIVE.

End ChatArea.

(** ** The session store ([App.tsx]) *)

Module App.

Inductive ViewMode := WELCOME | SETUP | USER_SETUP | CHAT | MEDIA.

#[global] Instance ViewMode_eq_dec : EqDecision ViewMode.
Proof. solve_decision. Defined.

(** The key under which the collection is kept in [localStorage]. *)
Definition storageKey : jsstring := js "persona_sessions".

(** The state of the application: its [useState] cells, and the browser's
    [localStorage], whose items are texts read as session collections. *)
Record State := mkState {
  sessions : list ChatSession;
  activeSessionId : option jsstring;
  tempCharacter : option Character;
  tempUser : option UserPersona;
  view : ViewMode;
  isSidebarOpen : bool;
  localStorage : gmap jsstring (JsonText (list ChatSession))
}.

Definition Action : Type := State → State.

Definition setSessions (f : list ChatSession → list ChatSession) : Action :=
  λ a, let 'mkState x0 x1 x2 x3 x4 x5 x6 := a in
       mkState (f x0) x1 x2 x3 x4 x5 x6.
Definition setActiveSessionId (v : option jsstring) : Action :=
  λ a, let 'mkState x0 x1 x2 x3 x4 x5 x6 := a in
       mkState x0 v x2 x3 x4 x5 x6.
Definition setTempCharacter (v : option Character) : Action :=
  λ a, let 'mkState x0 x1 x2 x3 x4 x5 x6 := a in
       mkState x0 x1 v x3 x4 x5 x6.
Definition setTempUser (v : option UserPersona) : Action :=
  λ a, let 'mkState x0 x1 x2 x3 x4 x5 x6 := a in
       mkState x0 x1 x2 v x4 x5 x6.
Definition setView (v : ViewMode) : Action :=
  λ a, let 'mkState x0 x1 x2 x3 x4 x5 x6 := a in
       mkState x0 x1 x2 x3 v x5 x6.
Definition setIsSidebarOpen (v : bool) : Action :=
  λ a, let 'mkState x0 x1 x2 x3 x4 x5 x6 := a in
       mkState x0 x1 x2 x3 x4 v x6.
Definition localStorage_setItem (key : jsstring)
    (value : JsonText (list ChatSession)) : Action :=
  λ a, let 'mkState x0 x1 x2 x3 x4 x5 x6 := a in
       mkState x0 x1 x2 x3 x4 x5 (<[key := value]> x6).

Definition seq (body : list Action) : Action :=
  λ a, foldl (λ a f, f a) a body.

Definition skip : Action := λ a, a.

(** "Load Sessions on Mount". *)
Definition loadEffect : Action := λ a,
  match localStorage a !! storageKey with
  | Some saved =>
      if nonempty_text saved then
        match saved with
        | Json parsed => setSessions (λ _, parsed) a
        | NotJson _ => a          (* console.error("Failed to load sessions") *)
        end
      else a
  | None => a
  end.

(** "Save Sessions whenever they change": the effect on [sessions]; it
    runs after the render that follows a [setSessions]. *)
Definition saveEffect : Action := λ a,
  if (0 <? length (sessions a))%nat
  then localStorage_setItem storageKey (Json (sessions a)) a
  else a.

(** The application as it starts over the browser's storage. *)
Definition mount (storage : gmap jsstring (JsonText (list ChatSession)))
  : State :=
  seq [ loadEffect; saveEffect ]
    {| sessions := []; activeSessionId := None; tempCharacter := None;
       tempUser := None; view := WELCOME; isSidebarOpen := false;
       localStorage := storage |}.

(** [sessions.find(s => s.id === activeSessionId)]. *)
Definition activeSession (a : State) : option ChatSession :=
  match activeSessionId a with
  | Some i => list_find (λ s, ChatSession.id s = i) (sessions a) ≫= λ r, Some r.2
  | None => None
  end.

(** The props of the chat that [render] mounts, keyed by the session. *)
Definition chatProps (a : State) : option ChatArea.Props :=
  if bool_decide (view a = CHAT) then
    (λ s, {| ChatArea.sessionId := ChatSession.id s;
             ChatArea.initialCharacter := ChatSession.character s;
             ChatArea.initialUserPersona := ChatSession.userPersona s;
             ChatArea.initialMessages := ChatSession.messages s |})
    <$> activeSession a
  else None.

Definition handleStartApp : Action := λ a,
  if (0 <? length (sessions a))%nat
  then seq [ setActiveSessionId None; setView SETUP ] a
  else setView SETUP a.

Definition handleCreateNew : Action :=
  seq [ setActiveSessionId None; setTempCharacter None; setTempUser None;
        setView SETUP; setIsSidebarOpen false ].

Definition handleCharacterComplete (char : Character) : Action :=
  seq [ setTempCharacter (Some char); setView USER_SETUP ].

Definition handleUserSetupComplete (user : UserPersona)
    (now_id now_ts now_updated : Z) : Action := λ a,
  seq [ setTempUser (Some user);
        match tempCharacter a with
        | Some tempCharacter =>
            let newSession :=
              {| ChatSession.id := toString now_id;
                 ChatSession.character := tempCharacter;
                 ChatSession.userPersona := Some user;
                 ChatSession.messages :=
                   [ {| Message.id := js "init"; Message.role := Role.model;
                        Message.text :=
                          js "*" ++ Character.name tempCharacter
                          ++ js " entra na sala.*";
                        Message.timestamp := now_ts;
                        Message.isDeath := None;
                        Message.generatedImage := None |} ];
                 ChatSession.lastUpdated := now_updated;
                 ChatSession.previewText := Some (js "Início da jornada...") |} in
            seq [ setSessions (λ prev, newSession :: prev);
                  setActiveSessionId (Some (ChatSession.id newSession));
                  setView CHAT;
                  saveEffect ]
        | None => skip
        end ] a.

Definition handleSelectSession (sessionId : jsstring) : Action :=
  seq [ setActiveSessionId (Some sessionId); setTempCharacter None;
        setTempUser None; setView CHAT; setIsSidebarOpen false ].

(** [handleDeleteSession]; [confirmed] is the answer to [confirm(...)]. *)
Definition handleDeleteSession (confirmed : bool) (sessionId : jsstring)
  : Action := λ a,
  if confirmed then
    seq [ setSessions (filter (λ s, ChatSession.id s ≠ sessionId));
          if bool_decide (activeSessionId a = Some sessionId)
          then seq [ setActiveSessionId None; setView SETUP ]
          else skip;
          saveEffect ] a
  else a.

Definition handleSessionUpdate (messages : list Message)
    (updatedCharacter : Character) (updatedUser : option UserPersona)
    (now : Z) : Action := λ a,
  match activeSessionId a with
  | Some activeSessionId =>
      if truthy activeSessionId then
        seq [ setSessions (fmap (λ s,
                if bool_decide (ChatSession.id s = activeSessionId) then
                  {| ChatSession.id := ChatSession.id s;
                     ChatSession.messages := messages;
                     ChatSession.character := updatedCharacter;
                     ChatSession.userPersona := updatedUser;
                     ChatSession.lastUpdated := now;
                     ChatSession.previewText :=
                       match last messages with
                       | Some lastMsg =>
                           Some (substring0 40 (Message.text lastMsg)
                                 ++ js "...")
                       | None => ChatSession.previewText s
                       end |}
                else s));
              saveEffect ] a
      else a
  | None => a
  end.

(** What happens to the application: the user's actions on what [render]
    shows, and the calls of the mounted chat to [onSessionUpdate]. *)
Inductive Event :=
| StartApp
| CreateNew
| CharacterComplete (char : Character)
| UserSetupComplete (user : UserPersona) (now_id now_ts now_updated : Z)
| SelectSession (sessionId : jsstring)
| DeleteSession (sessionId : jsstring) (confirmed : bool)
| SessionUpdate (messages : list Message) (character : Character)
    (user : option UserPersona) (now : Z)
| OpenSidebar (open : bool)
| ClickTitle
| ClickMediaLab
| CancelUserSetup.

Definition step (e : Event) : Action := λ a,
  match e with
  | StartApp => if bool_decide (view a = WELCOME) then handleStartApp a else a
  | CreateNew => if bool_decide (view a = WELCOME) then a else handleCreateNew a
  | CharacterComplete char =>
      if bool_decide (view a = SETUP) then handleCharacterComplete char a else a
  | UserSetupComplete user now_id now_ts now_updated =>
      if bool_decide (view a = USER_SETUP)
      then handleUserSetupComplete user now_id now_ts now_updated a else a
  | SelectSession sessionId =>
      if bool_decide (view a ≠ WELCOME
                      ∧ sessionId ∈ ChatSession.id <$> sessions a)
      then handleSelectSession sessionId a else a
  | DeleteSession sessionId confirmed =>
      if bool_decide (view a ≠ WELCOME
                      ∧ sessionId ∈ ChatSession.id <$> sessions a)
      then handleDeleteSession confirmed sessionId a else a
  | SessionUpdate messages character user now =>
      if bool_decide (view a = CHAT) && bool_decide (is_Some (activeSession a))
      then handleSessionUpdate messages character user now a else a
  | OpenSidebar open =>
      if bool_decide (view a = WELCOME) then a else setIsSidebarOpen open a
  | ClickTitle =>
      if bool_decide (view a = WELCOME) then a else setView WELCOME a
  | ClickMediaLab =>
      if bool_decide (view a = WELCOME) then a else setView MEDIA a
  | CancelUserSetup =>
      if bool_decide (view a = USER_SETUP) then setView SETUP a else a
  end.

Definition run (events : list Event) : Action :=
  λ a, foldl (λ a e, step e a) a events.

End App.

(** ** The media component ([components/MediaLab.tsx]) *)

Module MediaLab.
Import GeminiService.

Inductive Tab := IMAGE | VIDEO | SEARCH.

(** [ImageSize] and [AspectRatio] of [types.ts], and the two formats of a
    video, ['16:9'] and ['9:16']. *)
Inductive ImageSize := SIZE_1K | SIZE_2K | SIZE_4K.
Inductive AspectRatio :=
  RATIO_1_1 | RATIO_3_4 | RATIO_4_3 | RATIO_9_16 | RATIO_16_9.
Inductive VideoRatio := LANDSCAPE | PORTRAIT.

(** A request in flight: the branch of [handleGenerate] that awaits it. *)
Inductive Job := AwaitImage | AwaitVideo | AwaitSearch.

Inductive Effect :=
| alert (message : jsstring)
| console_error (label : jsstring)
| call_generateSceneImage (prompt : jsstring) (size : ImageSize)
    (ratio : AspectRatio)
| call_generateCharacterVideo (prompt : jsstring) (aspectRatio : VideoRatio)
| call_factCheck (query : jsstring).

(** The state of the component: its [useState] cells, the requests in
    flight and the effects so far, oldest first. *)
Record State := mkState {
  prompt : jsstring;
  activeTab : Tab;
  imgSize : ImageSize;
  imgRatio : AspectRatio;
  generatedImg : option jsstring;
  vidRatio : VideoRatio;
  generatedVid : option jsstring;
  searchResult : option Search.Result;
  loading : bool;
  inflight : list Job;
  effects : list Effect
}.

Definition Action : Type := State → State.

Definition seq (body : list Action) : Action :=
  λ s, foldl (λ s f, f s) s body.

Definition setPrompt (v : jsstring) : Action := λ s,
  let 'mkState x0 x1 x2 x3 x4 x5 x6 x7 x8 x9 x10 := s in
  mkState v x1 x2 x3 x4 x5 x6 x7 x8 x9 x10.
Definition setActiveTab (v : Tab) : Action := λ s,
  let 'mkState x0 x1 x2 x3 x4 x5 x6 x7 x8 x9 x10 := s in
  mkState x0 v x2 x3 x4 x5 x6 x7 x8 x9 x10.
Definition setImgSize (v : ImageSize) : Action := λ s,
  let 'mkState x0 x1 x2 x3 x4 x5 x6 x7 x8 x9 x10 := s in
  mkState x0 x1 v x3 x4 x5 x6 x7 x8 x9 x10.
Definition setImgRatio (v : AspectRatio) : Action := λ s,
  let 'mkState x0 x1 x2 x3 x4 x5 x6 x7 x8 x9 x10 := s in
  mkState x0 x1 x2 v x4 x5 x6 x7 x8 x9 x10.
Definition setGeneratedImg (v : option jsstring) : Action := λ s,
  let 'mkState x0 x1 x2 x3 x4 x5 x6 x7 x8 x9 x10 := s in
  mkState x0 x1 x2 x3 v x5 x6 x7 x8 x9 x10.
Definition setVidRatio (v : VideoRatio) : Action := λ s,
  let 'mkState x0 x1 x2 x3 x4 x5 x6 x7 x8 x9 x10 := s in
  mkState x0 x1 x2 x3 x4 v x6 x7 x8 x9 x10.
Definition setGeneratedVid (v : option jsstring) : Action := λ s,
  let 'mkState x0 x1 x2 x3 x4 x5 x6 x7 x8 x9 x10 := s in
  mkState x0 x1 x2 x3 x4 x5 v x7 x8 x9 x10.
Definition setSearchResult (v : option Search.Result) : Action := λ s,
  let 'mkState x0 x1 x2 x3 x4 x5 x6 x7 x8 x9 x10 := s in
  mkState x0 x1 x2 x3 x4 x5 x6 v x8 x9 x10.
Definition setLoading (v : bool) : Action := λ s,
  let 'mkState x0 x1 x2 x3 x4 x5 x6 x7 x8 x9 x10 := s in
  mkState x0 x1 x2 x3 x4 x5 x6 x7 v x9 x10.
Definition updInflight (f : list Job → list Job) : Action := λ s,
  let 'mkState x0 x1 x2 x3 x4 x5 x6 x7 x8 x9 x10 := s in
  mkState x0 x1 x2 x3 x4 x5 x6 x7 x8 (f x9) x10.
Definition updEffects (f : list Effect → list Effect) : Action := λ s,
  let 'mkState x0 x1 x2 x3 x4 x5 x6 x7 x8 x9 x10 := s in
  mkState x0 x1 x2 x3 x4 x5 x6 x7 x8 x9 (f x10).

Definition emit (e : Effect) : Action := updEffects (λ es, es ++ [e]).
Definition await (job : Job) : Action := updInflight (λ js, js ++ [job]).
Definition settle (job : nat) : Action := updInflight (delete job).

Definition initial : State :=
  {| prompt := []; activeTab := IMAGE; imgSize := SIZE_1K;
     imgRatio := RATIO_1_1; generatedImg := None; vidRatio := LANDSCAPE;
     generatedVid := None; searchResult := None; loading := false;
     inflight := []; effects := [] |}.

(** [handleGenerate], up to the [await] of the branch of the active tab. *)
Definition handleGenerate : Action := λ s,
  if negb (truthy (prompt s)) then s else
  seq [ setLoading true;
        setGeneratedImg None;
        setGeneratedVid None;
        setSearchResult None;
        match activeTab s with
        | IMAGE =>
            seq [ emit (call_generateSceneImage (prompt s) (imgSize s)
                          (imgRatio s));
                  await AwaitImage ]
        | VIDEO =>
            seq [ emit (call_generateCharacterVideo (prompt s) (vidRatio s));
                  await AwaitVideo ]
        | SEARCH => seq [ emit (call_factCheck (prompt s)); await AwaitSearch ]
        end ] s.

(** The [catch] and [finally] blocks of [handleGenerate]. *)
Definition failed : Action :=
  seq [ emit (console_error []);
        emit (alert (js "Generation failed. See console.")) ].

(** What a request is settled with: the response to [generateSceneImage]
    and to [factCheck], and the settled promise of
    [generateCharacterVideo], whose polling is left out. *)
Inductive Outcome :=
| ImageResponse (response : Settled GenerateContentResponse)
| VideoResult (result : Settled jsstring)
| SearchResponse (response : Settled Search.Response).

(** [handleGenerate], from the settled request to the end. *)
Definition handleGenerate_settled (job : nat) (outcome : Outcome) : Action :=
  λ s,
  match inflight s !! job, outcome with
  | Some AwaitImage, ImageResponse response =>
      seq [ settle job;
            match generateSceneImage response with
            | Resolved result => setGeneratedImg (Some result)
            | Rejected _ => failed
            end;
            setLoading false ] s
  | Some AwaitVideo, VideoResult result =>
      seq [ settle job;
            match result with
            | Resolved result => setGeneratedVid (Some result)
            | Rejected _ => failed
            end;
            setLoading false ] s
  | Some AwaitSearch, SearchResponse response =>
      seq [ settle job;
            match factCheck response with
            | Resolved result => setSearchResult (Some result)
            | Rejected _ => failed
            end;
            setLoading false ] s
  | _, _ => s
  end.

(** [disabled] of the button ``Generate''. *)
Definition generate_disabled (s : State) : bool :=
  loading s || negb (truthy (prompt s)).

(** The results that [render] shows. *)
Definition shown (s : State) : list Tab :=
  (if truthy_opt (generatedImg s) then [IMAGE] else [])
  ++ (if truthy_opt (generatedVid s) then [VIDEO] else [])
  ++ match searchResult s with Some _ => [SEARCH] | None => [] end.

(** What the user does to the controls that [render] shows, and the
    settling of a request. *)
Inductive Event :=
| ChangePrompt (value : jsstring)
| SelectTab (tab : Tab)
| SelectImgSize (size : ImageSize)
| SelectImgRatio (ratio : AspectRatio)
| SelectVidRatio (ratio : VideoRatio)
| ClickGenerate
| Settle (job : nat) (outcome : Outcome).

Definition step (e : Event) : Action := λ s,
  match e with
  | ChangePrompt value => setPrompt value s
  | SelectTab tab => setActiveTab tab s
  | SelectImgSize size =>
      match activeTab s with IMAGE => setImgSize size s | _ => s end
  | SelectImgRatio ratio =>
      match activeTab s with IMAGE => setImgRatio ratio s | _ => s end
  | SelectVidRatio ratio =>
      match activeTab s with VIDEO => setVidRatio ratio s | _ => s end
  | ClickGenerate => if generate_disabled s then s else handleGenerate s
  | Settle job outcome => handleGenerate_settled job outcome s
  end.

Definition run (events : list Event) : Action :=
  λ s, foldl (λ s e, step e s) s events.

(** The alerts the component has shown. *)
Definition alerts (s : State) : list jsstring :=
  omap (λ e, match e with alert message => Some message | _ => None end)
    (effects s).

End MediaLab.

(** ** A session to run the handlers on *)

Module Sample.

(** The form filled with a name and a description, then confirmed. *)
Definition setup : list CharacterSetup.Event :=
  [ CharacterSetup.ChangeName (js "Rex");
    CharacterSetup.ChangeDescription (js "A dragon");
    CharacterSetup.ClickConfirm 1000 ].

Definition character : Character :=
  {| Character.id := js "1000";
     Character.name := js "Rex";
     Character.description := js "A dragon";
     Character.baseImage :=
       js "iVBORw0KGgoAAAANSUhEUgAAAAEAAAABCAQAAAC1HAwCAAAAC0lEQVR42mNk+A8AAQUBAScY42YAAAAASUVORK5CYII=";
     Character.systemInstruction :=
       js "Você é Rex. A dragon. Tom da história: Sombrio e Realista.";
     Character.height := Some [];
     Character.weight := Some [];
     Character.powers := Some [];
     Character.age := Some [];
     Character.lifeExpectancy := Some [];
     Character.diet :=
       Some {| DietConfig.type := HERBIVORE; DietConfig.details := [];
               DietConfig.eatsHumans := false;
               DietConfig.humanPreferences := None |};
     Character.encounter :=
       Some {| EncounterConfig.environment := [];
               EncounterConfig.whoSawFirst := BOTH |};
     Character.questionAnswers := Some ∅ |}.

Definition personaForm : UserSetup.State :=
  {| UserSetup.name := js "Ana"; UserSetup.appearance := [];
     UserSetup.height := js "1.70m"; UserSetup.weight := js "60kg";
     UserSetup.age := js "30"; UserSetup.image := None |}.

Definition persona : UserPersona :=
  {| UserPersona.name := js "Ana";
     UserPersona.appearance := js "Aparência padrão.";
     UserPersona.baseImage := None;
     UserPersona.height := js "1.70m"; UserPersona.weight := js "60kg";
     UserPersona.age := js "30" |}.

(** The application started on an empty storage, up to the first chat. *)
Definition app : App.State :=
  App.run [ App.StartApp; App.CharacterComplete character;
            App.UserSetupComplete persona 2000 2000 2000 ]
    (App.mount ∅).

Definition seed : Message :=
  {| Message.id := js "init"; Message.role := Role.model;
     Message.text := js "*Rex entra na sala.*"; Message.timestamp := 2000;
     Message.isDeath := None; Message.generatedImage := None |}.

Definition props : ChatArea.Props :=
  {| ChatArea.sessionId := js "2000";
     ChatArea.initialCharacter := character;
     ChatArea.initialUserPersona := Some persona;
     ChatArea.initialMessages := [seed] |}.

(** The chat mounted on the fresh session. *)
Definition chat : ChatArea.Component := ChatArea.mount props.

(** One turn whose reply carries the death tag. *)
Definition dying : list ChatArea.Event :=
  [ ChatArea.ChangeInput (js "hello");
    ChatArea.KeyDownEnter 3000 3000;
    ChatArea.ChatSettled 0 (Resolved (Some (js "You die. [GAME_OVER]")))
      4000 4000 ].

Definition dead : ChatArea.Component := ChatArea.run dying chat.

(** The request of a time skip of ten years, in flight. *)
Definition skipping : ChatArea.Component :=
  ChatArea.run [ ChatArea.ClickAdvanceTime;
                 ChatArea.ChangeDuration (js "10 years");
                 ChatArea.ClickTimeSkip 5000 ] dead.

Definition updates : GeminiService.TimeSkipUpdates :=
  {| GeminiService.newWeight := Some (js "300kg");
     GeminiService.newHeight := Some (js "3m");
     GeminiService.newAge := Some (js "310");
     GeminiService.stats := Some (js "...");
     GeminiService.summary := Some (js "...");
     GeminiService.visualEvolutionPrompt := Some [] |}.

(** Updates that ask for a new image, and a response that carries one. *)
Definition evolved : GeminiService.TimeSkipUpdates :=
  {| GeminiService.newWeight := Some (js "300kg");
     GeminiService.newHeight := Some (js "3m");
     GeminiService.newAge := Some (js "310");
     GeminiService.stats := Some (js "2 villages");
     GeminiService.summary := Some (js "Slept in a cave.");
     GeminiService.visualEvolutionPrompt := Some (js "older") |}.

Definition picture : GeminiService.GenerateContentResponse :=
  {| GeminiService.candidates :=
       Some [ {| GeminiService.content :=
                   Some {| GeminiService.parts :=
                             Some [ {| GeminiService.inlineData :=
                                         Some {| GeminiService.data :=
                                                   js "bmV3" |} |} ] |} |} ] |}.

(** The time skip settled with [updates]. *)
Definition awaiting : ChatArea.Component :=
  ChatArea.step
    (ChatArea.TimeSkipSettled 0 (Resolved (Some (Json updates)))
       (Rejected []) 6000 6000) skipping.

End Sample.

(** * Properties *)

Import GeminiService ChatArea.

(** ** Invariants of the chat *)

Definition skip_of (j : Job) : option (Character * jsstring) :=
  match j with AwaitTimeSkip c d => Some (c, d) | _ => None end.

(** The time skips in flight, with what each captured. *)
Definition skips (w : Component) : list (Character * jsstring) :=
  omap skip_of (inflight w).

(** At most one time skip is in flight; while it is, the component shows
    the time skip input over a dead chat, and the character is the one the
    time skip captured. *)
Definition skip_inv (w : Component) : Prop :=
  skips w = [] ∨
  ∃ d, skips w = [(activeCharacter w, d)] ∧ isSkippingTime w = true
       ∧ isDead w = true ∧ showTimeSkipInput w = true
       ∧ showNewUserForm w = false.

(** How one event moves the part of the component that a time skip reads. *)
Inductive skip_move (w w' : Component) : Prop :=
| move_none :
    skips w' = skips w → activeCharacter w' = activeCharacter w →
    isSkippingTime w' = isSkippingTime w →
    (isDead w = true → isDead w' = true) →
    (showTimeSkipInput w = true → showTimeSkipInput w' = true) →
    showNewUserForm w' = showNewUserForm w →
    skip_move w w'
| move_start d :
    isSkippingTime w = false → isDead w' = true →
    showTimeSkipInput w' = true → showNewUserForm w' = false →
    isSkippingTime w' = true → activeCharacter w' = activeCharacter w →
    skips w' = skips w ++ [(activeCharacter w, d)] →
    skip_move w w'
| move_settle k c d :
    inflight w !! k = Some (AwaitTimeSkip c d) →
    inflight w' = delete k (inflight w) →
    skip_move w w'
| move_new_user :
    showNewUserForm w = true → skips w' = skips w →
    skip_move w w'.

(** Once the effect has run, a log that ends with a death has set [isDead]. *)
Definition dead_inv (w : Component) : Prop :=
  last_died (messages w) = true → isDead w = true.

(** The updates [processTimeSkip] makes up when the text is not JSON. *)
Definition survived (character : Character) (duration : jsstring)
  : TimeSkipUpdates :=
  {| newWeight := Some (or_else (Character.weight character) (js "?"));
     newHeight := Some (or_else (Character.height character) (js "?"));
     newAge := Some (or_else (Character.age character) (js "?"));
     stats := Some (js "Sobreviveu.");
     summary := Some (js "Passaram-se " ++ duration
                      ++ js ". O personagem continuou sua existência.");
     visualEvolutionPrompt := Some (js "older, different appearance") |}.

(** ** Further notions *)

(** The log without the placeholder of a time skip. *)
Definition settled_log (ms : list Message) : list Message :=
  filter (λ m, Message.id m ≠ js "skip_calc") ms.

(** Two characters that differ at most in height, weight, age and image. *)
Definition same_identity (c c' : Character) : Prop :=
  Character.id c' = Character.id c
  ∧ Character.name c' = Character.name c
  ∧ Character.description c' = Character.description c
  ∧ Character.systemInstruction c' = Character.systemInstruction c
  ∧ Character.powers c' = Character.powers c
  ∧ Character.lifeExpectancy c' = Character.lifeExpectancy c
  ∧ Character.diet c' = Character.diet c
  ∧ Character.encounter c' = Character.encounter c
  ∧ Character.questionAnswers c' = Character.questionAnswers c.

(** The snapshots of the session handed to the parent, oldest first. *)
Definition session_updates (w : Component)
  : list (list Message * Character * option UserPersona) :=
  omap (λ e, match e with
             | onSessionUpdate ms c u => Some (ms, c, u)
             | _ => None
             end) (effects w).

(** The snapshot of the session as the component holds it. *)
Definition snapshot (w : Component)
  : list Message * Character * option UserPersona :=
  (messages w, activeCharacter w, activeUserPersona w).

(** The applications that a start on some storage can become. *)
Inductive app_reachable : App.State → Prop :=
| app_reachable_mount storage : app_reachable (App.mount storage)
| app_reachable_step e a : app_reachable a → app_reachable (App.step e a).

(** An action of the character form that completes no character. *)
Definition silent (f : CharacterSetup.Action) : Prop :=
  ∀ s, CharacterSetup.completed (f s) = CharacterSetup.completed s.

(** What every character that the form completes has. *)
Definition well_formed (c : Character) : Prop :=
  Character.name c ≠ [] ∧ Character.description c ≠ []
  ∧ Character.baseImage c ≠ []
  ∧ is_Some (Character.encounter c)
  ∧ is_Some (Character.questionAnswers c)
  ∧ ∃ d, Character.diet c = Some d
         ∧ (is_Some (DietConfig.humanPreferences d)
            ↔ DietConfig.eatsHumans d = true).

(** An action of the character form that keeps [P]. *)
Definition keeps (P : CharacterSetup.State → Prop) (f : CharacterSetup.Action)
  : Prop :=
  ∀ s, P s → P (f s).

(** [d] is the data of the first part of [ps] that carries inline data. *)
Definition first_image (ps : list Part) (d : jsstring) : Prop :=
  ∃ before blob after,
    ps = before ++ {| inlineData := Some blob |} :: after
    ∧ Forall (λ part, inlineData part = None) before
    ∧ data blob = d.

(** What holds of the media component at any time: a request is in flight
    exactly while it is loading, no result is held while it is loading,
    and at most one result is held. *)
Definition media_inv (s : MediaLab.State) : Prop :=
  match MediaLab.inflight s with
  | [] =>
      MediaLab.loading s = false
      ∧ match MediaLab.generatedImg s, MediaLab.generatedVid s,
              MediaLab.searchResult s with
        | Some _, None, None | None, Some _, None | None, None, Some _
        | None, None, None => True
        | _, _, _ => False
        end
  | [_] =>
      MediaLab.loading s = true
      ∧ MediaLab.generatedImg s = None ∧ MediaLab.generatedVid s = None
      ∧ MediaLab.searchResult s = None
  | _ => False
  end.

(** ** The time skip in flight *)

Lemma omap_delete_None {A B} (f : A → option B) (l : list A) k x :
  l !! k = Some x → f x = None → omap f (delete k l) = omap f l.
Proof.
  revert k. induction l as [|a l IH]; intros [|k] Hk Hx; simplify_eq/=.
  - by rewrite Hx.
  - by rewrite (IH k).
Qed.

Lemma omap_delete_single {A B} (f : A → option B) (l : list A) k x y z :
  l !! k = Some x → f x = Some y → omap f l = [z] → omap f (delete k l) = [].
Proof.
  revert k. induction l as [|a l IH]; intros [|k] Hk Hx Hf; simplify_eq/=.
  - rewrite Hx in Hf. by simplify_eq.
  - destruct (f a) eqn:Ha; [|by eapply IH].
    simplify_eq. exfalso.
    assert (y ∈ omap f l) as Hin
      by (apply list_elem_of_omap; eauto using list_elem_of_lookup_2).
    rewrite H0 in Hin. by apply elem_of_nil in Hin.
Qed.

(** What [sessionEffect] leaves alone, and what it does to [isDead]. *)
Section sessionEffect.
Variable w : Component.

Lemma sessionEffect_inflight : inflight (sessionEffect w) = inflight w.
Proof. destruct w; unfold sessionEffect; simpl. by case_match. Qed.

Lemma sessionEffect_activeCharacter :
  activeCharacter (sessionEffect w) = activeCharacter w.
Proof. destruct w; unfold sessionEffect; simpl. by case_match. Qed.

Lemma sessionEffect_activeUserPersona :
  activeUserPersona (sessionEffect w) = activeUserPersona w.
Proof. destruct w; unfold sessionEffect; simpl. by case_match. Qed.

Lemma sessionEffect_messages : messages (sessionEffect w) = messages w.
Proof. destruct w; unfold sessionEffect; simpl. by case_match. Qed.

Lemma sessionEffect_isSkippingTime :
  isSkippingTime (sessionEffect w) = isSkippingTime w.
Proof. destruct w; unfold sessionEffect; simpl. by case_match. Qed.

Lemma sessionEffect_showTimeSkipInput :
  showTimeSkipInput (sessionEffect w) = showTimeSkipInput w.
Proof. destruct w; unfold sessionEffect; simpl. by case_match. Qed.

Lemma sessionEffect_showNewUserForm :
  showNewUserForm (sessionEffect w) = showNewUserForm w.
Proof. destruct w; unfold sessionEffect; simpl. by case_match. Qed.

Lemma sessionEffect_isDead :
  isDead (sessionEffect w) = isDead w || last_died (messages w).
Proof.
  destruct w; unfold sessionEffect; simpl.
  case_match; simpl; by rewrite ?orb_true_r, ?orb_false_r.
Qed.

Lemma sessionEffect_effects :
  effects (sessionEffect w)
  = effects w ++ [onSessionUpdate (messages w) (activeCharacter w)
                    (activeUserPersona w)].
Proof. destruct w; unfold sessionEffect; simpl. by case_match. Qed.
End sessionEffect.

(** A decimal numeral is never the reserved id of the placeholder. *)
Lemma toString_not_skip_calc n : toString n ≠ js "skip_calc".
Proof.
  unfold toString. destruct (Z.to_int n) as [[]|[]]; by vm_compute.
Qed.

#[local] Opaque js toString trim JS.replace includes.

Ltac unfold_handlers :=
  unfold handleSendMessage, handleSendMessage_settled,
    handleSendMessage_spoken, handleTimeSkip, handleTimeSkip_settled,
    handleNewUserCreated, handleGenerateAction, handleGenerateAction_settled,
    startRecording, stopRecording, onstop_settled.

Ltac proj :=
  rewrite ?sessionEffect_inflight, ?sessionEffect_activeCharacter,
    ?sessionEffect_activeUserPersona, ?sessionEffect_isSkippingTime,
    ?sessionEffect_showTimeSkipInput, ?sessionEffect_showNewUserForm,
    ?sessionEffect_isDead, ?sessionEffect_messages, ?sessionEffect_effects.

Ltac view :=
  unfold skips, seq; cbn [foldl]; proj;
  match goal with w : Component |- _ => destruct w end; simpl in *;
  rewrite ?omap_app, ?app_nil_r; simpl;
  try (erewrite omap_delete_None by eauto);
  try done; try (by intros ->).

Lemma step_skip_move e w : skip_move w (step e w).
Proof.
  destruct e; unfold step.
  all: repeat case_match; try by apply move_none.
  all: unfold_handlers.
  all: repeat case_match; try by apply move_none.
  all: try (eapply move_settle; [eassumption|]; by view).
  all: try (apply move_none; by view).
  - (* the time skip starts *)
    apply andb_true_iff in H as [Hover Hdis].
    apply negb_true_iff, orb_false_iff in Hdis as [_ Hskip].
    apply andb_true_iff in Hover as [Hover Hform].
    apply andb_true_iff in Hover as [Hdead Hinput].
    apply negb_true_iff in Hform.
    apply (move_start _ _ (timeSkipDuration w)); view.
    by rewrite Hdead.
  - (* the new persona arrives *)
    apply move_new_user; view.
Qed.

Lemma skip_inv_mount p : skip_inv (mount p).
Proof. left. unfold skips, mount. by proj. Qed.

Lemma skip_inv_step e w : skip_inv w → skip_inv (step e w).
Proof.
  intros Hinv. destruct (step_skip_move e w)
    as [Hs Hc Hk Hd Hi Hf|d Hk Hd Hi Hf Hk' Hc Hs|k c d Hjob Hdel|Hf Hs].
  - destruct Hinv as [Hnone|(d & Hone & ? & ? & ? & ?)]; [left; congruence|].
    right. exists d. rewrite Hs, Hc, Hk, Hf. auto 10.
  - destruct Hinv as [Hnone|(d' & _ & ? & _)]; [|congruence].
    right. exists d. rewrite Hs, Hnone, Hc. auto 10.
  - left. destruct Hinv as [Hnone|(d' & Hone & _)];
      unfold skips in *; rewrite Hdel.
    + assert (Hin : (c, d) ∈ omap skip_of (inflight w))
        by (apply list_elem_of_omap; eauto using list_elem_of_lookup_2).
      rewrite Hnone in Hin. by apply elem_of_nil in Hin.
    + eapply omap_delete_single; eauto.
  - destruct Hinv as [Hnone|(d' & _ & _ & _ & _ & ?)]; [|congruence].
    left. congruence.
Qed.

Lemma reachable_skip_inv w : reachable w → skip_inv w.
Proof. induction 1; auto using skip_inv_mount, skip_inv_step. Qed.

(** The time skip in flight captured the character of the component. *)
Lemma time_skip_captured w job c d :
  reachable w → inflight w !! job = Some (AwaitTimeSkip c d) →
  c = activeCharacter w ∧ isSkippingTime w = true ∧ isDead w = true
  ∧ showTimeSkipInput w = true ∧ showNewUserForm w = false.
Proof.
  intros Hreach Hjob.
  assert (Hin : (c, d) ∈ skips w)
    by (apply list_elem_of_omap; eauto using list_elem_of_lookup_2).
  destruct (reachable_skip_inv w Hreach) as [Hnone|(d' & Hone & ?)].
  - rewrite Hnone in Hin. by apply elem_of_nil in Hin.
  - rewrite Hone in Hin. apply list_elem_of_singleton in Hin. by simplify_eq.
Qed.

Lemma reachable_run events w : reachable w → reachable (run events w).
Proof.
  revert w. induction events as [|e events IH]; intros w Hw; [done|].
  apply IH. by constructor.
Qed.

(** ** The time skip *)

Lemma first_inline_data_Some ps d :
  first_inline_data ps = Some d ↔ first_image ps d.
Proof.
  unfold first_image. induction ps as [|[[blob|]] ps IH]; simpl.
  - split; [done|]. intros (before & ? & ? & Hps & _). by destruct before.
  - split.
    + intros ?; simplify_eq. by exists [], blob, ps.
    + intros ([|[[?|]] before] & blob' & after & Hps & Hbefore & Hd);
        simplify_eq/=; [done|].
      by apply Forall_cons in Hbefore as [? _].
  - rewrite IH. split.
    + intros (before & blob & after & -> & Hbefore & Hd).
      exists ({| inlineData := None |} :: before), blob, after.
      split; [done|]. split; [by constructor|done].
    + intros ([|part before] & blob & after & Hps & Hbefore & Hd);
        simplify_eq/=.
      apply Forall_cons in Hbefore as [_ Hbefore]. by exists before, blob, after.
Qed.

Lemma first_inline_data_none ps :
  first_inline_data ps = None ↔ Forall (λ part, inlineData part = None) ps.
Proof.
  induction ps as [|[[blob|]] ps IH]; simpl.
  - split; [by constructor|done].
  - split; [done|]. by intros [? _]%Forall_cons.
  - rewrite IH. split; [by constructor|]. by intros [_ ?]%Forall_cons.
Qed.

(** The image of the character after a time skip, read off the response to
    the image request. *)
Lemma newImage_replaced c updates image r img :
  truthy_opt (visualEvolutionPrompt updates) = true →
  image = Resolved r → first_image (first_parts r) img →
  newImage c updates image = img.
Proof.
  intros Hprompt -> Himg%first_inline_data_Some.
  unfold newImage, evolution, evolveCharacterVisuals.
  by rewrite Hprompt, Himg.
Qed.

Lemma newImage_kept c updates image :
  truthy_opt (visualEvolutionPrompt updates) = false
  ∨ (∃ reason, image = Rejected reason)
  ∨ (∃ r, image = Resolved r
          ∧ Forall (λ part, inlineData part = None) (first_parts r)) →
  newImage c updates image = Character.baseImage c.
Proof.
  unfold newImage, evolution, evolveCharacterVisuals.
  intros [Hprompt|[[reason ->]|(r & -> & Hnone%first_inline_data_none)]].
  - by rewrite Hprompt.
  - by destruct (truthy_opt _).
  - rewrite Hnone. by destruct (truthy_opt _).
Qed.

(** C2.  A successful time skip: when the request of a time skip in flight
    resolves, the log holds no message with the placeholder's id
    ['skip_calc']; it is the log without the placeholder followed by exactly
    one new [model] message, whose text gives the duration, then the diary
    of activities, then the statistics, then one line with the new weight,
    height and age.  The character gets the height, weight and age of the
    updates; its image is the first image of the response to the image
    request when the updates ask for one and the response carries one, and
    the image it had otherwise; every other field is kept.  The narrative
    state is AWAITING_NEW_PERSONA. *)
Theorem time_skip_success w job c d response image now_id now_ts updates :
  reachable w →
  inflight w !! job = Some (AwaitTimeSkip c d) →
  processTimeSkip c d response = Resolved updates →
  let w' := step (TimeSkipSettled job response image now_id now_ts) w in
  let old := activeCharacter w in
  let new := activeCharacter w' in
  (∀ m, m ∈ messages w' → Message.id m ≠ js "skip_calc")
  ∧ messages w'
    = filter (λ m, Message.id m ≠ js "skip_calc") (messages w)
      ++ [ {| Message.id := toString now_id;
              Message.role := Role.model;
              Message.text :=
                js "‚è∞ SALTO NO TEMPO CONCLU√çDO: " ++ d ++ js "."
                ++ nl ++ nl
                ++ js "üìú DI√ÅRIO DE ATIVIDADES:" ++ nl
                ++ interpolate (summary updates) ++ nl ++ nl
                ++ js "üìä Estat√≠sticas:" ++ nl
                ++ interpolate (stats updates) ++ nl ++ nl
                ++ js "Status Atual: Peso " ++ interpolate (newWeight updates)
                ++ js " | Altura " ++ interpolate (newHeight updates)
                ++ js " | Idade " ++ interpolate (newAge updates);
              Message.timestamp := now_ts;
              Message.isDeath := None;
              Message.generatedImage := None |} ]
  ∧ (Character.height new = newHeight updates
     ∧ Character.weight new = newWeight updates
     ∧ Character.age new = newAge updates)
  ∧ (∀ r img,
       truthy_opt (visualEvolutionPrompt updates) = true →
       image = Resolved r → first_image (first_parts r) img →
       Character.baseImage new = img)
  ∧ (truthy_opt (visualEvolutionPrompt updates) = false
     ∨ (∃ reason, image = Rejected reason)
     ∨ (∃ r, image = Resolved r
             ∧ Forall (λ part, inlineData part = None) (first_parts r)) →
     Character.baseImage new = Character.baseImage old)
  ∧ (Character.id new = Character.id old
     ∧ Character.name new = Character.name old
     ∧ Character.description new = Character.description old
     ∧ Character.systemInstruction new = Character.systemInstruction old
     ∧ Character.powers new = Character.powers old
     ∧ Character.lifeExpectancy new = Character.lifeExpectancy old
     ∧ Character.diet new = Character.diet old
     ∧ Character.encounter new = Character.encounter old
     ∧ Character.questionAnswers new = Character.questionAnswers old)
  ∧ derivedState w' = AWAITING_NEW_PERSONA.
Proof.
  intros Hreach Hjob Hres.
  destruct (time_skip_captured w job c d Hreach Hjob) as (-> & _).
  pose proof (λ r img, newImage_replaced (activeCharacter w) updates image r img)
    as Hnew.
  pose proof (newImage_kept (activeCharacter w) updates image) as Hold.
  unfold step, derivedState. rewrite Hjob.
  unfold handleTimeSkip_settled. rewrite Hres. unfold newCharacter, skipMsg.
  revert Hnew Hold. generalize (newImage (activeCharacter w) updates image).
  intros img' Hnew Hold.
  assert (Hlog : ∀ m prev text,
    m ∈ filter (λ m, Message.id m ≠ js "skip_calc") prev
        ++ [ {| Message.id := toString now_id; Message.role := Role.model;
                Message.text := text; Message.timestamp := now_ts;
                Message.isDeath := None; Message.generatedImage := None |} ] →
    Message.id m ≠ js "skip_calc").
  { intros m prev text [Hm|Hm%list_elem_of_singleton]%elem_of_app.
    - by apply list_elem_of_filter in Hm as [? _].
    - subst m. apply toString_not_skip_calc. }
  destruct (evolution (activeCharacter w) updates image) as [[log []]|];
    unfold seq; cbn [foldl]; proj; destruct w; simpl in *.
  all: split; [intros m; apply Hlog|].
  all: split; [reflexivity|].
  all: split; [by split_and!|].
  all: split; [exact Hnew|].
  all: split; [exact Hold|].
  all: split; [by split_and!|done].
Qed.

(** C3.  A failed time skip: when the request of a time skip in flight is
    rejected, the placeholder is removed from the log, the character is left
    as it was, the failure is reported with an alert, and the narrative
    state is DEAD again, with the time skip input still open for another
    try. *)
Theorem time_skip_failure w job c d response image now_id now_ts reason :
  reachable w →
  inflight w !! job = Some (AwaitTimeSkip c d) →
  processTimeSkip c d response = Rejected reason →
  let w' := step (TimeSkipSettled job response image now_id now_ts) w in
  messages w' = filter (λ m, Message.id m ≠ js "skip_calc") (messages w)
  ∧ (∀ m, m ∈ messages w' → Message.id m ≠ js "skip_calc")
  ∧ activeCharacter w' = activeCharacter w
  ∧ effects w'
    = effects w ++ [ alert (js "Erro ao processar salto no tempo.");
                     onSessionUpdate (messages w') (activeCharacter w)
                       (activeUserPersona w) ]
  ∧ derivedState w' = DEAD
  ∧ time_skip_overlay w' = true
  ∧ isSkippingTime w' = false.
Proof.
  intros Hreach Hjob Hres.
  destruct (time_skip_captured w job c d Hreach Hjob)
    as (-> & _ & Hdead & Hinput & Hform).
  unfold step, derivedState, time_skip_overlay. rewrite Hjob.
  unfold handleTimeSkip_settled. rewrite Hres.
  unfold seq; cbn [foldl]; proj; destruct w; simpl in *; subst.
  repeat split; try done.
  - intros m Hm. by apply list_elem_of_filter in Hm as [? _].
  - by rewrite <-app_assoc.
Qed.

(** ** The new persona *)

(** C5.  Submitting a new persona while the state is AWAITING_NEW_PERSONA
    appends exactly one entrance message, which carries no [isDeath];
    the persona replaces the one of the session; the state becomes ALIVE. *)
Theorem new_persona_resumes w form newUser now_id now_ts :
  derivedState w = AWAITING_NEW_PERSONA →
  UserSetup.handleSubmit form = Some newUser →
  let w' := step (SubmitNewUser form now_id now_ts) w in
  (∃ entranceMsg,
     messages w' = messages w ++ [entranceMsg]
     ∧ Message.role entranceMsg = Role.user
     ∧ Message.isDeath entranceMsg = None)
  ∧ activeUserPersona w' = Some newUser
  ∧ derivedState w' = ALIVE.
Proof.
  intros Hstate Hform.
  assert (Hshow : showNewUserForm w = true).
  { unfold derivedState in Hstate. repeat case_match; done. }
  unfold step, derivedState. rewrite Hshow, Hform.
  unfold handleNewUserCreated, seq; cbn [foldl]; proj.
  destruct w; simpl in *.
  split; [by eexists|]. split; [done|].
  unfold last_died. by rewrite last_snoc.
Qed.

(** ** The sample session *)

Example sample_character :
  CharacterSetup.completed
    (CharacterSetup.run Sample.setup (CharacterSetup.initial None))
  = [Sample.character].
Proof. by vm_compute. Qed.

Example sample_persona :
  UserSetup.handleSubmit Sample.personaForm = Some Sample.persona.
Proof. by vm_compute. Qed.

Example sample_props : App.chatProps Sample.app = Some Sample.props.
Proof. by vm_compute. Qed.

(** A turn that the service answers with "Hi there". *)
Example sample_turn :
  let w := run [ ChangeInput (js "hello"); KeyDownEnter 3000 3000;
                 ChatSettled 0 (Resolved (Some (js "Hi there"))) 4000 4000 ]
             Sample.chat in
  (λ m, (Message.role m, Message.text m)) <$> messages w
  = [ (Role.model, js "*Rex entra na sala.*"); (Role.user, js "hello");
      (Role.model, js "Hi there") ]
  ∧ derivedState w = ALIVE.
Proof. by vm_compute. Qed.

(** A turn that the service answers with "You die. [GAME_OVER]". *)
Example sample_death :
  (λ m, (Message.text m, Message.isDeath m)) <$> last (messages Sample.dead)
  = Some (js "You die.", Some true).
Proof. by vm_compute. Qed.

Example sample_states :
  derivedState Sample.chat = ALIVE
  ∧ derivedState Sample.dead = DEAD
  ∧ derivedState Sample.skipping = TIME_SKIP_PENDING
  ∧ derivedState Sample.awaiting = AWAITING_NEW_PERSONA.
Proof. by vm_compute. Qed.

Lemma time_skip_success_witness :
  let w := Sample.skipping in
  let w' := step (TimeSkipSettled 0 (Resolved (Some (Json Sample.evolved)))
                    (Resolved Sample.picture) 6000 6000) w in
  reachable w
  ∧ inflight w !! 0%nat = Some (AwaitTimeSkip Sample.character (js "10 years"))
  ∧ (∀ m, m ∈ messages w' → Message.id m ≠ js "skip_calc")
  ∧ Message.text <$> last (messages w')
    = Some (js "‚è∞ SALTO NO TEMPO CONCLU√çDO: 10 years." ++ nl ++ nl
            ++ js "üìú DI√ÅRIO DE ATIVIDADES:" ++ nl
            ++ js "Slept in a cave." ++ nl ++ nl
            ++ js "üìä Estat√≠sticas:" ++ nl
            ++ js "2 villages" ++ nl ++ nl
            ++ js "Status Atual: Peso 300kg | Altura 3m | Idade 310")
  ∧ Character.weight (activeCharacter w') = Some (js "300kg")
  ∧ Character.baseImage (activeCharacter w) ≠ js "bmV3"
  ∧ Character.baseImage (activeCharacter w') = js "bmV3"
  ∧ derivedState w' = AWAITING_NEW_PERSONA.
Proof.
  assert (Hreach : reachable Sample.skipping)
    by (do 2 apply reachable_run; apply reachable_mount).
  assert (Hjob : inflight Sample.skipping !! 0%nat
                 = Some (AwaitTimeSkip Sample.character (js "10 years")))
    by (vm_compute; reflexivity).
  assert (Hres : processTimeSkip Sample.character (js "10 years")
                   (Resolved (Some (Json Sample.evolved)))
                 = Resolved Sample.evolved)
    by reflexivity.
  assert (Hprompt : truthy_opt (visualEvolutionPrompt Sample.evolved) = true)
    by (vm_compute; reflexivity).
  assert (Hpicture : first_image (first_parts Sample.picture) (js "bmV3"))
    by (exists [], {| data := js "bmV3" |}, []; repeat split; constructor).
  assert (Hbefore :
    Character.baseImage (activeCharacter Sample.skipping) ≠ js "bmV3")
    by (vm_compute; discriminate).
  pose proof (time_skip_success Sample.skipping 0 Sample.character
                (js "10 years") (Resolved (Some (Json Sample.evolved)))
                (Resolved Sample.picture) 6000 6000 Sample.evolved
                Hreach Hjob Hres)
    as (Hlog & Hmessages & (_ & Hweight & _) & Hnew & _ & _ & Hstate).
  pose proof (Hnew Sample.picture (js "bmV3") Hprompt eq_refl Hpicture)
    as Himage.
  cbv zeta in *. rewrite Hmessages, last_snoc.
  split_and!; done.
Defined.

Lemma time_skip_failure_witness :
  let w := Sample.skipping in
  let w' := step (TimeSkipSettled 0 (Rejected (js "quota")) (Rejected [])
                    6000 6000) w in
  reachable w
  ∧ inflight w !! 0%nat = Some (AwaitTimeSkip Sample.character (js "10 years"))
  ∧ activeCharacter w' = activeCharacter w
  ∧ derivedState w' = DEAD.
Proof.
  assert (Hreach : reachable Sample.skipping)
    by (do 2 apply reachable_run; apply reachable_mount).
  assert (Hjob : inflight Sample.skipping !! 0%nat
                 = Some (AwaitTimeSkip Sample.character (js "10 years")))
    by (vm_compute; reflexivity).
  assert (Hres : processTimeSkip Sample.character (js "10 years")
                   (Rejected (js "quota"))
                 = Rejected (js "quota"))
    by reflexivity.
  pose proof (time_skip_failure Sample.skipping 0 Sample.character
                (js "10 years") (Rejected (js "quota")) (Rejected [])
                6000 6000 (js "quota") Hreach Hjob Hres)
    as (_ & _ & Hchar & _ & Hstate & _).
  cbv zeta. auto.
Defined.

Lemma new_persona_resumes_witness :
  let w := Sample.awaiting in
  let w' := step (SubmitNewUser Sample.personaForm 7000 7000) w in
  derivedState w = AWAITING_NEW_PERSONA
  ∧ UserSetup.handleSubmit Sample.personaForm = Some Sample.persona
  ∧ activeUserPersona w' = Some Sample.persona
  ∧ derivedState w' = ALIVE.
Proof.
  assert (Hstate : derivedState Sample.awaiting = AWAITING_NEW_PERSONA)
    by (vm_compute; reflexivity).
  assert (Hform : UserSetup.handleSubmit Sample.personaForm
                  = Some Sample.persona)
    by (vm_compute; reflexivity).
  pose proof (new_persona_resumes Sample.awaiting Sample.personaForm
                Sample.persona 7000 7000 Hstate Hform)
    as (_ & Hpersona & Halive).
  cbv zeta. auto.
Defined.

(** ** A response without an image *)

Lemma first_parts_all_parts response part :
  part ∈ first_parts response → part ∈ all_parts response.
Proof.
  unfold first_parts, all_parts.
  destruct (candidates response) as [[|c cs]|]; simpl; try by intros ?%elem_of_nil.
  intros Hin. apply elem_of_app. by left.
Qed.

Lemma first_inline_data_None ps :
  Forall (λ part, inlineData part = None) ps → first_inline_data ps = None.
Proof. induction 1 as [|part ps Hpart _ IH]; simpl; [done|]. by rewrite Hpart. Qed.

(** C10.  When the response to the image evolution carries no inline image
    data, [evolveCharacterVisuals] resolves with the base image it was
    given, where [editCharacterImage] rejects; so a time skip whose image
    request resolves with such a response succeeds, keeps the image of the
    character and shows no alert: the one trace of the missing image is the
    warning that [evolveCharacterVisuals] writes to the console. *)
Theorem evolve_without_image_keeps_base base64Image description response :
  Forall (λ part, inlineData part = None) (all_parts response) →
  evolveCharacterVisuals base64Image description (Resolved response)
  = ([console.warn (js "Image evolution returned no image data.")],
     Resolved base64Image)
  ∧ editCharacterImage base64Image description (Resolved response)
    = Rejected (js "Nenhuma imagem gerada.")
  ∧ ∀ w job c d r updates now_id now_ts,
      inflight w !! job = Some (AwaitTimeSkip c d) →
      processTimeSkip c d r = Resolved updates →
      let w' := step (TimeSkipSettled job r (Resolved response) now_id now_ts)
                  w in
      Character.baseImage (activeCharacter w') = Character.baseImage c
      ∧ derivedState w' = AWAITING_NEW_PERSONA
      ∧ alerts w' = alerts w
      ∧ effects w'
        = effects w
          ++ (if truthy_opt (visualEvolutionPrompt updates)
              then [ call_evolveCharacterVisuals (Character.baseImage c)
                       (default [] (visualEvolutionPrompt updates));
                     console_warn
                       (js "Image evolution returned no image data.") ]
              else [])
          ++ [ onSessionUpdate (messages w') (activeCharacter w')
                 (activeUserPersona w') ].
Proof.
  intros Hnone.
  assert (Hfirst : first_inline_data (first_parts response) = None).
  { apply first_inline_data_None, Forall_forall. intros part Hin.
    eapply Forall_forall in Hnone; eauto using first_parts_all_parts. }
  unfold evolveCharacterVisuals, editCharacterImage. rewrite Hfirst.
  split; [done|]. split; [done|].
  intros w job c d r updates now_id now_ts Hjob Hres.
  unfold step, derivedState, alerts. rewrite Hjob.
  unfold handleTimeSkip_settled. rewrite Hres.
  unfold newCharacter, newImage, evolution, evolveCharacterVisuals.
  rewrite Hfirst.
  destruct (truthy_opt (visualEvolutionPrompt updates));
    unfold seq; cbn [foldl]; proj; destruct w; simpl in *;
    (split; [done|]); (split; [done|]); split.
  all: rewrite ?omap_app; simpl; rewrite ?app_nil_r; try done.
  all: by rewrite <-?app_assoc.
Qed.

Lemma evolve_without_image_keeps_base_witness :
  let response := {| candidates := Some [ {| content := None |} ] |} in
  let w := Sample.skipping in
  let w' := step (TimeSkipSettled 0 (Resolved (Some (Json Sample.evolved)))
                    (Resolved response) 6000 6000) w in
  Forall (λ part, inlineData part = None) (all_parts response)
  ∧ evolveCharacterVisuals (js "img") (js "older") (Resolved response)
    = ([console.warn (js "Image evolution returned no image data.")],
       Resolved (js "img"))
  ∧ editCharacterImage (js "img") (js "older") (Resolved response)
    = Rejected (js "Nenhuma imagem gerada.")
  ∧ Character.baseImage (activeCharacter w')
    = Character.baseImage Sample.character
  ∧ alerts w' = alerts w
  ∧ console_warn (js "Image evolution returned no image data.") ∈ effects w'.
Proof.
  assert (Hnone : Forall (λ part, inlineData part = None)
                    (all_parts {| candidates := Some [ {| content := None |} ] |}))
    by (vm_compute; constructor).
  assert (Hjob : inflight Sample.skipping !! 0%nat
                 = Some (AwaitTimeSkip Sample.character (js "10 years")))
    by (vm_compute; reflexivity).
  assert (Hres : processTimeSkip Sample.character (js "10 years")
                   (Resolved (Some (Json Sample.evolved)))
                 = Resolved Sample.evolved)
    by reflexivity.
  pose proof (evolve_without_image_keeps_base (js "img") (js "older") _ Hnone)
    as (Hevolve & Hedit & Hskip).
  pose proof (Hskip Sample.skipping 0%nat Sample.character (js "10 years")
                (Resolved (Some (Json Sample.evolved))) Sample.evolved
                6000 6000 Hjob Hres)
    as (Himage & _ & Halerts & Heffects).
  cbv zeta in *.
  split_and!;
    [exact Hnone|exact Hevolve|exact Hedit|exact Himage|exact Halerts|].
  rewrite Heffects. apply elem_of_app. right. apply elem_of_app. left.
  assert (Hprompt : truthy_opt (visualEvolutionPrompt Sample.evolved) = true)
    by (vm_compute; reflexivity).
  rewrite Hprompt. apply elem_of_cons. right. apply list_elem_of_singleton.
  reflexivity.
Defined.

(** ** The death tag *)

(** A reply that holds the death tag: one [model] message marked with
    [isDeath] is appended, the chat is dead, and no speech is requested. *)
Lemma death_reply w job tts text now_id now_ts :
  inflight w !! job = Some (AwaitChat tts) →
  includes (or_else text []) deathTag = true →
  let w' := step (ChatSettled job (Resolved text) now_id now_ts) w in
  (∃ botMsg,
     messages w' = messages w ++ [botMsg]
     ∧ Message.role botMsg = Role.model
     ∧ Message.isDeath botMsg = Some true
     ∧ Message.text botMsg = trim (JS.replace (or_else text []) deathTag []))
  ∧ isDead w' = true
  ∧ inflight w' = delete job (inflight w)
  ∧ effects w'
    = effects w ++ [onSessionUpdate (messages w') (activeCharacter w)
                      (activeUserPersona w)].
Proof.
  intros Hjob Htag. unfold step. rewrite Hjob.
  unfold handleSendMessage_settled, chatWithCharacter. rewrite Htag.
  unfold seq; cbn [foldl]; proj. destruct w; simpl in *.
  split; [by eexists|]. done.
Qed.

(** C1.  The reply "You die. [GAME_OVER] [GAME_OVER]" holds the death tag;
    the message appended for it is marked with [isDeath], but its text
    still holds the tag: only the first occurrence was removed. *)
Theorem death_tag_left_in_text :
  let reply := js "You die. [GAME_OVER] [GAME_OVER]" in
  let w := run [ ChangeInput (js "hello"); KeyDownEnter 3000 3000;
                 ChatSettled 0 (Resolved (Some reply)) 4000 4000 ]
             Sample.chat in
  includes reply deathTag = true
  ∧ ∃ botMsg,
      last (messages w) = Some botMsg
      ∧ Message.isDeath botMsg = Some true
      ∧ Message.text botMsg = js "You die.  [GAME_OVER]"
      ∧ includes (Message.text botMsg) deathTag = true.
Proof.
  split; [by vm_compute|].
  eexists. split; [by vm_compute|]. by vm_compute.
Qed.

(** ** The locked chat *)

Lemma dead_inv_step e w : dead_inv w → dead_inv (step e w).
Proof.
  unfold dead_inv. intros Hinv.
  destruct e; unfold step.
  all: repeat case_match; try done.
  all: unfold_handlers.
  all: repeat case_match; try done.
  all: unfold seq; cbn [foldl]; proj; destruct w; simpl in *; try done.
  all: try (intros ->; by rewrite ?orb_true_r).
  all: intros Hlast; by apply Hinv in Hlast.
Qed.

Lemma reachable_dead_inv w : reachable w → dead_inv w.
Proof.
  induction 1 as [p|e w _ IH]; [|by apply dead_inv_step].
  unfold dead_inv, mount. proj. simpl. by intros ->.
Qed.

(** While [isDead] is set, the controls of the chat do nothing: no turn and
    no action scene starts, and no text is entered or recorded. *)
Lemma dead_chat_is_locked w :
  isDead w = true →
  (∀ value, step (ChangeInput value) w = w)
  ∧ (∀ now_id now_ts, step (KeyDownEnter now_id now_ts) w = w)
  ∧ (∀ now_id now_ts, step (ClickSend now_id now_ts) w = w)
  ∧ step ClickCamera w = w
  ∧ (∀ value, step (ChangeActionPrompt value) w = w)
  ∧ (∀ now_id now_ts, step (SubmitAction now_id now_ts) w = w)
  ∧ (∀ granted, step (MicDown granted) w = w)
  ∧ step MicUp w = w.
Proof.
  intros Hdead. unfold step, send_disabled, action_layer. rewrite Hdead.
  by rewrite !orb_true_r.
Qed.

(** C4.  Two turns are in flight when the reply of the first one brings the
    death: the chat is DEAD and its log ends with the death, and yet the
    reply of the second turn is appended to the log as a [model] message. *)
Theorem reply_lands_on_dead_chat :
  let w := run [ ChangeInput (js "hello"); KeyDownEnter 3000 3000;
                 ChangeInput (js "anyone?"); KeyDownEnter 3500 3500;
                 ChatSettled 0 (Resolved (Some (js "You die. [GAME_OVER]")))
                   4000 4000 ]
             Sample.chat in
  let w' := step (ChatSettled 0 (Resolved (Some (js "Hello"))) 5000 5000) w in
  reachable w
  ∧ derivedState w = DEAD
  ∧ last_died (messages w) = true
  ∧ ∃ reply,
      messages w' = messages w ++ [reply]
      ∧ Message.role reply = Role.model
      ∧ Message.text reply = js "Hello"
      ∧ derivedState w' = DEAD
      ∧ last_died (messages w') = false.
Proof.
  split; [apply reachable_run, reachable_mount|].
  split; [by vm_compute|]. split; [by vm_compute|].
  eexists. split; [by vm_compute|]. by vm_compute.
Qed.

(** ** The ids of the messages *)

(** C7.  Two turns whose requests are rejected leave two messages with the
    id ['err'] in the log of a reachable chat. *)
Theorem failed_turns_share_an_id :
  let w := run [ ChangeInput (js "hello"); KeyDownEnter 3000 3000;
                 ChatSettled 0 (Rejected (js "network")) 4000 4000;
                 ChangeInput (js "again"); KeyDownEnter 5000 5000;
                 ChatSettled 0 (Rejected (js "network")) 6000 6000 ]
             Sample.chat in
  reachable w
  ∧ Message.id <$> messages w
    = [js "init"; js "3000"; js "err"; js "5000"; js "err"]
  ∧ ¬ NoDup (Message.id <$> messages w).
Proof.
  split; [apply reachable_run, reachable_mount|].
  assert (Hids : Message.id
                 <$> messages
                       (run [ ChangeInput (js "hello"); KeyDownEnter 3000 3000;
                              ChatSettled 0 (Rejected (js "network")) 4000 4000;
                              ChangeInput (js "again"); KeyDownEnter 5000 5000;
                              ChatSettled 0 (Rejected (js "network")) 6000 6000 ]
                          Sample.chat)
                 = [js "init"; js "3000"; js "err"; js "5000"; js "err"])
    by (by vm_compute).
  split; [done|]. cbv zeta. rewrite Hids.
  intros Hdup. apply (bool_decide_pack _) in Hdup. by vm_compute in Hdup.
Qed.

(** ** The diet of a created character *)

(** The diet of a completed character is the one of the form, with the
    human preferences kept exactly when [eatsHumans] is set. *)
Lemma handleComplete_diet now s c :
  CharacterSetup.effects (CharacterSetup.handleComplete now s)
  = CharacterSetup.effects s ++ [CharacterSetup.onComplete c] →
  ∃ d, Character.diet c = Some d
       ∧ DietConfig.type d = CharacterSetup.dietType s
       ∧ DietConfig.eatsHumans d = CharacterSetup.eatsHumans s
       ∧ (DietConfig.eatsHumans d = false → DietConfig.humanPreferences d = None).
Proof.
  unfold CharacterSetup.handleComplete. destruct s; simpl.
  repeat case_match; simpl; intros Heq%app_inv_head; simplify_eq.
  all: eexists; (split; [done|]); simpl; repeat split; done.
Qed.

(** C8.  The form is set to CARNIVORE, "eats humans" is checked, and the
    form is set back to HERBIVORE: the character it completes is a
    herbivore whose diet carries human preferences. *)
Theorem herbivore_keeps_human_preferences :
  let form :=
    CharacterSetup.run
      [ CharacterSetup.ChangeName (js "Rex");
        CharacterSetup.ChangeDescription (js "A dragon");
        CharacterSetup.SelectTab CharacterSetup.DIET;
        CharacterSetup.SelectDietType CARNIVORE;
        CharacterSetup.CheckEatsHumans true;
        CharacterSetup.SelectDietType HERBIVORE;
        CharacterSetup.ClickConfirm 1000 ]
      (CharacterSetup.initial None) in
  ∃ c d,
    CharacterSetup.completed form = [c]
    ∧ Character.diet c = Some d
    ∧ DietConfig.type d = HERBIVORE
    ∧ DietConfig.eatsHumans d = true
    ∧ DietConfig.humanPreferences d
      = Some {| HumanPreferences.ageGroup := js "Qualquer um";
                HumanPreferences.bodyType := js "Qualquer um";
                HumanPreferences.tastePreference := js "Qualquer um" |}.
Proof.
  eexists _, _. split; [by vm_compute|]. split; [by vm_compute|].
  by vm_compute.
Qed.

(** ** Malformed JSON *)

(** C6, as the claim states it, fails: a time skip whose response is not
    JSON shows no alert, appends a message, changes the character and
    leaves the chat AWAITING_NEW_PERSONA. *)
Lemma malformed_time_skip_is_applied :
  let before := Sample.dead in
  let w' := step (TimeSkipSettled 0 (Resolved (Some (NotJson (js "{oops"))))
                    (Rejected (js "quota")) 6000 6000)
              Sample.skipping in
  alerts w' = []
  ∧ length (messages w') = S (length (messages before))
  ∧ Character.weight (activeCharacter before) = Some []
  ∧ Character.weight (activeCharacter w') = Some (js "?")
  ∧ derivedState before = DEAD
  ∧ derivedState w' = AWAITING_NEW_PERSONA.
Proof. by vm_compute. Qed.

(** C6, amended.  A profile text that is not JSON is reported with the
    alert of the failed profile, after the parse failure and the error have
    been written to the console, and nothing of it reaches the form.  A time
    skip text that is not JSON is no failure: [processTimeSkip] resolves
    with made-up updates (the weight, height and age of the character, or
    "?" where it has none, and fixed texts), and the time skip settles as
    it does for the JSON text of these updates. *)
Theorem malformed_json_handling :
  (∀ s raw,
     truthy raw = true → CharacterSetup.isAutoFilling s = true →
     let s' := CharacterSetup.step
                 (CharacterSetup.AutoFillSettled (Resolved (Some (NotJson raw))))
                 s in
     CharacterSetup.fields s' = CharacterSetup.fields s
     ∧ CharacterSetup.effects s'
       = CharacterSetup.effects s
         ++ [ CharacterSetup.console_error (js "Failed to parse profile JSON");
              CharacterSetup.console_error [];
              CharacterSetup.alert (js "Falha ao gerar perfil automático. Verifique sua cota da API ou tente novamente.") ]
     ∧ CharacterSetup.isAutoFilling s' = false)
  ∧ (∀ c d raw,
       truthy raw = true →
       processTimeSkip c d (Resolved (Some (NotJson raw)))
       = Resolved (survived c d))
  ∧ (∀ w job c d raw image now_id now_ts,
       truthy raw = true →
       inflight w !! job = Some (AwaitTimeSkip c d) →
       step (TimeSkipSettled job (Resolved (Some (NotJson raw))) image
               now_id now_ts) w
       = step (TimeSkipSettled job (Resolved (Some (Json (survived c d))))
                 image now_id now_ts) w).
Proof.
  assert (Hres : ∀ c d raw,
    truthy raw = true →
    processTimeSkip c d (Resolved (Some (NotJson raw)))
    = Resolved (survived c d))
    by (intros c d raw Hraw; unfold processTimeSkip; simpl; by rewrite Hraw).
  split; [|split; [done|]].
  - intros s raw Hraw Hfill. unfold CharacterSetup.step. rewrite Hfill.
    unfold CharacterSetup.handleAutoFill_settled, autoFillCharacterProfile.
    simpl. rewrite Hraw.
    unfold CharacterSetup.seq; cbn [foldl]. destruct s. simpl.
    by rewrite <-!app_assoc.
  - intros w job c d raw image now_id now_ts Hraw Hjob.
    unfold step. rewrite Hjob.
    unfold handleTimeSkip_settled. by rewrite (Hres _ _ _ Hraw).
Qed.

Lemma malformed_json_handling_witness :
  let s := CharacterSetup.step CharacterSetup.ClickAutoFill
             (CharacterSetup.initial None) in
  let s' := CharacterSetup.step
              (CharacterSetup.AutoFillSettled
                 (Resolved (Some (NotJson (js "{oops"))))) s in
  let w := Sample.skipping in
  truthy (js "{oops") = true
  ∧ CharacterSetup.isAutoFilling s = true
  ∧ inflight w !! 0%nat = Some (AwaitTimeSkip Sample.character (js "10 years"))
  ∧ CharacterSetup.fields s' = CharacterSetup.fields s
  ∧ CharacterSetup.isAutoFilling s' = false
  ∧ processTimeSkip Sample.character (js "10 years")
      (Resolved (Some (NotJson (js "{oops"))))
    = Resolved (survived Sample.character (js "10 years"))
  ∧ step (TimeSkipSettled 0 (Resolved (Some (NotJson (js "{oops"))))
            (Rejected []) 6000 6000) w
    = step (TimeSkipSettled 0
              (Resolved (Some (Json (survived Sample.character
                                       (js "10 years")))))
              (Rejected []) 6000 6000) w.
Proof.
  assert (Hraw : truthy (js "{oops") = true) by (vm_compute; reflexivity).
  assert (Hfill : CharacterSetup.isAutoFilling
                    (CharacterSetup.step CharacterSetup.ClickAutoFill
                       (CharacterSetup.initial None)) = true)
    by (vm_compute; reflexivity).
  assert (Hjob : inflight Sample.skipping !! 0%nat
                 = Some (AwaitTimeSkip Sample.character (js "10 years")))
    by (vm_compute; reflexivity).
  destruct malformed_json_handling as (Hprofile & Hupdates & Hskip).
  destruct (Hprofile _ (js "{oops") Hraw Hfill) as (Hfields & _ & Hdone).
  pose proof (Hupdates Sample.character (js "10 years") _ Hraw) as Hres.
  pose proof (Hskip Sample.skipping 0%nat Sample.character (js "10 years") _
                (Rejected []) 6000 6000 Hraw Hjob) as Hsame.
  cbv zeta. auto 10.
Defined.

(** ** The stored collection *)

(** C9.  The deletion of the only session is not saved: it changes the
    collection to the empty one and writes nothing, though the sessions are
    meant to be saved whenever they change; the storage keeps the deleted
    session, and the next start loads it again. *)
Lemma last_session_deletion_not_saved :
  let a := Sample.app in
  let a' := App.step (App.DeleteSession (js "2000") true) a in
  length (App.sessions a) = 1%nat
  ∧ App.sessions a' = []
  ∧ App.localStorage a' !! App.storageKey = Some (Json (App.sessions a))
  ∧ App.localStorage a' !! App.storageKey ≠ Some (Json (App.sessions a'))
  ∧ App.sessions (App.mount (App.localStorage a')) = App.sessions a.
Proof.
  repeat split; by vm_compute.
Qed.

(** What does hold of the storage.  After every change of the session
    collection that leaves it with a session, the whole collection is
    written to the storage under the key ['persona_sessions']; and the
    application that starts on a storage without the key, or with a text
    there that [JSON.parse] rejects, starts with the empty collection. *)
Theorem sessions_saved_when_nonempty :
  (∀ a e,
     let a' := App.step e a in
     App.sessions a' ≠ App.sessions a →
     App.sessions a' ≠ [] →
     App.localStorage a'
     = <[App.storageKey := Json (App.sessions a')]> (App.localStorage a))
  ∧ (∀ storage : gmap jsstring (JsonText (list ChatSession)),
       storage !! App.storageKey = None
       ∨ (∃ raw, storage !! App.storageKey = Some (NotJson raw)) →
       App.sessions (App.mount storage) = []).
Proof.
  split.
  - intros a e. destruct e; unfold App.step.
    all: repeat case_match; try done.
    all: unfold App.handleStartApp, App.handleCreateNew,
           App.handleCharacterComplete, App.handleUserSetupComplete,
           App.handleSelectSession, App.handleDeleteSession,
           App.handleSessionUpdate.
    all: repeat case_match; try done.
    all: unfold App.seq, App.saveEffect; cbn [foldl]; destruct a; simpl in *;
      try done.
    all: case_match; simpl; try done.
    all: intros _ Hne; destruct Hne; apply nil_length_inv.
    all: match goal with H : (0 <? _)%nat = false |- _ =>
           apply Nat.ltb_ge in H; lia end.
  - intros storage Hkey.
    unfold App.mount, App.seq; cbn [foldl].
    unfold App.loadEffect; cbn [App.localStorage].
    destruct Hkey as [Hkey|[raw Hkey]]; rewrite Hkey; [done|].
    cbn [nonempty_text]. by destruct (truthy raw).
Qed.

Lemma sessions_saved_when_nonempty_witness :
  let a := App.run [ App.StartApp; App.CharacterComplete Sample.character ]
             (App.mount ∅) in
  let a' := App.step (App.UserSetupComplete Sample.persona 2000 2000 2000) a in
  let corrupt : gmap jsstring (JsonText (list ChatSession)) :=
    {[ App.storageKey := NotJson (js "[{oops") ]} in
  App.sessions a' ≠ App.sessions a
  ∧ App.sessions a' ≠ []
  ∧ (corrupt !! App.storageKey = None
     ∨ ∃ raw, corrupt !! App.storageKey = Some (NotJson raw))
  ∧ App.localStorage a'
    = <[App.storageKey := Json (App.sessions a')]> (App.localStorage a)
  ∧ App.sessions (App.mount corrupt) = [].
Proof.
  assert (Hchange :
    App.sessions
      (App.step (App.UserSetupComplete Sample.persona 2000 2000 2000)
         (App.run [ App.StartApp; App.CharacterComplete Sample.character ]
            (App.mount ∅)))
    ≠ App.sessions
        (App.run [ App.StartApp; App.CharacterComplete Sample.character ]
           (App.mount ∅)))
    by (vm_compute; discriminate).
  assert (Hsome :
    App.sessions
      (App.step (App.UserSetupComplete Sample.persona 2000 2000 2000)
         (App.run [ App.StartApp; App.CharacterComplete Sample.character ]
            (App.mount ∅)))
    ≠ [])
    by (vm_compute; discriminate).
  assert (Hcorrupt :
    ({[ App.storageKey := NotJson (js "[{oops") ]}
       : gmap jsstring (JsonText (list ChatSession))) !! App.storageKey = None
    ∨ ∃ raw,
        ({[ App.storageKey := NotJson (js "[{oops") ]}
           : gmap jsstring (JsonText (list ChatSession))) !! App.storageKey
        = Some (NotJson raw))
    by (right; eexists; vm_compute; reflexivity).
  destruct sessions_saved_when_nonempty as (Hsave & Hstart).
  pose proof (Hsave _ _ Hchange Hsome) as Hsaved.
  pose proof (Hstart _ Hcorrupt) as Hempty.
  cbv zeta. auto 10.
Defined.

(** * Further properties *)

Lemma last_died_snoc ms m : last_died (ms ++ [m]) = Message.died m.
Proof. unfold last_died. by rewrite last_snoc. Qed.

#[local] Arguments last_died : simpl never.

(** Runs the statements of a handler on a component given by its fields. *)
Ltac exec :=
  repeat (progress (unfold sessionEffect, seq; cbn [foldl]; simpl;
                    rewrite ?last_died_snoc; simpl)).

(** ** Turns of the chat *)

#[local] Transparent trim.

Lemma trim_start_blank s :
  Forall (λ c, is_space c = true) s → trim_start s = [].
Proof. induction 1 as [|c s Hc _ IH]; simpl; [done|]. by rewrite Hc. Qed.

Lemma trim_blank s : Forall (λ c, is_space c = true) s → trim s = [].
Proof. intros Hs. unfold trim. by rewrite (trim_start_blank s Hs). Qed.

#[local] Opaque trim.

Lemma handleSendMessage_blank now_id now_ts w :
  trim (inputText w) = [] → handleSendMessage now_id now_ts w = w.
Proof. intros Hblank. unfold handleSendMessage. by rewrite Hblank. Qed.

(** X1.  An input that holds nothing but white space is not sent: neither
    Enter nor the send button changes the component, so no message is
    appended and no request is made. *)
Theorem blank_input_is_ignored w now_id now_ts :
  Forall (λ c, is_space c = true) (inputText w) →
  step (KeyDownEnter now_id now_ts) w = w
  ∧ step (ClickSend now_id now_ts) w = w.
Proof.
  intros Hblank%trim_blank. unfold step, send_disabled.
  rewrite (handleSendMessage_blank _ _ _ Hblank), Hblank. simpl.
  by destruct (isDead w).
Qed.

Lemma blank_input_is_ignored_witness :
  let w := step (ChangeInput (js "   ")) Sample.chat in
  Forall (λ c, is_space c = true) (inputText w)
  ∧ step (KeyDownEnter 3000 3000) w = w
  ∧ step (ClickSend 3000 3000) w = w.
Proof.
  assert (Hblank : Forall (λ c, is_space c = true)
                     (inputText (step (ChangeInput (js "   ")) Sample.chat)))
    by (vm_compute; repeat constructor).
  destruct (blank_input_is_ignored _ 3000 3000 Hblank) as [Henter Hsend].
  cbv zeta. auto.
Defined.

Lemma lookup_snoc_length {A} (l : list A) x : (l ++ [x]) !! length l = Some x.
Proof. by rewrite lookup_app_r, Nat.sub_diag. Qed.

Lemma delete_snoc_length {A} (l : list A) x : delete (length l) (l ++ [x]) = l.
Proof. induction l as [|a l IH]; simpl; [done|]. by rewrite IH. Qed.

(** X2.  A whole turn on a chat that is not dead: Enter on a text that is
    not blank, then a reply without the death tag.  The log grows by the
    user's message, with the text as it was typed, and by one [model]
    message with the trimmed reply and [isDeath] false; the input is
    cleared, the chat is not dead, and the narrative state is the one
    before the turn. *)
Theorem turn_appends_message_and_reply w text now1 ts1 now2 ts2 :
  isDead w = false →
  truthy (trim (inputText w)) = true →
  includes (or_else text []) deathTag = false →
  let w1 := step (KeyDownEnter now1 ts1) w in
  let w2 := step (ChatSettled (length (inflight w)) (Resolved text) now2 ts2)
              w1 in
  (∃ userMsg botMsg,
     messages w2 = messages w ++ [userMsg; botMsg]
     ∧ Message.role userMsg = Role.user
     ∧ Message.text userMsg = inputText w
     ∧ Message.role botMsg = Role.model
     ∧ Message.text botMsg = trim (JS.replace (or_else text []) deathTag [])
     ∧ Message.isDeath botMsg = Some false)
  ∧ inputText w2 = []
  ∧ isDead w2 = false
  ∧ derivedState w2 = derivedState w.
Proof.
  intros Hdead Hinput Htag. cbv zeta.
  assert (Hw1 : step (KeyDownEnter now1 ts1) w
                = handleSendMessage now1 ts1 w)
    by (unfold step; by rewrite Hdead).
  rewrite Hw1. unfold handleSendMessage. rewrite Hinput. simpl negb. cbv iota.
  unfold step, derivedState. destruct w; simpl in *. subst. exec.
  rewrite lookup_snoc_length.
  unfold handleSendMessage_settled, chatWithCharacter. rewrite Htag.
  destruct autoPlayTTS0; exec; rewrite <-?app_assoc; simpl;
    (split; [by eexists _, _|]); done.
Qed.

Lemma turn_appends_message_and_reply_witness :
  let w := step (ChangeInput (js "hello")) Sample.chat in
  let w1 := step (KeyDownEnter 3000 3000) w in
  let w2 := step (ChatSettled (length (inflight w))
                    (Resolved (Some (js "Hi there"))) 4000 4000) w1 in
  isDead w = false
  ∧ truthy (trim (inputText w)) = true
  ∧ includes (or_else (Some (js "Hi there")) []) deathTag = false
  ∧ isDead w2 = false
  ∧ derivedState w2 = derivedState w.
Proof.
  assert (Hdead : isDead (step (ChangeInput (js "hello")) Sample.chat) = false)
    by (vm_compute; reflexivity).
  assert (Hinput : truthy (trim (inputText
                     (step (ChangeInput (js "hello")) Sample.chat))) = true)
    by (vm_compute; reflexivity).
  assert (Htag : includes (or_else (Some (js "Hi there")) []) deathTag = false)
    by (vm_compute; reflexivity).
  pose proof (turn_appends_message_and_reply _ (Some (js "Hi there"))
                3000 3000 4000 4000 Hdead Hinput Htag)
    as (_ & _ & Halive & Hstate).
  cbv zeta. auto.
Defined.

(** X3.  A turn whose request is rejected: the user's message stays in the
    log, followed by one [model] message with the fixed id ['err']; the
    chat stops processing, is not dead, requests no speech and keeps its
    narrative state: nothing is rolled back and nothing is retried. *)
Theorem failed_turn_keeps_the_message w reason now1 ts1 now2 ts2 :
  isDead w = false →
  truthy (trim (inputText w)) = true →
  let w1 := step (KeyDownEnter now1 ts1) w in
  let w2 := step (ChatSettled (length (inflight w)) (Rejected reason) now2 ts2)
              w1 in
  (∃ userMsg errMsg,
     messages w2 = messages w ++ [userMsg; errMsg]
     ∧ Message.role userMsg = Role.user
     ∧ Message.text userMsg = inputText w
     ∧ Message.role errMsg = Role.model
     ∧ Message.id errMsg = js "err"
     ∧ Message.isDeath errMsg = None)
  ∧ inflight w2 = inflight w
  ∧ isProcessing w2 = false
  ∧ isDead w2 = false
  ∧ derivedState w2 = derivedState w.
Proof.
  intros Hdead Hinput. cbv zeta.
  assert (Hw1 : step (KeyDownEnter now1 ts1) w
                = handleSendMessage now1 ts1 w)
    by (unfold step; by rewrite Hdead).
  rewrite Hw1. unfold handleSendMessage. rewrite Hinput. simpl negb. cbv iota.
  unfold step, derivedState. destruct w; simpl in *. subst. exec.
  rewrite lookup_snoc_length.
  unfold handleSendMessage_settled, chatWithCharacter.
  exec. rewrite delete_snoc_length, <-?app_assoc. simpl.
  split; [by eexists _, _|]. done.
Qed.

Lemma failed_turn_keeps_the_message_witness :
  let w := step (ChangeInput (js "hello")) Sample.chat in
  let w1 := step (KeyDownEnter 3000 3000) w in
  let w2 := step (ChatSettled (length (inflight w)) (Rejected (js "network"))
                    4000 4000) w1 in
  isDead w = false
  ∧ truthy (trim (inputText w)) = true
  ∧ length (messages w2) = (length (messages w) + 2)%nat
  ∧ isProcessing w2 = false.
Proof.
  assert (Hdead : isDead (step (ChangeInput (js "hello")) Sample.chat) = false)
    by (vm_compute; reflexivity).
  assert (Hinput : truthy (trim (inputText
                     (step (ChangeInput (js "hello")) Sample.chat))) = true)
    by (vm_compute; reflexivity).
  pose proof (failed_turn_keeps_the_message _ (js "network")
                3000 3000 4000 4000 Hdead Hinput)
    as ((userMsg & errMsg & Hlog & _) & _ & Hidle & _).
  cbv zeta in *. rewrite Hlog, length_app. simpl. auto.
Defined.

(** ** The log *)

(** What one event does to the log: it appends at most one message, to the
    log or to the log without the placeholder. *)
Lemma step_log e w :
  ∃ added,
    (length added ≤ 1)%nat
    ∧ (messages (step e w) = messages w ++ added
       ∨ messages (step e w) = settled_log (messages w) ++ added).
Proof.
  unfold settled_log.
  destruct e; unfold step.
  all: repeat case_match;
    try by (exists []; split; [simpl; lia|left; by rewrite app_nil_r]).
  all: unfold_handlers.
  all: repeat case_match;
    try by (exists []; split; [simpl; lia|left; by rewrite app_nil_r]).
  all: destruct w; exec; repeat (case_match; exec).
  all: try by (exists []; split; [simpl; lia|left; by rewrite app_nil_r]).
  all: try by (eexists [_]; split; [simpl; lia|left; reflexivity]).
  all: try by (eexists [_]; split; [simpl; lia|right; reflexivity]).
  all: by (exists []; split; [simpl; lia|right; by rewrite app_nil_r]).
Qed.

Lemma settled_log_idemp ms : settled_log (settled_log ms) = settled_log ms.
Proof.
  unfold settled_log. apply list_filter_filter_l. auto.
Qed.

Lemma run_cons e events w : run (e :: events) w = run events (step e w).
Proof. done. Qed.

(** X4.  The log only grows: whatever happens to the chat, the messages of
    the log other than the placeholder of a time skip stay in the log, in
    their order, and new ones come after them. *)
Theorem log_is_append_only events w :
  settled_log (messages w) `prefix_of` settled_log (messages (run events w)).
Proof.
  revert w. induction events as [|e events IH]; intros w; [done|].
  rewrite run_cons. etrans; [|apply IH].
  destruct (step_log e w) as (added & _ & [->| ->]);
    unfold settled_log; rewrite filter_app; fold (settled_log (messages w)).
  - by apply prefix_app_r.
  - fold (settled_log (settled_log (messages w))).
    rewrite settled_log_idemp. by apply prefix_app_r.
Qed.

(** ** The character of a session *)

(** What one event does to the character: nothing, or the update of a time
    skip in flight applied to the character the time skip captured. *)
Lemma step_character e w :
  activeCharacter (step e w) = activeCharacter w
  ∨ ∃ job c d updates image,
      inflight w !! job = Some (AwaitTimeSkip c d)
      ∧ activeCharacter (step e w) = newCharacter c updates image.
Proof.
  destruct e; unfold step.
  all: repeat case_match; try by left.
  all: unfold_handlers.
  all: repeat case_match; try by left.
  all: try (left; destruct w; exec; repeat (case_match; exec); done).
  all: right; eexists _, _, _, _, _; split; [eassumption|].
  all: destruct w; exec; repeat (case_match; exec); done.
Qed.

Lemma same_identity_trans c1 c2 c3 :
  same_identity c1 c2 → same_identity c2 c3 → same_identity c1 c3.
Proof. unfold same_identity. intuition congruence. Qed.

Lemma step_identity e w :
  reachable w → same_identity (activeCharacter w) (activeCharacter (step e w)).
Proof.
  intros Hreach.
  destruct (step_character e w) as [->|(job & c & d & updates & image & Hjob & ->)].
  - by repeat split.
  - destruct (time_skip_captured w job c d Hreach Hjob) as (-> & _).
    by repeat split.
Qed.

(** X5.  The identity of the character never changes: whatever happens to
    a chat mounted on a session, its character keeps the id, name,
    description, system instruction, powers, life expectancy, diet,
    encounter and answers of the session; only height, weight, age and
    image can change. *)
Theorem character_identity_is_kept p events :
  same_identity (initialCharacter p) (activeCharacter (run events (mount p))).
Proof.
  assert (Hrun : ∀ events w,
    reachable w →
    same_identity (activeCharacter w) (activeCharacter (run events w))).
  { clear. induction events as [|e events IH]; intros w Hreach.
    - by repeat split.
    - rewrite run_cons. eapply same_identity_trans.
      + by apply step_identity.
      + apply IH. by constructor. }
  replace (initialCharacter p) with (activeCharacter (mount p))
    by (unfold mount; by proj).
  apply Hrun, reachable_mount.
Qed.

(** ** Death *)

(** X6.  Only a reply with the death tag kills: if an event sets [isDead]
    on a reachable chat that was not dead, the event is the reply to a turn
    in flight, and the reply holds the death tag. *)
Theorem only_a_tagged_reply_kills e w :
  reachable w →
  isDead w = false →
  isDead (step e w) = true →
  ∃ job autoPlay text now_id now_ts,
    e = ChatSettled job (Resolved text) now_id now_ts
    ∧ inflight w !! job = Some (AwaitChat autoPlay)
    ∧ includes (or_else text []) deathTag = true.
Proof.
  intros Hreach Hdead.
  assert (Hlast : last_died (messages w) = false).
  { destruct (last_died (messages w)) eqn:Hlast; [|done].
    apply (reachable_dead_inv w Hreach) in Hlast. congruence. }
  assert (Hskip : ∀ job c d, inflight w !! job ≠ Some (AwaitTimeSkip c d)).
  { intros job c d Hjob.
    destruct (time_skip_captured w job c d Hreach Hjob) as (_ & _ & ? & _).
    congruence. }
  destruct e; unfold step.
  all: repeat case_match; try congruence.
  all: try by (exfalso; eapply Hskip).
  all: unfold_handlers.
  all: repeat case_match; try congruence.
  all: try (destruct w; exec; repeat (case_match; exec); simpl in *; congruence).
  intros _. match goal with r : Settled (option jsstring) |- _ => destruct r end;
    simplify_eq/=. eauto 10.
Qed.

Lemma only_a_tagged_reply_kills_witness :
  let w := run [ ChangeInput (js "hello"); KeyDownEnter 3000 3000 ]
             Sample.chat in
  let e := ChatSettled 0 (Resolved (Some (js "You die. [GAME_OVER]")))
             4000 4000 in
  reachable w
  ∧ isDead w = false
  ∧ isDead (step e w) = true
  ∧ ∃ job autoPlay text now_id now_ts,
      e = ChatSettled job (Resolved text) now_id now_ts
      ∧ inflight w !! job = Some (AwaitChat autoPlay)
      ∧ includes (or_else text []) deathTag = true.
Proof.
  assert (Hreach : reachable (run [ ChangeInput (js "hello");
                                    KeyDownEnter 3000 3000 ] Sample.chat))
    by (apply reachable_run, reachable_mount).
  assert (Hdead : isDead (run [ ChangeInput (js "hello");
                                KeyDownEnter 3000 3000 ] Sample.chat) = false)
    by (vm_compute; reflexivity).
  assert (Hkill : isDead (step (ChatSettled 0
                                  (Resolved (Some (js "You die. [GAME_OVER]")))
                                  4000 4000)
                            (run [ ChangeInput (js "hello");
                                   KeyDownEnter 3000 3000 ] Sample.chat))
                  = true)
    by (vm_compute; reflexivity).
  pose proof (only_a_tagged_reply_kills _ _ Hreach Hdead Hkill) as Hwhy.
  cbv zeta. auto.
Defined.

(** ** What the parent sees *)

(** What one event does to the snapshots: it leaves the session and the
    snapshots alone, or its last snapshot is the session it leaves. *)
Lemma step_snapshot e w :
  (snapshot (step e w) = snapshot w
   ∧ session_updates (step e w) = session_updates w)
  ∨ last (session_updates (step e w)) = Some (snapshot (step e w)).
Proof.
  unfold snapshot, session_updates.
  destruct e; unfold step.
  all: repeat case_match; try by left.
  all: unfold_handlers.
  all: repeat case_match; try by left.
  all: destruct w; exec; repeat (case_match; exec).
  all: rewrite ?omap_app; simpl; rewrite ?app_nil_r.
  all: try by left.
  all: right; by rewrite last_snoc.
Qed.

(** X7.  The parent always holds the session as it is: on every reachable
    chat, the last call of [onSessionUpdate] carried the messages, the
    character and the persona that the component holds. *)
Theorem parent_sees_the_session w :
  reachable w → last (session_updates w) = Some (snapshot w).
Proof.
  induction 1 as [p|e w _ IH].
  - unfold session_updates, snapshot, mount. proj. by simpl.
  - destruct (step_snapshot e w) as [[-> ->]|]; done.
Qed.

Lemma parent_sees_the_session_witness :
  reachable Sample.awaiting
  ∧ last (session_updates Sample.awaiting) = Some (snapshot Sample.awaiting).
Proof.
  assert (Hreach : reachable Sample.awaiting)
    by (apply reachable_step; do 2 apply reachable_run; apply reachable_mount).
  pose proof (parent_sees_the_session _ Hreach) as Hlast.
  auto.
Defined.

(** ** Pressing twice *)

#[local] Transparent trim.
Lemma trim_nil : trim [] = [].
Proof. reflexivity. Qed.
#[local] Opaque trim.

Lemma handleSendMessage_clears now_id now_ts w :
  negb (truthy (trim (inputText w))) = false →
  inputText (handleSendMessage now_id now_ts w) = [].
Proof.
  intros Hinput. unfold handleSendMessage. rewrite Hinput.
  destruct w; exec. done.
Qed.

Lemma handleTimeSkip_pending now_ts w :
  negb (truthy (timeSkipDuration w)) = false →
  isSkippingTime (handleTimeSkip now_ts w) = true.
Proof.
  intros Hinput. unfold handleTimeSkip. rewrite Hinput.
  destruct w; exec. done.
Qed.

(** X8.  Pressing twice sends once: a second Enter, a second click on the
    send button or a second click on the time skip button, with nothing
    typed and nothing settled in between, changes nothing. *)
Theorem second_press_is_ignored w now1 ts1 now2 ts2 :
  step (KeyDownEnter now2 ts2) (step (KeyDownEnter now1 ts1) w)
  = step (KeyDownEnter now1 ts1) w
  ∧ step (ClickSend now2 ts2) (step (ClickSend now1 ts1) w)
    = step (ClickSend now1 ts1) w
  ∧ step (ClickTimeSkip ts2) (step (ClickTimeSkip ts1) w)
    = step (ClickTimeSkip ts1) w.
Proof.
  assert (Hsent : ∀ w1, inputText w1 = [] →
            step (KeyDownEnter now2 ts2) w1 = w1
            ∧ step (ClickSend now2 ts2) w1 = w1).
  { intros w1 Hclear. unfold step, send_disabled.
    rewrite handleSendMessage_blank, Hclear, trim_nil
      by (rewrite Hclear; apply trim_nil).
    simpl. by destruct (isDead w1). }
  repeat split.
  - unfold step at 2 3. destruct (isDead w) eqn:Hdead.
    { unfold step. by rewrite Hdead. }
    destruct (negb (truthy (trim (inputText w)))) eqn:Hblank.
    + unfold handleSendMessage. rewrite Hblank. unfold step.
      rewrite Hdead. unfold handleSendMessage. by rewrite Hblank.
    + by apply Hsent, handleSendMessage_clears.
  - unfold step at 2 3. destruct (send_disabled w) eqn:Hoff.
    { unfold step. by rewrite Hoff. }
    apply orb_false_iff in Hoff as [[Hblank _]%orb_false_iff _].
    by apply Hsent, handleSendMessage_clears.
  - unfold step at 2 3.
    destruct (time_skip_overlay w && negb (time_skip_disabled w)) eqn:Hon.
    2: { unfold step. by rewrite Hon. }
    assert (Hblank : negb (truthy (timeSkipDuration w)) = false).
    { apply andb_true_iff in Hon as [_ Hon].
      by apply negb_true_iff, orb_false_iff in Hon as [? _]. }
    unfold step, time_skip_disabled.
    rewrite (handleTimeSkip_pending _ _ Hblank).
    by rewrite orb_true_r, andb_false_r.
Qed.

(** ** Speech *)

(** X9.  Speech never touches the session: however the request for the
    speech of a reply settles, and whether or not the audio can be decoded,
    the log, the character, the persona, the alerts and the narrative state
    stay as they are. *)
Theorem speech_leaves_the_session job response decoded w :
  let w' := step (SpeechSettled job response decoded) w in
  snapshot w' = snapshot w
  ∧ alerts w' = alerts w
  ∧ derivedState w' = derivedState w.
Proof.
  unfold step. destruct (inflight w !! job) as [[]|] eqn:Hjob; try done.
  unfold handleSendMessage_spoken.
  destruct (speakText response) as [|[audio|]]; destruct decoded;
    destruct w; exec; unfold snapshot, alerts, derivedState; simpl;
    rewrite ?omap_app; simpl; by rewrite ?app_nil_r.
Qed.

(** ** The image of a time skip *)

(** X10.  A time skip whose updates carry no visual evolution prompt (none,
    or an empty one) makes no request for a new image: the only effect of
    its settling is the snapshot for the parent, and the character keeps
    its image. *)
Theorem no_prompt_no_image_request w job c d response image now_id now_ts
    updates :
  inflight w !! job = Some (AwaitTimeSkip c d) →
  processTimeSkip c d response = Resolved updates →
  truthy_opt (visualEvolutionPrompt updates) = false →
  let w' := step (TimeSkipSettled job response image now_id now_ts) w in
  effects w'
  = effects w ++ [onSessionUpdate (messages w') (activeCharacter w')
                    (activeUserPersona w')]
  ∧ Character.baseImage (activeCharacter w') = Character.baseImage c.
Proof.
  intros Hjob Hres Hprompt. unfold step. rewrite Hjob.
  unfold handleTimeSkip_settled. rewrite Hres.
  unfold newCharacter, newImage, evolution. rewrite Hprompt.
  destruct w; exec. repeat (case_match; exec); done.
Qed.

Lemma no_prompt_no_image_request_witness :
  let w := Sample.skipping in
  let w' := step (TimeSkipSettled 0 (Resolved (Some (Json Sample.updates)))
                    (Rejected []) 6000 6000) w in
  inflight w !! 0%nat = Some (AwaitTimeSkip Sample.character (js "10 years"))
  ∧ truthy_opt (visualEvolutionPrompt Sample.updates) = false
  ∧ Character.baseImage (activeCharacter w')
    = Character.baseImage Sample.character.
Proof.
  assert (Hjob : inflight Sample.skipping !! 0%nat
                 = Some (AwaitTimeSkip Sample.character (js "10 years")))
    by (vm_compute; reflexivity).
  assert (Hres : processTimeSkip Sample.character (js "10 years")
                   (Resolved (Some (Json Sample.updates)))
                 = Resolved Sample.updates)
    by reflexivity.
  assert (Hprompt : truthy_opt (visualEvolutionPrompt Sample.updates) = false)
    by (vm_compute; reflexivity).
  pose proof (no_prompt_no_image_request Sample.skipping 0 Sample.character
                (js "10 years") _ (Rejected []) 6000 6000 Sample.updates
                Hjob Hres Hprompt) as (_ & Himage).
  cbv zeta. auto.
Defined.

(** X11.  A rejected image evolution does not fail the time skip: with a
    visual evolution prompt in the updates and the image request rejected,
    the settling logs a warning and shows no alert; the character keeps
    its image and gets the new height, weight and age; the state is
    AWAITING_NEW_PERSONA. *)
Theorem rejected_evolution_is_not_fatal w job c d response reason now_id
    now_ts updates :
  inflight w !! job = Some (AwaitTimeSkip c d) →
  processTimeSkip c d response = Resolved updates →
  truthy_opt (visualEvolutionPrompt updates) = true →
  let w' := step (TimeSkipSettled job response (Rejected reason) now_id now_ts)
              w in
  console_warn (js "Visual evolution failed") ∈ effects w'
  ∧ alerts w' = alerts w
  ∧ Character.baseImage (activeCharacter w') = Character.baseImage c
  ∧ Character.height (activeCharacter w') = newHeight updates
  ∧ Character.weight (activeCharacter w') = newWeight updates
  ∧ Character.age (activeCharacter w') = newAge updates
  ∧ derivedState w' = AWAITING_NEW_PERSONA.
Proof.
  intros Hjob Hres Hprompt. unfold step, alerts, derivedState. rewrite Hjob.
  unfold handleTimeSkip_settled. rewrite Hres.
  unfold newCharacter, newImage, evolution. rewrite Hprompt.
  unfold evolveCharacterVisuals.
  destruct w; exec. repeat (case_match; exec).
  all: rewrite ?omap_app; simpl; rewrite ?app_nil_r.
  all: split; [|done].
  all: rewrite !elem_of_app, !list_elem_of_singleton; auto.
Qed.

Lemma rejected_evolution_is_not_fatal_witness :
  let w := Sample.skipping in
  let response : Settled (option (JsonText TimeSkipUpdates)) :=
    Resolved (Some (NotJson (js "{oops"))) in
  let updates := survived Sample.character (js "10 years") in
  let w' := step (TimeSkipSettled 0 response (Rejected (js "quota")) 6000 6000)
              w in
  inflight w !! 0%nat = Some (AwaitTimeSkip Sample.character (js "10 years"))
  ∧ processTimeSkip Sample.character (js "10 years") response
    = Resolved updates
  ∧ truthy_opt (visualEvolutionPrompt updates) = true
  ∧ Character.baseImage (activeCharacter w')
    = Character.baseImage Sample.character
  ∧ derivedState w' = AWAITING_NEW_PERSONA.
Proof.
  assert (Hjob : inflight Sample.skipping !! 0%nat
                 = Some (AwaitTimeSkip Sample.character (js "10 years")))
    by (vm_compute; reflexivity).
  assert (Hres : processTimeSkip Sample.character (js "10 years")
                   (Resolved (Some (NotJson (js "{oops"))))
                 = Resolved (survived Sample.character (js "10 years")))
    by (vm_compute; reflexivity).
  assert (Hprompt : truthy_opt (visualEvolutionPrompt
                      (survived Sample.character (js "10 years"))) = true)
    by (vm_compute; reflexivity).
  pose proof (rejected_evolution_is_not_fatal Sample.skipping 0
                Sample.character (js "10 years") _ (js "quota") 6000 6000 _
                Hjob Hres Hprompt) as (_ & _ & Himage & _ & _ & _ & Hstate).
  cbv zeta. auto.
Defined.

(** X12.  An evolved image replaces the image of the character: with a
    visual evolution prompt in the updates and an image response whose
    first candidate carries inline data, the character gets the data of the
    first part that has some. *)
Theorem evolved_image_is_applied w job c d response image now_id now_ts
    updates img :
  inflight w !! job = Some (AwaitTimeSkip c d) →
  processTimeSkip c d response = Resolved updates →
  truthy_opt (visualEvolutionPrompt updates) = true →
  first_inline_data (first_parts image) = Some img →
  let w' := step (TimeSkipSettled job response (Resolved image) now_id now_ts)
              w in
  Character.baseImage (activeCharacter w') = img
  ∧ call_evolveCharacterVisuals (Character.baseImage c)
      (default [] (visualEvolutionPrompt updates)) ∈ effects w'.
Proof.
  intros Hjob Hres Hprompt Himg. unfold step. rewrite Hjob.
  unfold handleTimeSkip_settled. rewrite Hres.
  unfold newCharacter, newImage, evolution. rewrite Hprompt.
  unfold evolveCharacterVisuals. rewrite Himg.
  destruct w; exec. repeat (case_match; exec).
  all: split; [done|].
  all: rewrite !elem_of_app, !list_elem_of_singleton; auto.
Qed.

Lemma evolved_image_is_applied_witness :
  let w := Sample.skipping in
  let response : Settled (option (JsonText TimeSkipUpdates)) :=
    Resolved (Some (NotJson (js "{oops"))) in
  let updates := survived Sample.character (js "10 years") in
  let image :=
    {| candidates :=
         Some [ {| content :=
                     Some {| parts :=
                               Some [ {| inlineData := None |};
                                      {| inlineData :=
                                           Some {| data := js "older" |} |} ]
                          |} |} ] |} in
  let w' := step (TimeSkipSettled 0 response (Resolved image) 6000 6000) w in
  inflight w !! 0%nat = Some (AwaitTimeSkip Sample.character (js "10 years"))
  ∧ processTimeSkip Sample.character (js "10 years") response
    = Resolved updates
  ∧ truthy_opt (visualEvolutionPrompt updates) = true
  ∧ first_inline_data (first_parts image) = Some (js "older")
  ∧ Character.baseImage (activeCharacter w') = js "older".
Proof.
  assert (Hjob : inflight Sample.skipping !! 0%nat
                 = Some (AwaitTimeSkip Sample.character (js "10 years")))
    by (vm_compute; reflexivity).
  assert (Hres : processTimeSkip Sample.character (js "10 years")
                   (Resolved (Some (NotJson (js "{oops"))))
                 = Resolved (survived Sample.character (js "10 years")))
    by (vm_compute; reflexivity).
  assert (Hprompt : truthy_opt (visualEvolutionPrompt
                      (survived Sample.character (js "10 years"))) = true)
    by (vm_compute; reflexivity).
  assert (Himg :
    first_inline_data
      (first_parts
         {| candidates :=
              Some [ {| content :=
                          Some {| parts :=
                                    Some [ {| inlineData := None |};
                                           {| inlineData :=
                                                Some {| data := js "older" |} |} ]
                               |} |} ] |})
    = Some (js "older"))
    by reflexivity.
  pose proof (evolved_image_is_applied Sample.skipping 0 Sample.character
                (js "10 years") _ _ 6000 6000 _ _ Hjob Hres Hprompt Himg)
    as (Himage & _).
  cbv zeta. auto.
Defined.

(** ** Action scenes *)

(** X13.  A whole action scene on a chat that shows the action input with
    a prompt that is not blank: the log grows by the user's action and by
    one [model] message, which carries the image when the request gave
    one and has the id ['err'] when it did not; the action input is closed
    and the scene is no longer generating; the prompt is cleared on
    success and kept on failure. *)
Theorem action_scene_appends_two_messages w response now1 ts1 now2 ts2 :
  action_layer w = true →
  truthy (trim (actionPrompt w)) = true →
  let w1 := step (SubmitAction now1 ts1) w in
  let w2 := step (SceneSettled (length (inflight w)) response now2 ts2) w1 in
  (∃ userActionMsg second,
     messages w2 = messages w ++ [userActionMsg; second]
     ∧ Message.role userActionMsg = Role.user
     ∧ Message.role second = Role.model
     ∧ match generateActionScene response with
       | Resolved imageBase64 =>
           Message.generatedImage second = Some imageBase64
           ∧ actionPrompt w2 = []
       | Rejected _ =>
           Message.id second = js "err"
           ∧ Message.generatedImage second = None
           ∧ actionPrompt w2 = actionPrompt w
       end)
  ∧ showActionInput w2 = false
  ∧ isGeneratingScene w2 = false
  ∧ inflight w2 = inflight w.
Proof.
  intros Hlayer Hprompt. cbv zeta.
  assert (Hw1 : step (SubmitAction now1 ts1) w
                = handleGenerateAction now1 ts1 w)
    by (unfold step; by rewrite Hlayer).
  rewrite Hw1. unfold handleGenerateAction. rewrite Hprompt.
  simpl negb. cbv iota.
  unfold step. destruct w; simpl in *. exec.
  rewrite lookup_snoc_length. unfold handleGenerateAction_settled.
  destruct (generateActionScene response); exec;
    rewrite delete_snoc_length, <-?app_assoc; simpl;
    (split; [by eexists _, _|]); done.
Qed.

Lemma action_scene_appends_two_messages_witness :
  let w := run [ ClickCamera; ChangeActionPrompt (js "I wave") ] Sample.chat in
  let w1 := step (SubmitAction 3000 3000) w in
  let w2 := step (SceneSettled (length (inflight w)) (Rejected (js "quota"))
                    4000 4000) w1 in
  action_layer w = true
  ∧ truthy (trim (actionPrompt w)) = true
  ∧ showActionInput w2 = false
  ∧ isGeneratingScene w2 = false.
Proof.
  assert (Hlayer : action_layer (run [ ClickCamera;
                                       ChangeActionPrompt (js "I wave") ]
                                   Sample.chat) = true)
    by (vm_compute; reflexivity).
  assert (Hprompt : truthy (trim (actionPrompt
                      (run [ ClickCamera; ChangeActionPrompt (js "I wave") ]
                         Sample.chat))) = true)
    by (vm_compute; reflexivity).
  pose proof (action_scene_appends_two_messages _ (Rejected (js "quota"))
                3000 3000 4000 4000 Hlayer Hprompt)
    as (_ & Hclosed & Hidle & _).
  cbv zeta. auto.
Defined.

(** ** The stored collection, on every reachable application *)

Ltac unfold_app_handlers :=
  unfold App.handleStartApp, App.handleCreateNew,
    App.handleCharacterComplete, App.handleUserSetupComplete,
    App.handleSelectSession, App.handleDeleteSession,
    App.handleSessionUpdate.

(** What one event does to the storage: it leaves the collection and the
    storage alone, or empties the collection and leaves the storage alone,
    or writes the collection it leaves. *)
Lemma app_step_storage e a :
  (App.sessions (App.step e a) = App.sessions a
   ∧ App.localStorage (App.step e a) = App.localStorage a)
  ∨ (App.sessions (App.step e a) = []
     ∧ App.localStorage (App.step e a) = App.localStorage a)
  ∨ App.localStorage (App.step e a)
    = <[App.storageKey := Json (App.sessions (App.step e a))]>
        (App.localStorage a).
Proof.
  destruct e; unfold App.step.
  all: repeat case_match; try by left.
  all: unfold_app_handlers.
  all: repeat case_match; try by left.
  all: unfold App.seq, App.saveEffect; cbn [foldl]; destruct a; simpl in *;
    try by left.
  all: try by (right; right).
  all: case_match; simpl; [by right; right|right; left].
  all: split; [|done]; apply nil_length_inv.
  all: match goal with H : (0 <? _)%nat = false |- _ =>
         apply Nat.ltb_ge in H; lia end.
Qed.

Lemma app_mount_stored storage :
  App.sessions (App.mount storage) ≠ [] →
  App.localStorage (App.mount storage) !! App.storageKey
  = Some (Json (App.sessions (App.mount storage))).
Proof.
  unfold App.mount, App.seq; cbn [foldl].
  unfold App.loadEffect; cbn [App.localStorage].
  destruct (storage !! App.storageKey) as [[parsed|raw]|] eqn:Hkey;
    cbn [nonempty_text]; try done.
  - unfold App.saveEffect. simpl. destruct parsed; [done|]. simpl.
    intros _. apply lookup_insert_eq.
  - by destruct (truthy raw).
Qed.

(** X14.  The storage follows the collection: on every application
    reachable from a start, as long as the collection holds a session the
    storage holds the whole collection under ['persona_sessions'], and an
    application started on that storage starts with the same collection. *)
Theorem storage_follows_the_collection a :
  app_reachable a →
  App.sessions a ≠ [] →
  App.localStorage a !! App.storageKey = Some (Json (App.sessions a))
  ∧ App.sessions (App.mount (App.localStorage a)) = App.sessions a.
Proof.
  intros Hreach Hsome.
  assert (Hstored : App.localStorage a !! App.storageKey
                    = Some (Json (App.sessions a))).
  { induction Hreach as [storage|e a _ IH]; [by apply app_mount_stored|].
    destruct (app_step_storage e a) as [[Hs Hl]|[[Hs Hl]| ->]].
    - rewrite Hs, Hl in *. by apply IH.
    - done.
    - apply lookup_insert_eq. }
  split; [done|].
  unfold App.mount, App.seq; cbn [foldl].
  unfold App.loadEffect; cbn [App.localStorage]. rewrite Hstored.
  cbn [nonempty_text]. unfold App.saveEffect.
  destruct (App.localStorage a); simpl. by case_match.
Qed.

Lemma storage_follows_the_collection_witness :
  app_reachable Sample.app
  ∧ App.sessions Sample.app ≠ []
  ∧ App.sessions (App.mount (App.localStorage Sample.app))
    = App.sessions Sample.app.
Proof.
  assert (Hreach : app_reachable Sample.app)
    by (do 3 apply app_reachable_step; apply app_reachable_mount).
  assert (Hsome : App.sessions Sample.app ≠ []) by (vm_compute; discriminate).
  pose proof (storage_follows_the_collection _ Hreach Hsome) as (_ & Hsame).
  auto.
Defined.

(** ** Creating, deleting and updating a session *)

(** X15.  Completing the persona form after a character was completed
    creates the session: it is put first in the collection, holds the
    character, the persona and one seed message with the id ['init'], is
    the active session, and the chat mounted on it has that one message and
    is ALIVE.  Without a completed character nothing is created. *)
Theorem session_is_created a user now_id now_ts now_updated :
  App.view a = App.USER_SETUP →
  let a' := App.step (App.UserSetupComplete user now_id now_ts now_updated) a in
  match App.tempCharacter a with
  | Some char =>
      ∃ newSession seed,
        App.sessions a' = newSession :: App.sessions a
        ∧ ChatSession.character newSession = char
        ∧ ChatSession.userPersona newSession = Some user
        ∧ ChatSession.messages newSession = [seed]
        ∧ Message.id seed = js "init"
        ∧ Message.role seed = Role.model
        ∧ App.activeSession a' = Some newSession
        ∧ ∃ props,
            App.chatProps a' = Some props
            ∧ messages (mount props) = [seed]
            ∧ activeCharacter (mount props) = char
            ∧ activeUserPersona (mount props) = Some user
            ∧ derivedState (mount props) = ALIVE
  | None =>
      App.sessions a' = App.sessions a
      ∧ App.activeSessionId a' = App.activeSessionId a
      ∧ App.view a' = App.view a
  end.
Proof.
  intros Hview. unfold App.step. rewrite Hview. simpl.
  unfold App.handleUserSetupComplete.
  destruct (App.tempCharacter a) as [char|] eqn:Hchar.
  - unfold App.seq, App.saveEffect; cbn [foldl]. destruct a; simpl in *.
    eexists _, _. repeat split.
    + unfold App.activeSession. simpl. by rewrite decide_True.
    + unfold App.chatProps, App.activeSession. simpl.
      rewrite decide_True by done. simpl.
      eexists. split; [done|]. unfold mount. proj. simpl.
      by unfold derivedState, mount; proj.
  - unfold App.seq; cbn [foldl]. by destruct a.
Qed.

Lemma session_is_created_witness :
  let a := App.run [ App.StartApp; App.CharacterComplete Sample.character ]
             (App.mount ∅) in
  let a' := App.step (App.UserSetupComplete Sample.persona 2000 2000 2000) a in
  App.view a = App.USER_SETUP
  ∧ App.tempCharacter a = Some Sample.character
  ∧ length (App.sessions a') = 1%nat.
Proof.
  assert (Hview :
    App.view (App.run [ App.StartApp; App.CharacterComplete Sample.character ]
                (App.mount ∅)) = App.USER_SETUP)
    by (vm_compute; reflexivity).
  assert (Hchar :
    App.tempCharacter
      (App.run [ App.StartApp; App.CharacterComplete Sample.character ]
         (App.mount ∅)) = Some Sample.character)
    by (vm_compute; reflexivity).
  pose proof (session_is_created _ Sample.persona 2000 2000 2000 Hview)
    as Hnew.
  cbv zeta in Hnew. rewrite Hchar in Hnew.
  destruct Hnew as (newSession & seed & Hsessions & _).
  cbv zeta. rewrite Hsessions. auto.
Defined.

(** X16.  Deleting a session, once confirmed, removes every session with
    that id and keeps the other sessions in their order; when the deleted
    session was the active one no session is active afterwards and the
    character form is shown, otherwise the active session and the view
    stay.  A deletion that is not confirmed changes nothing. *)
Theorem session_is_deleted a sessionId :
  let a' := App.handleDeleteSession true sessionId a in
  (∀ s, s ∈ App.sessions a'
        ↔ s ∈ App.sessions a ∧ ChatSession.id s ≠ sessionId)
  ∧ App.sessions a' `sublist_of` App.sessions a
  ∧ (∀ s, App.activeSession a' = Some s → ChatSession.id s ≠ sessionId)
  ∧ (App.activeSessionId a = Some sessionId →
     App.activeSessionId a' = None ∧ App.view a' = App.SETUP)
  ∧ (App.activeSessionId a ≠ Some sessionId →
     App.activeSessionId a' = App.activeSessionId a
     ∧ App.view a' = App.view a)
  ∧ App.handleDeleteSession false sessionId a = a.
Proof.
  unfold App.handleDeleteSession, App.activeSession.
  destruct (bool_decide (App.activeSessionId a = Some sessionId)) eqn:Hactive;
    [apply bool_decide_eq_true in Hactive
    |apply bool_decide_eq_false in Hactive];
    unfold App.seq, App.saveEffect; cbn [foldl]; destruct a; simpl in *;
    case_match; simpl.
  all: split; [intros s; rewrite list_elem_of_filter; tauto|].
  all: split; [apply sublist_filter|].
  all: split; [|by auto].
  all: try done.
  all: intros s; destruct activeSessionId as [i|]; [|done]; simpl.
  all: destruct (list_find _ _) as [[k s']|] eqn:Hfind; [|done]; simpl.
  all: intros ?; simplify_eq.
  all: apply list_find_Some in Hfind as (Hk & Hid & _).
  all: apply list_elem_of_lookup_2, list_elem_of_filter in Hk as [? _].
  all: done.
Qed.


#[local] Opaque substring0.


(** ** The persona form *)

Lemma truthy_nonempty (s : jsstring) : truthy s = true ↔ s ≠ [].
Proof. by destruct s. Qed.

Lemma truthy_empty (s : jsstring) : truthy s = false ↔ s = [].
Proof. by destruct s. Qed.

(** X18.  The persona form hands over a persona exactly when name, height,
    weight and age are filled in.  The persona carries these four as
    entered, its appearance is never empty (the default text stands in for
    an empty one) and its image, when present, is not empty. *)
Theorem persona_is_complete s :
  match UserSetup.handleSubmit s with
  | Some u =>
      UserPersona.name u = UserSetup.name s ∧ UserPersona.name u ≠ []
      ∧ UserPersona.height u = UserSetup.height s ∧ UserPersona.height u ≠ []
      ∧ UserPersona.weight u = UserSetup.weight s ∧ UserPersona.weight u ≠ []
      ∧ UserPersona.age u = UserSetup.age s ∧ UserPersona.age u ≠ []
      ∧ UserPersona.appearance u ≠ []
      ∧ UserPersona.baseImage u ≠ Some []
  | None =>
      UserSetup.name s = [] ∨ UserSetup.height s = []
      ∨ UserSetup.weight s = [] ∨ UserSetup.age s = []
  end.
Proof.
  assert (Hdefault : js "Aparência padrão." ≠ [])
    by (apply truthy_nonempty; vm_compute; reflexivity).
  unfold UserSetup.handleSubmit.
  destruct s as [name appearance height weight age image]; simpl.
  destruct name, height, weight, age; simpl; auto 6.
  repeat split; try done.
  - by destruct appearance.
  - by destruct image as [[|]|].
Qed.

(** X19.  The button of the persona form is enabled as soon as name and
    age are filled in, yet a click on it hands over nothing when height or
    weight is empty, and only then. *)
Theorem save_button_may_do_nothing s :
  UserSetup.submit_disabled s = false →
  UserSetup.handleSubmit s = None
  ↔ UserSetup.height s = [] ∨ UserSetup.weight s = [].
Proof.
  unfold UserSetup.submit_disabled, UserSetup.handleSubmit.
  destruct s as [name appearance height weight age image]; simpl.
  destruct name, height, weight, age; simpl; try done; intros _.
  all: split; [auto|]; try done.
  by intros [|].
Qed.

Lemma save_button_may_do_nothing_witness :
  let s :=
    {| UserSetup.name := js "Ana"; UserSetup.appearance := [];
       UserSetup.height := []; UserSetup.weight := js "60kg";
       UserSetup.age := js "30"; UserSetup.image := None |} in
  UserSetup.submit_disabled s = false ∧ UserSetup.handleSubmit s = None.
Proof.
  assert (Henabled :
    UserSetup.submit_disabled
      {| UserSetup.name := js "Ana"; UserSetup.appearance := [];
         UserSetup.height := []; UserSetup.weight := js "60kg";
         UserSetup.age := js "30"; UserSetup.image := None |} = false)
    by (vm_compute; reflexivity).
  pose proof (save_button_may_do_nothing _ Henabled) as [_ Hnone].
  cbv zeta. split; [done|]. apply Hnone. by left.
Defined.

(** X20.  Round trip of the persona form: opened again on a persona it has
    handed over and saved without a change, it hands over the same
    persona. *)
Theorem persona_round_trip s u :
  UserSetup.handleSubmit s = Some u →
  UserSetup.handleSubmit (UserSetup.initial (Some u)) = Some u.
Proof.
  assert (Hdefault : truthy (js "Aparência padrão.") = true)
    by (vm_compute; reflexivity).
  unfold UserSetup.handleSubmit.
  destruct s as [name appearance height weight age image]; simpl.
  destruct name, height, weight, age; simpl; try done.
  intros ?; simplify_eq. simpl.
  destruct appearance; simpl; [rewrite Hdefault|]; by destruct image as [[|]|].
Qed.

Lemma persona_round_trip_witness :
  UserSetup.handleSubmit Sample.personaForm = Some Sample.persona
  ∧ UserSetup.handleSubmit (UserSetup.initial (Some Sample.persona))
    = Some Sample.persona.
Proof.
  assert (Hsubmit :
    UserSetup.handleSubmit Sample.personaForm = Some Sample.persona)
    by (vm_compute; reflexivity).
  split; [done|]. exact (persona_round_trip _ _ Hsubmit).
Defined.

(** ** The character form *)

Lemma silent_seq body : Forall silent body → silent (CharacterSetup.seq body).
Proof.
  unfold CharacterSetup.seq. intros Hbody s. revert s.
  induction Hbody as [|f body Hf _ IH]; intros s; simpl; [done|].
  by rewrite IH, Hf.
Qed.

Lemma silent_skip : silent CharacterSetup.skip.
Proof. done. Qed.

Lemma silent_alert message :
  silent (CharacterSetup.emit (CharacterSetup.alert message)).
Proof.
  intros []. unfold CharacterSetup.completed. simpl.
  by rewrite omap_app, app_nil_r.
Qed.

Lemma silent_console_error label :
  silent (CharacterSetup.emit (CharacterSetup.console_error label)).
Proof.
  intros []. unfold CharacterSetup.completed. simpl.
  by rewrite omap_app, app_nil_r.
Qed.

Lemma silent_console log : silent (CharacterSetup.emit_console log).
Proof.
  intros []. unfold CharacterSetup.completed. simpl.
  rewrite omap_app.
  assert (omap (λ e, match e with
                     | CharacterSetup.onComplete c => Some c
                     | _ => None
                     end) (CharacterSetup.logged <$> log) = []) as ->
    by (induction log as [|[] log IH]; simpl; done).
  apply app_nil_r.
Qed.

Lemma silent_on_tab tab f : silent f → silent (CharacterSetup.on_tab tab f).
Proof. intros Hf s. unfold CharacterSetup.on_tab. by case_match. Qed.

Lemma silent_when (x : option jsstring) (set : jsstring → CharacterSetup.Action) :
  (∀ v, silent (set v)) →
  silent match x with
         | Some v => if truthy v then set v else CharacterSetup.skip
         | None => CharacterSetup.skip
         end.
Proof. intros Hset. destruct x as [v|]; [destruct (truthy v)|]; done. Qed.

Ltac silent_setter := intros []; reflexivity.

Lemma silent_handleAutoFill_settled response :
  silent (CharacterSetup.handleAutoFill_settled response).
Proof.
  unfold CharacterSetup.handleAutoFill_settled.
  apply silent_seq.
  repeat apply Forall_cons_2; [apply silent_console| |silent_setter|done].
  destruct (autoFillCharacterProfile response).2 as [e|result]; cbv zeta.
  - apply silent_seq. repeat constructor.
    + apply silent_console_error.
    + apply silent_alert.
  - apply silent_seq. repeat constructor.
    all: try (apply silent_when; intros v).
    all: try silent_setter.
    + destruct (diet result) as [d|]; [|done].
      apply silent_seq. repeat constructor; try silent_setter.
      destruct (DietConfig.humanPreferences d); [silent_setter|done].
    + destruct (GeminiService.answers result); [silent_setter|done].
Qed.

Lemma silent_handleImageEdit_settled response :
  silent (CharacterSetup.handleImageEdit_settled response).
Proof.
  intros s. unfold CharacterSetup.handleImageEdit_settled.
  apply silent_seq. repeat apply Forall_cons_2; [|silent_setter|done].
  destruct (editCharacterImage _ _ _).
  - apply silent_alert.
  - apply silent_seq. repeat apply Forall_cons_2; try silent_setter. done.
Qed.

Lemma silent_handleAutoFill : silent CharacterSetup.handleAutoFill.
Proof.
  intros s. unfold CharacterSetup.handleAutoFill. case_match.
  - apply silent_alert.
  - by destruct s.
Qed.

Lemma silent_handleImageEdit : silent CharacterSetup.handleImageEdit.
Proof.
  intros s. unfold CharacterSetup.handleImageEdit. case_match; [done|].
  by destruct s.
Qed.

(** Only the confirmation completes a character. *)
Lemma step_silent e :
  (∀ now, e ≠ CharacterSetup.ClickConfirm now) → silent (CharacterSetup.step e).
Proof.
  intros He s. destruct e; unfold CharacterSetup.step;
    try (by destruct (He now)).
  all: repeat case_match; try done.
  all: try (apply silent_on_tab; try silent_setter).
  all: auto using silent_handleAutoFill, silent_handleImageEdit.
  all: try apply silent_handleAutoFill_settled.
  all: try apply silent_handleImageEdit_settled.
  all: by destruct s.
Qed.

Lemma placeholder_truthy :
  truthy (js "iVBORw0KGgoAAAANSUhEUgAAAAEAAAABCAQAAAC1HAwCAAAAC0lEQVR42mNk+A8AAQUBAScY42YAAAAASUVORK5CYII=") = true.
Proof. vm_compute. reflexivity. Qed.

Lemma or_else_truthy x d : truthy d = true → or_else x d ≠ [].
Proof.
  intros Hd. unfold or_else. destruct x as [[|]|]; simpl; try done.
  all: by destruct d.
Qed.

(** The character handed over by a confirmation. *)
Lemma handleComplete_well_formed now s c :
  CharacterSetup.effects (CharacterSetup.handleComplete now s)
  = CharacterSetup.effects s ++ [CharacterSetup.onComplete c] →
  well_formed c.
Proof.
  pose proof placeholder_truthy as Himage.
  unfold CharacterSetup.handleComplete.
  destruct (CharacterSetup.name s) as [[|]|],
    (CharacterSetup.description s) as [[|]|]; simpl.
  all: destruct s; simpl; intros Heq%app_inv_head; simplify_eq.
  all: repeat case_match.
  all: unfold well_formed; simpl.
  all: split_and!; try done; try (by eexists).
  all: try (by apply or_else_truthy).
  all: eexists; (split; [done|]); simpl; split; try done.
  all: by intros [].
Qed.

(** What a confirmation adds to the completed characters. *)
Lemma handleComplete_completed now s :
  CharacterSetup.completed (CharacterSetup.handleComplete now s)
  = CharacterSetup.completed s
  ∨ ∃ c, CharacterSetup.effects (CharacterSetup.handleComplete now s)
         = CharacterSetup.effects s ++ [CharacterSetup.onComplete c]
         ∧ CharacterSetup.completed (CharacterSetup.handleComplete now s)
           = CharacterSetup.completed s ++ [c].
Proof.
  unfold CharacterSetup.handleComplete, CharacterSetup.completed.
  destruct s; simpl. repeat case_match; simpl.
  all: rewrite omap_app; simpl; rewrite ?app_nil_r; eauto.
Qed.

Lemma run_snoc events e s :
  CharacterSetup.run (events ++ [e]) s
  = CharacterSetup.step e (CharacterSetup.run events s).
Proof. unfold CharacterSetup.run. by rewrite foldl_app. Qed.

(** X21.  Every character the form ever hands over, whatever is entered,
    auto-filled or edited before, has a name, a description and an image
    that are not empty, its encounter and its question answers, and a diet
    that carries human preferences exactly when it eats humans. *)
Theorem completed_characters_are_well_formed existing events c :
  c ∈ CharacterSetup.completed
        (CharacterSetup.run events (CharacterSetup.initial existing)) →
  well_formed c.
Proof.
  revert c. induction events as [|e events IH] using rev_ind; intros c.
  - by intros ?%elem_of_nil.
  - rewrite run_snoc.
    set (s := CharacterSetup.run events (CharacterSetup.initial existing)) in *.
    assert ((∃ now, e = CharacterSetup.ClickConfirm now)
            ∨ ∀ now, e ≠ CharacterSetup.ClickConfirm now)
      as [[now ->]|Hother] by (destruct e; eauto).
    + simpl. destruct (handleComplete_completed now s) as [->|(c' & Hc' & ->)];
        [by apply IH|].
      intros [?| ->%list_elem_of_singleton]%elem_of_app; [by apply IH|].
      by eapply handleComplete_well_formed.
    + rewrite step_silent; [by apply IH|done].
Qed.

Lemma completed_characters_are_well_formed_witness :
  Sample.character
    ∈ CharacterSetup.completed
        (CharacterSetup.run Sample.setup (CharacterSetup.initial None))
  ∧ well_formed Sample.character.
Proof.
  assert (Hin :
    Sample.character
      ∈ CharacterSetup.completed
          (CharacterSetup.run Sample.setup (CharacterSetup.initial None))).
  { assert (Hrun :
      CharacterSetup.completed
        (CharacterSetup.run Sample.setup (CharacterSetup.initial None))
      = [Sample.character]) by (vm_compute; reflexivity).
    rewrite Hrun. apply list_elem_of_singleton. reflexivity. }
  split; [exact Hin|].
  exact (completed_characters_are_well_formed None Sample.setup _ Hin).
Defined.

(** X22.  A confirmation never changes what is entered in the form.  With
    a name and a description it hands over one character, which carries
    them and the reading of the clock as its id, and shows no alert;
    without one of them it hands over nothing and shows one alert. *)
Theorem confirmation_needs_name_and_description now s :
  let s' := CharacterSetup.step (CharacterSetup.ClickConfirm now) s in
  CharacterSetup.fields s' = CharacterSetup.fields s
  ∧ if truthy_opt (CharacterSetup.name s)
       && truthy_opt (CharacterSetup.description s)
    then CharacterSetup.alerts s' = CharacterSetup.alerts s
         ∧ ∃ c, CharacterSetup.completed s' = CharacterSetup.completed s ++ [c]
                ∧ Some (Character.name c) = CharacterSetup.name s
                ∧ Some (Character.description c) = CharacterSetup.description s
                ∧ Character.id c = toString now
    else CharacterSetup.completed s' = CharacterSetup.completed s
         ∧ CharacterSetup.alerts s'
           = CharacterSetup.alerts s
             ++ [js "Preencha pelo menos Nome e Descrição."].
Proof.
  simpl. unfold CharacterSetup.handleComplete, CharacterSetup.alerts,
    CharacterSetup.completed.
  destruct (CharacterSetup.name s) as [[|]|] eqn:Hname,
    (CharacterSetup.description s) as [[|]|] eqn:Hdescription; simpl.
  all: destruct s; simpl in *; simplify_eq; rewrite !omap_app; simpl.
  all: rewrite ?app_nil_r; split; [done|]; split; try done.
  by eexists.
Qed.

(** *** The answers of a completed character *)

Lemma QUESTIONS_NoDup : NoDup CharacterSetup.QUESTIONS.
Proof. apply (bool_decide_unpack _). vm_compute. exact I. Qed.

Lemma QUESTIONS_defined : js "undefined" ∉ CharacterSetup.QUESTIONS.
Proof. apply (bool_decide_unpack _). vm_compute. exact I. Qed.

(** The key under which the answer to question [k] is stored determines
    [k], when it is the text of a question. *)
Lemma question_key i q k :
  CharacterSetup.QUESTIONS !! i = Some q →
  interpolate (CharacterSetup.QUESTIONS !! k) = q → k = i.
Proof.
  intros Hi Hk. destruct (CharacterSetup.QUESTIONS !! k) as [q'|] eqn:Hq'.
  - simpl in Hk. subst q'.
    by eapply NoDup_lookup; [apply QUESTIONS_NoDup|..].
  - simpl in Hk. subst q. destruct QUESTIONS_defined.
    by eapply list_elem_of_lookup_2.
Qed.

Lemma entries_bound (answers : gmap nat jsstring) k v :
  answers !! k = Some v →
  (k < map_fold (λ k _ m, Nat.max (S k) m) 0%nat answers)%nat.
Proof.
  revert k v.
  apply (map_fold_weak_ind
           (λ r (m : gmap nat jsstring), ∀ k v, m !! k = Some v → (k < r)%nat)).
  - intros k v. by rewrite lookup_empty.
  - intros i x m r _ IH k v. destruct (decide (k = i)) as [->|].
    + intros _. lia.
    + rewrite lookup_insert_ne by done. intros ?%IH. lia.
Qed.

Lemma entries_elem (answers : gmap nat jsstring) k v :
  (k, v) ∈ CharacterSetup.entries answers ↔ answers !! k = Some v.
Proof.
  unfold CharacterSetup.entries. cbv zeta. rewrite list_elem_of_omap. split.
  - intros (k' & _ & Hk'). destruct (answers !! k') eqn:?; by simplify_eq/=.
  - intros Hk. exists k. split; [|by rewrite Hk].
    apply elem_of_seq. split; [lia|]. simpl. by eapply entries_bound.
Qed.

Lemma entries_keys (answers : gmap nat jsstring) :
  NoDup (CharacterSetup.entries answers).*1.
Proof.
  unfold CharacterSetup.entries. cbv zeta.
  generalize (map_fold (λ k (_ : jsstring) m, Nat.max (S k) m) 0%nat answers).
  intros bound. apply (sublist_NoDup _ (List.seq 0%nat bound));
    [apply NoDup_seq|].
  induction (List.seq 0%nat bound) as [|k l IH]; simpl; [constructor|].
  destruct (answers !! k); simpl; by constructor.
Qed.

Lemma foldl_insert_other {V} (g : nat → jsstring) (l : list (nat * V))
    (m : gmap jsstring V) q :
  (∀ k, k ∈ l.*1 → g k ≠ q) →
  foldl (λ acc '(key, answer), <[g key := answer]> acc) m l !! q = m !! q.
Proof.
  revert m. induction l as [|[k a] l IH]; intros m Hl; simpl; [done|].
  rewrite IH.
  - apply lookup_insert_ne, Hl. simpl. left.
  - intros k' Hk'. apply Hl. simpl. by right.
Qed.

Lemma foldl_insert_lookup {V} (g : nat → jsstring) (l : list (nat * V))
    (m : gmap jsstring V) q i v :
  (∀ k, g k = q → k = i) → NoDup l.*1 → (i, v) ∈ l → g i = q →
  foldl (λ acc '(key, answer), <[g key := answer]> acc) m l !! q = Some v.
Proof.
  intros Hkey. revert m.
  induction l as [|[k a] l IH]; intros m Hl Hin Hi; simpl.
  - by apply elem_of_nil in Hin.
  - apply NoDup_cons in Hl as [Hk Hl].
    apply elem_of_cons in Hin as [?|Hin]; simplify_eq.
    + rewrite foldl_insert_other; [by rewrite lookup_insert_eq|].
      intros k' Hk' ->%Hkey. done.
    + by apply IH.
Qed.

(** The answers of a form, keyed by the text of their question. *)
Lemma question_answers_lookup (answers : gmap nat jsstring) i q :
  CharacterSetup.QUESTIONS !! i = Some q →
  foldl (λ (acc : gmap jsstring jsstring) '(key, answer),
           <[interpolate (CharacterSetup.QUESTIONS !! key) := answer]> acc)
    ∅ (CharacterSetup.entries answers) !! q
  = answers !! i.
Proof.
  intros Hi. destruct (answers !! i) as [v|] eqn:Hv.
  - apply (foldl_insert_lookup
             (λ k, interpolate (CharacterSetup.QUESTIONS !! k)) _ _ q i v).
    + intros k. by apply question_key.
    + apply entries_keys.
    + by apply entries_elem.
    + by rewrite Hi.
  - rewrite (foldl_insert_other
               (λ k, interpolate (CharacterSetup.QUESTIONS !! k)));
      [by rewrite lookup_empty|].
    intros k Hk Hq. apply (question_key i q k Hi) in Hq as ->.
    apply list_elem_of_fmap in Hk as ([k' v] & ? & Hin); simplify_eq/=.
    apply entries_elem in Hin. congruence.
Qed.

(** X23.  The answers of a completed character are those of the form,
    keyed by the text of their question: under the text of question [i]
    stands the answer entered for question [i], and nothing when none was
    entered, whatever other numbers an auto-filled profile has brought. *)
Theorem answers_are_keyed_by_question now s c i q :
  CharacterSetup.effects (CharacterSetup.handleComplete now s)
  = CharacterSetup.effects s ++ [CharacterSetup.onComplete c] →
  CharacterSetup.QUESTIONS !! i = Some q →
  Character.questionAnswers c ≫= (λ answers, answers !! q)
  = CharacterSetup.answers s !! i.
Proof.
  intros Hc Hi. revert Hc. unfold CharacterSetup.handleComplete.
  destruct (CharacterSetup.name s) as [[|]|],
    (CharacterSetup.description s) as [[|]|]; simpl.
  all: destruct s; simpl; intros Heq%app_inv_head; simplify_eq.
  simpl. by apply question_answers_lookup.
Qed.

Lemma answers_are_keyed_by_question_witness :
  let s :=
    CharacterSetup.run
      [ CharacterSetup.ChangeName (js "Rex");
        CharacterSetup.ChangeDescription (js "A dragon");
        CharacterSetup.SelectTab CharacterSetup.PERSONALITY;
        CharacterSetup.ChangeAnswer 1 (js "Caves") ]
      (CharacterSetup.initial None) in
  let q := js "Qual é o seu habitat natural? O ambiente é hostil ou acolhedor?" in
  ∃ c,
    CharacterSetup.effects (CharacterSetup.handleComplete 1000 s)
    = CharacterSetup.effects s ++ [CharacterSetup.onComplete c]
    ∧ CharacterSetup.QUESTIONS !! 1%nat = Some q
    ∧ Character.questionAnswers c ≫= (λ answers, answers !! q)
      = Some (js "Caves").
Proof.
  cbv zeta.
  set (s := CharacterSetup.run _ _).
  set (q := js "Qual é o seu habitat natural? O ambiente é hostil ou acolhedor?").
  set (c := default Sample.character
              (head (CharacterSetup.completed
                       (CharacterSetup.handleComplete 1000 s)))).
  assert (Hc :
    CharacterSetup.effects (CharacterSetup.handleComplete 1000 s)
    = CharacterSetup.effects s ++ [CharacterSetup.onComplete c])
    by (vm_compute; reflexivity).
  assert (Hq : CharacterSetup.QUESTIONS !! 1%nat = Some q)
    by (vm_compute; reflexivity).
  assert (Hanswer : CharacterSetup.answers s !! 1%nat = Some (js "Caves"))
    by (vm_compute; reflexivity).
  exists c. split; [exact Hc|]. split; [exact Hq|].
  rewrite <-Hanswer. exact (answers_are_keyed_by_question 1000 s c 1 q Hc Hq).
Defined.

(** *** What an automatic profile leaves in the form *)

Lemma keeps_seq P body :
  Forall (keeps P) body → keeps P (CharacterSetup.seq body).
Proof.
  unfold CharacterSetup.seq. intros Hbody s. revert s.
  induction Hbody as [|f body Hf _ IH]; intros s; simpl; [done|].
  intros ?. by apply IH, Hf.
Qed.

Lemma keeps_when P (x : option jsstring)
    (set : jsstring → CharacterSetup.Action) :
  (∀ v, v ≠ [] → keeps P (set v)) →
  keeps P match x with
          | Some v => if truthy v then set v else CharacterSetup.skip
          | None => CharacterSetup.skip
          end.
Proof.
  intros Hset. destruct x as [[|c v]|]; simpl; [by intros s|by apply Hset|].
  by intros s.
Qed.

Ltac keeps_setter := intros []; simpl; done.

Lemma keeps_handleAutoFill_settled P response :
  (∀ f, keeps P (CharacterSetup.setName f)) →
  (∀ f, keeps P (CharacterSetup.setDescription f)) →
  (∀ v, v ≠ [] → keeps P (CharacterSetup.setHeight (λ _, v))) →
  (∀ v, v ≠ [] → keeps P (CharacterSetup.setWeight (λ _, v))) →
  (∀ v, v ≠ [] → keeps P (CharacterSetup.setAge v)) →
  (∀ v, v ≠ [] → keeps P (CharacterSetup.setLifeExpectancy v)) →
  (∀ v, v ≠ [] → keeps P (CharacterSetup.setPowers v)) →
  (∀ v, v ≠ [] → keeps P (CharacterSetup.setEnvironment (λ _, v))) →
  (∀ v, keeps P (CharacterSetup.setDietType v)) →
  (∀ v, keeps P (CharacterSetup.setDietDetails v)) →
  (∀ v, keeps P (CharacterSetup.setEatsHumans v)) →
  (∀ v, keeps P (CharacterSetup.setHumanPreferences v)) →
  (∀ v, keeps P (CharacterSetup.setAnswers v)) →
  (∀ e, keeps P (CharacterSetup.emit e)) →
  (∀ log, keeps P (CharacterSetup.emit_console log)) →
  (∀ v, keeps P (CharacterSetup.setIsAutoFilling v)) →
  keeps P (CharacterSetup.handleAutoFill_settled response).
Proof.
  intros. unfold CharacterSetup.handleAutoFill_settled.
  assert (keeps P CharacterSetup.skip) by (by intros s).
  apply keeps_seq. repeat apply Forall_cons_2; try apply Forall_nil_2; auto.
  destruct (autoFillCharacterProfile response).2 as [e|result]; cbv zeta.
  - apply keeps_seq. repeat apply Forall_cons_2; try apply Forall_nil_2; auto.
  - apply keeps_seq. repeat apply Forall_cons_2; try apply Forall_nil_2; auto.
    all: try (by apply keeps_when).
    + destruct (diet result) as [d|]; [|done].
      apply keeps_seq.
      repeat apply Forall_cons_2; try apply Forall_nil_2; auto.
      destruct (DietConfig.humanPreferences d); auto.
    + destruct (GeminiService.answers result); auto.
Qed.

Ltac kept :=
  apply keeps_handleAutoFill_settled; intros; intros []; simpl; done.

(** X24.  An automatic profile never blanks a measure of the form: height,
    weight, age, life expectancy, powers and environment that are filled in
    stay filled in, whatever the response is; the image and the tone are
    left as they are. *)
Theorem autofill_blanks_no_measure response s :
  let s' := CharacterSetup.handleAutoFill_settled response s in
  (CharacterSetup.height s ≠ [] → CharacterSetup.height s' ≠ [])
  ∧ (CharacterSetup.weight s ≠ [] → CharacterSetup.weight s' ≠ [])
  ∧ (CharacterSetup.age s ≠ [] → CharacterSetup.age s' ≠ [])
  ∧ (CharacterSetup.lifeExpectancy s ≠ []
     → CharacterSetup.lifeExpectancy s' ≠ [])
  ∧ (CharacterSetup.powers s ≠ [] → CharacterSetup.powers s' ≠ [])
  ∧ (CharacterSetup.environment s ≠ [] → CharacterSetup.environment s' ≠ [])
  ∧ CharacterSetup.image s' = CharacterSetup.image s
  ∧ CharacterSetup.storyTone s' = CharacterSetup.storyTone s.
Proof.
  cbv zeta. split_and!.
  - apply (keeps_handleAutoFill_settled
             (λ s, CharacterSetup.height s ≠ [])); intros; intros []; done.
  - apply (keeps_handleAutoFill_settled
             (λ s, CharacterSetup.weight s ≠ [])); intros; intros []; done.
  - apply (keeps_handleAutoFill_settled
             (λ s, CharacterSetup.age s ≠ [])); intros; intros []; done.
  - apply (keeps_handleAutoFill_settled
             (λ s, CharacterSetup.lifeExpectancy s ≠ []));
      intros; intros []; done.
  - apply (keeps_handleAutoFill_settled
             (λ s, CharacterSetup.powers s ≠ [])); intros; intros []; done.
  - apply (keeps_handleAutoFill_settled
             (λ s, CharacterSetup.environment s ≠ []));
      intros; intros []; done.
  - apply (keeps_handleAutoFill_settled
             (λ s', CharacterSetup.image s' = CharacterSetup.image s));
      [intros; intros []; done..|done].
  - apply (keeps_handleAutoFill_settled
             (λ s', CharacterSetup.storyTone s' = CharacterSetup.storyTone s));
      [intros; intros []; done..|done].
Qed.

(** ** Speech and data URLs *)

Lemma int16_range lo hi :
  0 ≤ lo < 256 → 0 ≤ hi < 256 →
  -32768 ≤ AudioUtils.int16 lo hi < 32768.
Proof. unfold AudioUtils.int16. cbv zeta. case_match; lia. Qed.

Lemma int16_inj lo hi lo' hi' :
  0 ≤ lo < 256 → 0 ≤ hi < 256 → 0 ≤ lo' < 256 → 0 ≤ hi' < 256 →
  AudioUtils.int16 lo hi = AudioUtils.int16 lo' hi' → lo = lo' ∧ hi = hi'.
Proof.
  unfold AudioUtils.int16. cbv zeta. intros ????.
  repeat case_match; rewrite ?Z.ltb_lt, ?Z.ltb_ge in *; lia.
Qed.

Lemma bytes_of_range binaryString :
  Forall (λ b, 0 ≤ b < 256) (AudioUtils.bytes_of binaryString).
Proof.
  unfold AudioUtils.bytes_of. apply Forall_fmap, Forall_forall.
  intros c _. simpl. apply Z.mod_pos_bound. lia.
Qed.

Lemma Int16Array_length bytes :
  length (AudioUtils.Int16Array bytes) = (length bytes / 2)%nat.
Proof.
  induction bytes as [bytes IH] using (induction_ltof1 _ length).
  unfold ltof in IH. destruct bytes as [|lo [|hi rest]]; try done.
  simpl AudioUtils.Int16Array. simpl length. rewrite IH by (simpl; lia).
  change (S (S (length rest))) with (1 * 2 + length rest)%nat.
  rewrite Nat.div_add_l by lia. lia.
Qed.

Lemma Int16Array_range bytes :
  Forall (λ b, 0 ≤ b < 256) bytes →
  Forall (λ v, -32768 ≤ v < 32768) (AudioUtils.Int16Array bytes).
Proof.
  induction bytes as [bytes IH] using (induction_ltof1 _ length).
  unfold ltof in IH. destruct bytes as [|lo [|hi rest]]; try by constructor.
  intros (Hlo & (Hhi & Hrest)%Forall_cons)%Forall_cons.
  simpl. constructor; [by apply int16_range|]. apply IH; [simpl; lia|done].
Qed.

Lemma Int16Array_inj bytes bytes' :
  Forall (λ b, 0 ≤ b < 256) bytes → Forall (λ b, 0 ≤ b < 256) bytes' →
  Nat.odd (length bytes) = false → Nat.odd (length bytes') = false →
  AudioUtils.Int16Array bytes = AudioUtils.Int16Array bytes' →
  bytes = bytes'.
Proof.
  revert bytes'. induction bytes as [bytes IH] using (induction_ltof1 _ length).
  unfold ltof in IH. intros bytes'.
  destruct bytes as [|lo [|hi rest]], bytes' as [|lo' [|hi' rest']];
    try done.
  intros (Hlo & (Hhi & Hrest)%Forall_cons)%Forall_cons
         (Hlo' & (Hhi' & Hrest')%Forall_cons)%Forall_cons Hodd Hodd' Heq.
  simpl in Heq. injection Heq as Hhead Htail.
  apply int16_inj in Hhead as [-> ->]; try done.
  f_equal. f_equal. apply IH; try done. simpl. lia.
Qed.

Lemma sample_inj v v' :
  (inject_Z v / 32768)%Q = (inject_Z v' / 32768)%Q → v = v'.
Proof.
  unfold Qdiv, Qmult, Qinv, inject_Z. simpl. intros Heq.
  injection Heq as Hnum. lia.
Qed.

Lemma bytes_of_inj s s' :
  Forall (λ c, (c < 256)%N) s → Forall (λ c, (c < 256)%N) s' →
  AudioUtils.bytes_of s = AudioUtils.bytes_of s' → s = s'.
Proof.
  unfold AudioUtils.bytes_of. revert s'.
  induction s as [|c s IH]; intros [|c' s']; try done.
  intros [Hc Hs]%Forall_cons [Hc' Hs']%Forall_cons Heq.
  simpl in Heq. injection Heq as Hhead Htail.
  rewrite !Z.mod_small in Hhead by lia.
  f_equal; [lia|by apply IH].
Qed.

(** X25.  The speech decoder resolves exactly on a byte string of even,
    non-zero length; the buffer then has one frame for every two bytes, at
    24000 frames a second, and every sample is a 16-bit integer over 32768,
    within [-1, 1). *)
Theorem decoded_speech_is_pcm16 binaryString :
  match AudioUtils.decodeAudioData (Resolved binaryString) with
  | Resolved buffer =>
      Nat.even (length binaryString) = true
      ∧ binaryString ≠ []
      ∧ AudioUtils.sampleRate buffer = 24000
      ∧ length (AudioUtils.channelData buffer)
        = (length binaryString / 2)%nat
      ∧ Forall (λ q, ∃ v, -32768 ≤ v < 32768
                          ∧ q = (inject_Z v / 32768)%Q
                          ∧ (-1 <= q)%Q ∧ (q < 1)%Q)
          (AudioUtils.channelData buffer)
  | Rejected _ =>
      Nat.even (length binaryString) = false ∨ binaryString = []
  end.
Proof.
  unfold AudioUtils.decodeAudioData. cbv zeta.
  assert (length (AudioUtils.bytes_of binaryString) = length binaryString)
    as Hlength by apply length_fmap.
  rewrite Int16Array_length, Hlength, <-Nat.negb_even.
  destruct (Nat.even (length binaryString)) eqn:Heven; cbn [negb];
    cbv iota; [|by left].
  destruct (length binaryString / 2 =? 0)%nat eqn:Hframes; cbv iota.
  - right. apply Nat.eqb_eq in Hframes.
    apply Nat.even_spec in Heven as [k Hk]. apply nil_length_inv.
    rewrite Hk in Hframes. rewrite Nat.mul_comm, Nat.div_mul in Hframes by lia.
    lia.
  - apply Nat.eqb_neq in Hframes.
    cbn [AudioUtils.sampleRate AudioUtils.channelData]. split_and!; try done.
    + intros ->. by apply Hframes.
    + by rewrite length_fmap, Int16Array_length, Hlength.
    + apply Forall_fmap.
      eapply Forall_impl; [apply Int16Array_range, bytes_of_range|].
      intros v Hv. simpl in Hv. simpl. exists v. split_and!; try done.
      all: try lia.
      * unfold Qle. simpl. lia.
      * unfold Qlt. simpl. lia.
Qed.

(** X26.  Decoding loses nothing: two byte strings (of code units below
    256, as [atob] yields them) that decode to the same buffer are the same
    string. *)
Theorem decoding_is_lossless s s' buffer :
  Forall (λ c, (c < 256)%N) s → Forall (λ c, (c < 256)%N) s' →
  AudioUtils.decodeAudioData (Resolved s) = Resolved buffer →
  AudioUtils.decodeAudioData (Resolved s') = Resolved buffer →
  s = s'.
Proof.
  intros Hs Hs'. unfold AudioUtils.decodeAudioData. cbv zeta.
  destruct (Nat.odd (length (AudioUtils.bytes_of s))) eqn:Hodd; [done|].
  destruct (Nat.odd (length (AudioUtils.bytes_of s'))) eqn:Hodd'; [done|].
  repeat case_match; try done. intros ? ?; simplify_eq.
  match goal with H : _ <$> _ = _ <$> _ |- _ => rename H into Heq end.
  apply bytes_of_inj; try done.
  apply Int16Array_inj; try done; try apply bytes_of_range.
  revert Heq. generalize (AudioUtils.Int16Array (AudioUtils.bytes_of s)).
  generalize (AudioUtils.Int16Array (AudioUtils.bytes_of s')).
  intros l' l. revert l'. induction l as [|v l IH]; intros [|v' l']; try done.
  rewrite !fmap_cons. intros Heq. apply (inj2 cons) in Heq as [Hhead Htail].
  f_equal; [by apply sample_inj|by apply IH].
Qed.

Lemma decoding_is_lossless_witness :
  let s := [0; 128; 255; 127]%N in
  ∃ buffer,
    Forall (λ c, (c < 256)%N) s
    ∧ AudioUtils.decodeAudioData (Resolved s) = Resolved buffer
    ∧ s = s.
Proof.
  cbv zeta.
  assert (Hs : Forall (λ c, (c < 256)%N) [0; 128; 255; 127]%N)
    by (repeat constructor).
  eexists. split; [exact Hs|]. split; [vm_compute; reflexivity|].
  refine (decoding_is_lossless _ _ _ Hs Hs _ _); vm_compute; reflexivity.
Defined.

(** *** Data URLs *)

Lemma split_no_comma s : 44%N ∉ s → AudioUtils.split s = [s].
Proof.
  induction s as [|c s IH]; [done|].
  intros [Hc Hs]%not_elem_of_cons. cbn [AudioUtils.split].
  rewrite bool_decide_false by done. by rewrite IH.
Qed.

Lemma split_comma header rest :
  44%N ∉ header →
  AudioUtils.split (header ++ 44%N :: rest) = header :: AudioUtils.split rest.
Proof.
  induction header as [|c header IH]; intros Hheader;
    cbn [AudioUtils.split app].
  - by rewrite bool_decide_true.
  - apply not_elem_of_cons in Hheader as [Hc Hheader].
    rewrite bool_decide_false by done. by rewrite IH.
Qed.

(** X27.  What [blobToBase64] makes of a data URL: the text between the
    first comma and the second, so the whole payload of a URL whose header
    and payload hold no comma; and of a text without a comma nothing,
    resolved all the same. *)
Theorem base64_is_the_payload header payload :
  44%N ∉ header → 44%N ∉ payload →
  AudioUtils.blobToBase64 (Resolved (header ++ 44%N :: payload))
  = Resolved (Some payload)
  ∧ (∀ more,
       AudioUtils.blobToBase64
         (Resolved (header ++ 44%N :: payload ++ 44%N :: more))
       = Resolved (Some payload))
  ∧ AudioUtils.blobToBase64 (Resolved header) = Resolved None.
Proof.
  intros Hheader Hpayload. unfold AudioUtils.blobToBase64. split_and!.
  - by rewrite split_comma, split_no_comma.
  - intros more. by rewrite !split_comma.
  - by rewrite split_no_comma.
Qed.

Lemma base64_is_the_payload_witness :
  let header := js "data:audio/wav;base64" in
  let payload := js "UklGRiQAAABXQVZF" in
  (44%N ∉ header) ∧ (44%N ∉ payload)
  ∧ AudioUtils.blobToBase64 (Resolved (header ++ 44%N :: payload))
    = Resolved (Some payload).
Proof.
  assert (Hheader : 44%N ∉ js "data:audio/wav;base64")
    by (apply (bool_decide_unpack _); vm_compute; exact I).
  assert (Hpayload : 44%N ∉ js "UklGRiQAAABXQVZF")
    by (apply (bool_decide_unpack _); vm_compute; exact I).
  pose proof (base64_is_the_payload _ _ Hheader Hpayload) as (Hurl & _ & _).
  cbv zeta. auto.
Defined.

(** ** The media component *)

Lemma media_step_inv e s : media_inv s → media_inv (MediaLab.step e s).
Proof.
  unfold media_inv. destruct s as [? ? ? ? img ? vid res loading inflight ?].
  simpl. destruct inflight as [|j [|]]; [| |done].
  - intros [-> Hresults].
    destruct e; simpl; try done; try (by destruct activeTab).
    unfold MediaLab.generate_disabled, MediaLab.handleGenerate. simpl.
    destruct (truthy prompt); simpl; [|done]. by destruct activeTab.
  - intros (-> & -> & -> & ->).
    destruct e; simpl; try done; try (by destruct activeTab).
    unfold MediaLab.handleGenerate_settled; simpl.
    destruct job as [|job]; simpl; [|by destruct job].
    destruct j, outcome; simpl; try done.
    all: repeat case_match; simpl; done.
Qed.

Lemma media_run_snoc events e s :
  MediaLab.run (events ++ [e]) s = MediaLab.step e (MediaLab.run events s).
Proof. unfold MediaLab.run. by rewrite foldl_app. Qed.

(** X28.  In the media component one request is in flight at most, and
    exactly while it is loading; while it is loading no result is shown,
    and at any time one result is shown at most: each generation replaces
    the result of the one before. *)
Theorem one_result_at_a_time events :
  let s := MediaLab.run events MediaLab.initial in
  (length (MediaLab.inflight s) ≤ 1)%nat
  ∧ (MediaLab.loading s = true ↔ MediaLab.inflight s ≠ [])
  ∧ (MediaLab.loading s = true → MediaLab.shown s = [])
  ∧ (length (MediaLab.shown s) ≤ 1)%nat.
Proof.
  cbv zeta.
  assert (media_inv (MediaLab.run events MediaLab.initial)) as Hinv.
  { induction events as [|e events IH] using rev_ind; [done|].
    rewrite media_run_snoc. by apply media_step_inv. }
  revert Hinv. generalize (MediaLab.run events MediaLab.initial).
  intros s. unfold media_inv, MediaLab.shown.
  destruct s as [? ? ? ? img ? vid res loading inflight ?]; simpl.
  destruct inflight as [|j [|]]; [| |done].
  - intros [-> Hresults]. split_and!; try done; simpl; try lia.
    destruct img as [[|]|], vid as [[|]|], res; simpl; try done; lia.
  - intros (-> & -> & -> & ->). simpl. split_and!; try done. lia.
Qed.

(** ** What the service sends and reads *)

Lemma speakText_Some response d :
  speakText response = Resolved (Some d)
  ↔ ∃ r blob rest,
      response = Resolved r
      ∧ first_parts r = {| inlineData := Some blob |} :: rest
      ∧ data blob = d ∧ d ≠ [].
Proof.
  unfold speakText. destruct response as [e|r].
  { split; [done|]. by intros (? & ? & ? & ? & _). }
  destruct (first_parts r) as [|[[[blob]|]] rest] eqn:Hparts; simpl.
  - split; [done|]. intros (? & ? & ? & ? & Hr & _); simplify_eq.
    rewrite Hparts in Hr. done.
  - destruct blob as [|c blob]; simpl.
    + split; [done|]. intros (? & ? & ? & ? & Hr & ? & ?); simplify_eq/=.
      rewrite Hparts in Hr. by simplify_eq/=.
    + split.
      * intros ?; simplify_eq. by eexists r, _, rest.
      * intros (? & ? & ? & ? & Hr & ? & ?); simplify_eq/=.
        rewrite Hparts in Hr. by simplify_eq/=.
  - split; [done|]. intros (? & ? & ? & ? & Hr & _); simplify_eq.
    rewrite Hparts in Hr. done.
Qed.

(** What [evolveCharacterVisuals] writes to the console: one warning when
    the response carries no inline data, and nothing otherwise. *)
Lemma evolveCharacterVisuals_console response base prompt :
  ((evolveCharacterVisuals base prompt response).1
   = [console.warn (js "Image evolution returned no image data.")]
   ↔ ∃ r, response = Resolved r
          ∧ Forall (λ part, inlineData part = None) (first_parts r))
  ∧ ((evolveCharacterVisuals base prompt response).1 = []
     ↔ ¬ ∃ r, response = Resolved r
              ∧ Forall (λ part, inlineData part = None) (first_parts r)).
Proof.
  unfold evolveCharacterVisuals. destruct response as [e|r]; simpl.
  { split; split; try done.
    - by intros (? & ? & _).
    - by intros _ (? & ? & _). }
  pose proof (first_inline_data_none (first_parts r)) as Hnone.
  destruct (first_inline_data (first_parts r)) as [d'|]; simpl.
  - assert (¬ Forall (λ part, inlineData part = None) (first_parts r))
      as Hsome by (by intros ?%Hnone).
    split; split; try done.
    + intros (? & ? & ?); by simplify_eq.
    + intros _ (? & ? & ?); by simplify_eq.
  - assert (Forall (λ part, inlineData part = None) (first_parts r))
      as Hall by (by apply Hnone).
    split; split; try done.
    + intros _. by exists r.
    + intros Hno. destruct Hno. by exists r.
Qed.

(** X29.  Which part of a response the service functions hand over.  The
    functions that ask for an image resolve with the data of the first part
    of the first candidate that carries inline data, whatever parts stand
    before it; [evolveCharacterVisuals] alone resolves, with the image it
    was given, when no part carries any, and writes one warning to the
    console then and nothing otherwise.  [speakText] looks at the first
    part only, and hands over no empty data. *)
Theorem media_is_read_from_the_parts response base prompt d :
  (editCharacterImage base prompt response = Resolved d
   ↔ ∃ r, response = Resolved r ∧ first_image (first_parts r) d)
  ∧ (generateActionScene response = Resolved d
     ↔ ∃ r, response = Resolved r ∧ first_image (first_parts r) d)
  ∧ (generateSceneImage response = Resolved d
     ↔ ∃ r, response = Resolved r ∧ first_image (first_parts r) d)
  ∧ ((evolveCharacterVisuals base prompt response).2 = Resolved d
     ↔ ∃ r, response = Resolved r
            ∧ (first_image (first_parts r) d
               ∨ (Forall (λ part, inlineData part = None) (first_parts r)
                  ∧ d = base)))
  ∧ ((evolveCharacterVisuals base prompt response).1
     = [console.warn (js "Image evolution returned no image data.")]
     ↔ ∃ r, response = Resolved r
            ∧ Forall (λ part, inlineData part = None) (first_parts r))
  ∧ ((evolveCharacterVisuals base prompt response).1 = []
     ↔ ¬ ∃ r, response = Resolved r
              ∧ Forall (λ part, inlineData part = None) (first_parts r))
  ∧ (speakText response = Resolved (Some d)
     ↔ ∃ r blob rest,
         response = Resolved r
         ∧ first_parts r = {| inlineData := Some blob |} :: rest
         ∧ data blob = d ∧ d ≠ []).
Proof.
  destruct (evolveCharacterVisuals_console response base prompt)
    as [Hwarn Hquiet].
  cut ((editCharacterImage base prompt response = Resolved d
        ↔ ∃ r, response = Resolved r ∧ first_image (first_parts r) d)
       ∧ (generateActionScene response = Resolved d
          ↔ ∃ r, response = Resolved r ∧ first_image (first_parts r) d)
       ∧ (generateSceneImage response = Resolved d
          ↔ ∃ r, response = Resolved r ∧ first_image (first_parts r) d)
       ∧ ((evolveCharacterVisuals base prompt response).2 = Resolved d
          ↔ ∃ r, response = Resolved r
                 ∧ (first_image (first_parts r) d
                    ∨ (Forall (λ part, inlineData part = None) (first_parts r)
                       ∧ d = base)))
       ∧ (speakText response = Resolved (Some d)
          ↔ ∃ r blob rest,
              response = Resolved r
              ∧ first_parts r = {| inlineData := Some blob |} :: rest
              ∧ data blob = d ∧ d ≠ [])).
  { intros (Hedit & Haction & Hscene & Hevolve & Hspeech).
    exact (conj Hedit (conj Haction (conj Hscene (conj Hevolve
             (conj Hwarn (conj Hquiet Hspeech)))))). }
  clear Hwarn Hquiet.
  unfold editCharacterImage, generateActionScene, generateSceneImage,
    evolveCharacterVisuals.
  destruct response as [e|r]; cbn [snd].
  { split_and!; try apply speakText_Some.
    all: (split; [done|]); by intros (? & ? & ?); simplify_eq. }
  pose proof (first_inline_data_Some (first_parts r) d) as Hsome.
  pose proof (first_inline_data_none (first_parts r)) as Hnone.
  destruct (first_inline_data (first_parts r)) as [d'|] eqn:Hfirst;
    cbn [snd].
  - assert (first_image (first_parts r) d ↔ d' = d) as Hd.
    { rewrite <-Hsome. split; intros; by simplify_eq. }
    split_and!.
    1-3: split; [intros; simplify_eq; exists r; split; [done|by apply Hd]
                |intros (? & ? & Hr); simplify_eq; by apply Hd in Hr as ->].
    + split.
      * intros; simplify_eq. exists r. split; [done|]. left. by apply Hd.
      * intros (? & ? & [Hr|[Hall _]]); simplify_eq.
        -- by apply Hd in Hr as ->.
        -- by apply Hnone in Hall.
    + apply speakText_Some.
  - assert (¬ first_image (first_parts r) d) as Hd.
    { rewrite <-Hsome. done. }
    split_and!.
    1-3: split; [done|intros (? & ? & ?); by simplify_eq].
    + split.
      * intros; simplify_eq. exists r. split; [done|]. right.
        split; [by apply Hnone|done].
      * intros (? & ? & [?|[_ ->]]); by simplify_eq.
    + apply speakText_Some.
Qed.

#[local] Transparent includes.

Lemma includes_app_r (a b p : jsstring) :
  includes b p = true → includes (a ++ b) p = true.
Proof.
  intros Hb. induction a as [|c a IH]; [done|].
  simpl. rewrite IH. apply orb_true_r.
Qed.

#[local] Opaque includes.

Lemma starts_with_app (p rest : jsstring) : starts_with p (p ++ rest) = true.
Proof.
  induction p as [|c p IH]; [done|]. simpl. by rewrite decide_True.
Qed.

(** X30.  The system instruction that the service builds for the chat
    begins with the instruction of the character and, for every character
    and persona, asks for the very tag that the chat looks for in a reply to
    tell a death. *)
Theorem prompt_asks_for_the_death_tag character userPersona :
  starts_with (Character.systemInstruction character)
    (systemContext character userPersona) = true
  ∧ includes (systemContext character userPersona) deathTag = true.
Proof.
  unfold systemContext. split; [apply starts_with_app|].
  repeat apply includes_app_r. vm_compute. reflexivity.
Qed.
